(** * Blumenboss ledger: the aggregation, filter and CSV logic of [src/App.tsx]

    A shallow embedding of the bookkeeping logic of the single-page app:
    balances, the transaction filter, temporal grouping, the debt and
    delete handlers and the CSV export / import codec; further the entry
    forms, the reports, the group headers, the initial state and the export
    of [src/components/ExportButton.tsx].

    Conventions of the embedding.
    - A JavaScript string is the list of its UTF-16 code units ([jsstring]).
    - The code is written once over a type [num] of numbers with the three
      operations it uses on amounts ([Number]).  The instance [binary64] is
      the JavaScript number itself, with the primitive IEEE 754 operations;
      the instance [integers] is the exact arithmetic of integers, which is what the
      binary64 operations compute as long as the amounts and their sums are
      integers below 2^53.
    - React state is an explicit record ([AppState]); an event handler is a
      function from state to state.
    - A JavaScript object used as a dictionary is a [gmap].
    - Built-ins whose result is implementation-defined ([parseFloat] and
      [Number.prototype.toString], [Date.parse],
      [String.prototype.toLowerCase]) are parameters of the sections that
      use them; concrete instances are given for the executable examples.
    - Dates follow the day and calendar functions of ECMAScript, with a
      constant offset of local time from UTC. *)

From Stdlib Require Import ZArith NArith Lia Ascii String DecimalString.
From Stdlib Require Import PrimInt63 PrimFloat.
From Stdlib Require Import Sorted.
From stdpp Require Import base tactics option list gmap.

Local Open Scope Z_scope.

(** ** JavaScript strings *)

Abbreviation jsstring := (list N).

Module JS.

(** An ASCII literal as a list of code units. *)
Definition lit (s : string) : jsstring :=
  N_of_ascii <$> list_ascii_of_string s.

Definition comma : N := 44%N.
Definition dquote : N := 34%N.
Definition LF : N := 10%N.
Definition CR : N := 13%N.
Definition BOM : N := 65279%N.

(** [!s] for a string: only the empty string is falsy. *)
Definition truthy (s : jsstring) : bool :=
  match s with [] => false | _ => true end.

(** [!v] for a value that may be [undefined]. *)
Definition truthy_opt (v : option jsstring) : bool :=
  match v with Some s => truthy s | None => false end.

(** [s.split(sep)] for a one-code-unit separator: never the empty array. *)
Fixpoint split (sep : N) (s : jsstring) : list jsstring :=
  match s with
  | [] => [[]]
  | c :: s' =>
      if decide (c = sep) then [] :: split sep s'
      else match split sep s' with
           | [] => [[c]]
           | f :: fs => (c :: f) :: fs
           end
  end.

(** [fields.join(sep)]. *)
Fixpoint join (sep : N) (fields : list jsstring) : jsstring :=
  match fields with
  | [] => []
  | [f] => f
  | f :: fs => f ++ sep :: join sep fs
  end.

(** WhiteSpace and LineTerminator code units, as [trim] strips them. *)
Definition isWhiteSpace (c : N) : bool :=
  bool_decide (c ∈ [9; 10; 11; 12; 13; 32; 160; 5760; 8232; 8233; 8239;
                    8287; 12288; 65279]%N)
  || ((8192 <=? c) && (c <=? 8202))%N.

Fixpoint trimStart (s : jsstring) : jsstring :=
  match s with
  | [] => []
  | c :: s' => if isWhiteSpace c then trimStart s' else s
  end.

Definition trim (s : jsstring) : jsstring :=
  reverse (trimStart (reverse (trimStart s))).

(** [s.startsWith(p)]. *)
Fixpoint startsWith (p s : jsstring) : bool :=
  match p, s with
  | [], _ => true
  | _ :: _, [] => false
  | a :: p', b :: s' => bool_decide (a = b) && startsWith p' s'
  end.

(** [s.includes(p)]. *)
Fixpoint includes (p s : jsstring) : bool :=
  startsWith p s ||
  match s with
  | [] => false
  | _ :: s' => includes p s'
  end.

(** [a < b] on strings: lexicographic on code units. *)
Fixpoint ltb (a b : jsstring) : bool :=
  match a, b with
  | _, [] => false
  | [], _ :: _ => true
  | x :: a', y :: b' => (x <? y)%N || (bool_decide (x = y) && ltb a' b')
  end.

(** [s.slice(0, n)]. *)
Definition slice0 (n : nat) (s : jsstring) : jsstring := take n s.

(** [s.replace] of every double quote by the empty string. *)
Definition removeQuotes (s : jsstring) : jsstring :=
  filter (fun c => c ≠ dquote) s.

(** [s.replace] of every double quote by two double quotes. *)
Definition doubleQuotes (s : jsstring) : jsstring :=
  s ≫= (fun c => if decide (c = dquote) then [dquote; dquote] else [c]).

End JS.

(** ** Numbers *)

(** The operations of the code on amounts: the literal [0], [+] and [-]. *)
Class Number (num : Type) := {
  num_zero : num;
  num_add : num -> num -> num;
  num_sub : num -> num -> num
}.

(** The JavaScript number: IEEE 754 binary64 with its rounding. *)
#[global] Instance binary64 : Number float := {|
  num_zero := 0%float;
  num_add := PrimFloat.add;
  num_sub := PrimFloat.sub
|}.

(** Exact arithmetic on integers. *)
#[global] Instance integers : Number Z := {|
  num_zero := 0;
  num_add := Z.add;
  num_sub := Z.sub
|}.

(** The binary64 number nearest to [n] hundredths, the number that
    [parseFloat] reads from the decimal text of the amount: the correctly
    rounded quotient of two integers that binary64 holds exactly. *)
Definition cents (n : PrimInt63.int) : float :=
  PrimFloat.div (PrimFloat.of_uint63 n) (PrimFloat.of_uint63 100%uint63).

(** ** Types ([types.ts] and the head of [App.tsx]) *)

(** The two string enumerations of [types.ts], whose text closes
    [src/App.tsx] (lines 930 to 938): [CASH = 'CASH'], [BANK = 'BANK'],
    [INCOME = 'INCOME'], [EXPENSE = 'EXPENSE']. *)
Module TransactionType.
Definition INCOME : jsstring := JS.lit "INCOME".
Definition EXPENSE : jsstring := JS.lit "EXPENSE".
(** [Object.values(TransactionType)]. *)
Definition values : list jsstring := [INCOME; EXPENSE].
End TransactionType.

Module PaymentMethod.
Definition CASH : jsstring := JS.lit "CASH".
Definition BANK : jsstring := JS.lit "BANK".
Definition values : list jsstring := [CASH; BANK].
End PaymentMethod.

(** The [Transaction] interface of [types.ts] ([src/App.tsx], lines 940 to
    947), with its six fields.  At run time [type] and [paymentMethod] are
    plain strings; the import path stores what the file holds, so they are
    strings here and [Transaction.wellTyped] says that they are members of
    their enumerations. *)
Module Transaction.
Record t (num : Type) := mk {
  id : jsstring;
  description : jsstring;
  amount : num;
  type : jsstring;
  paymentMethod : jsstring;
  date : jsstring
}.

Arguments mk {num} _ _ _ _ _ _.
Arguments id {num} _.
Arguments description {num} _.
Arguments amount {num} _.
Arguments type {num} _.
Arguments paymentMethod {num} _.
Arguments date {num} _.

Definition wellTyped {num : Type} (x : t num) : Prop :=
  type x ∈ TransactionType.values ∧ paymentMethod x ∈ PaymentMethod.values.

#[global] Instance eq_dec {num : Type} `{EqDecision num} : EqDecision (t num).
Proof. solve_decision. Defined.

#[global] Instance wellTyped_dec {num : Type} (x : t num) : Decision (wellTyped x).
Proof. unfold wellTyped. apply _. Defined.
End Transaction.

Inductive DebtStatus := UNPAID | PAID.

#[global] Instance DebtStatus_eq_dec : EqDecision DebtStatus.
Proof. solve_decision. Defined.

Module Debt.
Record t (num : Type) := mk {
  id : jsstring;
  clientName : jsstring;
  description : jsstring;
  amount : num;
  status : DebtStatus;
  date : jsstring;
  notes : option jsstring
}.

Arguments mk {num} _ _ _ _ _ _ _.
Arguments id {num} _.
Arguments clientName {num} _.
Arguments description {num} _.
Arguments amount {num} _.
Arguments status {num} _.
Arguments date {num} _.
Arguments notes {num} _.

(** [{ ...d, status: s }]. *)
Definition withStatus {num : Type} (d : t num) (s : DebtStatus) : t num :=
  mk (id d) (clientName d) (description d) (amount d) s (date d) (notes d).

#[global] Instance eq_dec {num : Type} `{EqDecision num} : EqDecision (t num).
Proof. solve_decision. Defined.
End Debt.

(** ** Balances (the [cashBalance / bankBalance / totalBalance] memo) *)

Record BalanceAcc (num : Type) := {
  cashInc : num; cashExp : num; bankInc : num; bankExp : num
}.

Arguments Build_BalanceAcc {num} _ _ _ _.
Arguments cashInc {num} _.
Arguments cashExp {num} _.
Arguments bankInc {num} _.
Arguments bankExp {num} _.

Section Balances.

Context {num : Type} `{Number num}.

(** The body of [transactions.forEach]. *)
Definition balanceStep (acc : BalanceAcc num) (t : Transaction.t num)
    : BalanceAcc num :=
  if decide (Transaction.paymentMethod t = PaymentMethod.CASH) then
    if decide (Transaction.type t = TransactionType.INCOME)
    then {| cashInc := num_add (cashInc acc) (Transaction.amount t);
            cashExp := cashExp acc;
            bankInc := bankInc acc; bankExp := bankExp acc |}
    else {| cashInc := cashInc acc;
            cashExp := num_add (cashExp acc) (Transaction.amount t);
            bankInc := bankInc acc; bankExp := bankExp acc |}
  else
    if decide (Transaction.type t = TransactionType.INCOME)
    then {| cashInc := cashInc acc; cashExp := cashExp acc;
            bankInc := num_add (bankInc acc) (Transaction.amount t);
            bankExp := bankExp acc |}
    else {| cashInc := cashInc acc; cashExp := cashExp acc;
            bankInc := bankInc acc;
            bankExp := num_add (bankExp acc) (Transaction.amount t) |}.

Definition balanceAcc (transactions : list (Transaction.t num)) : BalanceAcc num :=
  foldl balanceStep
        {| cashInc := num_zero; cashExp := num_zero;
           bankInc := num_zero; bankExp := num_zero |}
        transactions.

Definition cashBalance (transactions : list (Transaction.t num)) : num :=
  let acc := balanceAcc transactions in num_sub (cashInc acc) (cashExp acc).

Definition bankBalance (transactions : list (Transaction.t num)) : num :=
  let acc := balanceAcc transactions in num_sub (bankInc acc) (bankExp acc).

Definition totalBalance (transactions : list (Transaction.t num)) : num :=
  let acc := balanceAcc transactions in
  num_sub (num_add (cashInc acc) (bankInc acc))
          (num_add (cashExp acc) (bankExp acc)).

(** ** Unpaid-debt total *)

Definition totalUnpaidDebts (debts : list (Debt.t num)) : num :=
  foldl (fun sum d => num_add sum (Debt.amount d)) num_zero
        (filter (fun d => Debt.status d = UNPAID) debts).

End Balances.

(** The specification's side of the balance claim, in exact arithmetic:
    the signed amount of a transaction (income positive, expense negative)
    and its sum over a list. *)
Definition signedAmount (t : Transaction.t Z) : Z :=
  if decide (Transaction.type t = TransactionType.INCOME) then Transaction.amount t
  else if decide (Transaction.type t = TransactionType.EXPENSE) then - Transaction.amount t
  else 0.

Fixpoint sumSigned (ts : list (Transaction.t Z)) : Z :=
  match ts with
  | [] => 0
  | t :: ts' => signedAmount t + sumSigned ts'
  end.

(** The amount with the sign that the loop of the code gives it: positive
    for the type INCOME, negative for every other type, of the enumeration
    or not; and its sum over a list. *)
Definition countedAmount (t : Transaction.t Z) : Z :=
  if decide (Transaction.type t = TransactionType.INCOME) then Transaction.amount t
  else - Transaction.amount t.

Fixpoint sumCounted (ts : list (Transaction.t Z)) : Z :=
  match ts with
  | [] => 0
  | t :: ts' => countedAmount t + sumCounted ts'
  end.

Definition withMethod {num : Type} (m : jsstring) (ts : list (Transaction.t num))
    : list (Transaction.t num) :=
  filter (fun t => Transaction.paymentMethod t = m) ts.

(** The amounts of the transactions of one account and one direction, in
    the order of the list, and the sum that a loop accumulates over them
    from left to right. *)
Definition amountsOf {num : Type} (cash income : bool) (ts : list (Transaction.t num))
    : list num :=
  Transaction.amount <$>
    filter (fun t =>
              bool_decide (Transaction.paymentMethod t = PaymentMethod.CASH) = cash
              ∧ bool_decide (Transaction.type t = TransactionType.INCOME) = income)
           ts.

Definition sumLeft {num : Type} `{Number num} (start : num) (l : list num) : num :=
  foldl num_add start l.

(** ** Application state *)

Inductive View := ViewTransactions | ViewDebts | ViewReports.

#[global] Instance View_eq_dec : EqDecision View.
Proof. solve_decision. Defined.

Inductive GroupingMode := daily | weekly.

Record AppState (num : Type) := {
  transactions : list (Transaction.t num);
  debts : list (Debt.t num);
  searchTerm : jsstring;
  filterType : jsstring;              (* 'all' or a TransactionType *)
  startDate : jsstring;
  endDate : jsstring;
  groupingMode : GroupingMode;
  activeView : View;
  activeAccountView : jsstring;       (* a PaymentMethod *)
  isTransactionModalOpen : bool;
  transactionToDelete : option jsstring;
  debtToSettle : option (Debt.t num);
  isAccountantMode : bool
}.

Arguments Build_AppState {num} _ _ _ _ _ _ _ _ _ _ _ _ _.
Arguments transactions {num} _.
Arguments debts {num} _.
Arguments searchTerm {num} _.
Arguments filterType {num} _.
Arguments startDate {num} _.
Arguments endDate {num} _.
Arguments groupingMode {num} _.
Arguments activeView {num} _.
Arguments activeAccountView {num} _.
Arguments isTransactionModalOpen {num} _.
Arguments transactionToDelete {num} _.
Arguments debtToSettle {num} _.
Arguments isAccountantMode {num} _.

Section State.

Context {num : Type}.

Definition setTransactions (f : list (Transaction.t num) -> list (Transaction.t num))
    (s : AppState num) : AppState num :=
  {| transactions := f (transactions s); debts := debts s;
     searchTerm := searchTerm s; filterType := filterType s;
     startDate := startDate s; endDate := endDate s;
     groupingMode := groupingMode s; activeView := activeView s;
     activeAccountView := activeAccountView s;
     isTransactionModalOpen := isTransactionModalOpen s;
     transactionToDelete := transactionToDelete s;
     debtToSettle := debtToSettle s; isAccountantMode := isAccountantMode s |}.

Definition setDebts (f : list (Debt.t num) -> list (Debt.t num))
    (s : AppState num) : AppState num :=
  {| transactions := transactions s; debts := f (debts s);
     searchTerm := searchTerm s; filterType := filterType s;
     startDate := startDate s; endDate := endDate s;
     groupingMode := groupingMode s; activeView := activeView s;
     activeAccountView := activeAccountView s;
     isTransactionModalOpen := isTransactionModalOpen s;
     transactionToDelete := transactionToDelete s;
     debtToSettle := debtToSettle s; isAccountantMode := isAccountantMode s |}.

Definition setDebtToSettle (v : option (Debt.t num)) (s : AppState num) : AppState num :=
  {| transactions := transactions s; debts := debts s;
     searchTerm := searchTerm s; filterType := filterType s;
     startDate := startDate s; endDate := endDate s;
     groupingMode := groupingMode s; activeView := activeView s;
     activeAccountView := activeAccountView s;
     isTransactionModalOpen := isTransactionModalOpen s;
     transactionToDelete := transactionToDelete s;
     debtToSettle := v; isAccountantMode := isAccountantMode s |}.

Definition setTransactionToDelete (v : option jsstring) (s : AppState num) : AppState num :=
  {| transactions := transactions s; debts := debts s;
     searchTerm := searchTerm s; filterType := filterType s;
     startDate := startDate s; endDate := endDate s;
     groupingMode := groupingMode s; activeView := activeView s;
     activeAccountView := activeAccountView s;
     isTransactionModalOpen := isTransactionModalOpen s;
     transactionToDelete := v;
     debtToSettle := debtToSettle s; isAccountantMode := isAccountantMode s |}.

Definition setIsTransactionModalOpen (v : bool) (s : AppState num) : AppState num :=
  {| transactions := transactions s; debts := debts s;
     searchTerm := searchTerm s; filterType := filterType s;
     startDate := startDate s; endDate := endDate s;
     groupingMode := groupingMode s; activeView := activeView s;
     activeAccountView := activeAccountView s;
     isTransactionModalOpen := v;
     transactionToDelete := transactionToDelete s;
     debtToSettle := debtToSettle s; isAccountantMode := isAccountantMode s |}.

(** [handleClearFilters]: the four setters of the filter bar. *)
Definition handleClearFilters (s : AppState num) : AppState num :=
  {| transactions := transactions s; debts := debts s;
     searchTerm := []; filterType := JS.lit "all";
     startDate := []; endDate := [];
     groupingMode := groupingMode s; activeView := activeView s;
     activeAccountView := activeAccountView s;
     isTransactionModalOpen := isTransactionModalOpen s;
     transactionToDelete := transactionToDelete s;
     debtToSettle := debtToSettle s; isAccountantMode := isAccountantMode s |}.

End State.

(** ** Numeral normalisation and the transaction filter *)

(** The character class of the regular expression: U+0660..0669 and
    U+06F0..06F9. *)
Definition arabicPersianNumerals (c : N) : bool :=
  ((1632 <=? c) && (c <=? 1641) || (1776 <=? c) && (c <=? 1785))%N.

(** The [numeralMap] object, entry by entry. *)
Definition numeralMap : list (N * N) :=
  [ (1632, 48); (1633, 49); (1634, 50); (1635, 51); (1636, 52);
    (1637, 53); (1638, 54); (1639, 55); (1640, 56); (1641, 57);
    (1776, 48); (1777, 49); (1778, 50); (1779, 51); (1780, 52);
    (1781, 53); (1782, 54); (1783, 55); (1784, 56); (1785, 57) ]%N.

Fixpoint numeralMap_get (m : list (N * N)) (c : N) : option N :=
  match m with
  | [] => None
  | (k, v) :: m' => if decide (k = c) then Some v else numeralMap_get m' c
  end.

(** The replacer callback on a matched code unit, and the identity on the
    others: a match is replaced by its table entry; a missing entry would
    print as the text of [undefined]. *)
Definition replaceNumeral (c : N) : jsstring :=
  if arabicPersianNumerals c then
    match numeralMap_get numeralMap c with
    | Some d => [d]
    | None => JS.lit "undefined"
    end
  else [c].

(** [str.replace(arabicPersianNumerals, match => numeralMap[match])]. *)
Definition convertToEnglishNumerals (str : jsstring) : jsstring :=
  str ≫= replaceNumeral.

Section Filter.

Context {num : Type}.

(** [String.prototype.toLowerCase], locale-independent Unicode lowering. *)
Variable toLowerCase : jsstring -> jsstring.

(** The search clause of the filter predicate. *)
Definition matchesSearch (searchTerm description : jsstring) : bool :=
  let englishSearchTerm := convertToEnglishNumerals searchTerm in
  negb (JS.truthy englishSearchTerm &&
        negb (JS.includes (toLowerCase englishSearchTerm)
                          (toLowerCase (convertToEnglishNumerals description)))).

(** The callback of the second [.filter]. *)
Definition filterPredicate (s : AppState num) (t : Transaction.t num) : bool :=
  if negb (matchesSearch (searchTerm s) (Transaction.description t)) then false
  else if bool_decide (filterType s ≠ JS.lit "all")
          && bool_decide (Transaction.type t ≠ filterType s) then false
  else
    let transactionDate := JS.slice0 10 (Transaction.date t) in
    if JS.truthy (startDate s) && JS.ltb transactionDate (startDate s) then false
    else if JS.truthy (endDate s) && JS.ltb (endDate s) transactionDate then false
    else true.

(** The callback of the first [.filter]: the account scope. *)
Definition accountPredicate (s : AppState num) (t : Transaction.t num) : bool :=
  if decide (activeView s = ViewTransactions)
  then bool_decide (Transaction.paymentMethod t = activeAccountView s)
  else true.

(** The [filteredTransactions] memo, as a function of the list it filters. *)
Definition filterTransactions (s : AppState num) (ts : list (Transaction.t num))
    : list (Transaction.t num) :=
  filter (fun t => filterPredicate s t = true)
         (filter (fun t => accountPredicate s t = true) ts).

Definition filteredTransactions (s : AppState num) : list (Transaction.t num) :=
  filterTransactions s (transactions s).

End Filter.

(** ** Dates

    The time value of a [Date] is a number of milliseconds since the epoch,
    or NaN for an invalid date: [option Z], [None] being NaN.  The day and
    calendar functions are those of the ECMAScript specification (Day,
    TimeWithinDay, DayFromYear, YearFromTime, MonthFromTime, DateFromTime,
    WeekDay, MakeTime, MakeDay, MakeDate).  The range limit of time values
    (TimeClip) is not modelled. *)

Module JSDate.

Definition msPerDay : Z := 86400000.

Definition Day (t : Z) : Z := t / msPerDay.
Definition TimeWithinDay (t : Z) : Z := t mod msPerDay.

Definition DaysInYear (y : Z) : Z :=
  if negb (y mod 4 =? 0) then 365
  else if negb (y mod 100 =? 0) then 366
  else if negb (y mod 400 =? 0) then 365
  else 366.

Definition DayFromYear (y : Z) : Z :=
  365 * (y - 1970) + (y - 1969) / 4 - (y - 1901) / 100 + (y - 1601) / 400.

(** The largest [y] with [DayFromYear y <= Day t]: an estimate from the
    mean length of a year, corrected by at most one. *)
Definition YearFromTime (t : Z) : Z :=
  let d := Day t in
  let y := 1970 + (400 * d) / 146097 in
  if d <? DayFromYear y then y - 1
  else if DayFromYear (y + 1) <=? d then y + 1
  else y.

Definition InLeapYear (t : Z) : bool := DaysInYear (YearFromTime t) =? 366.

Definition DayWithinYear (t : Z) : Z := Day t - DayFromYear (YearFromTime t).

(** The day within the year on which month [m] (0 = January) starts. *)
Definition monthStart (leap : bool) (m : Z) : Z :=
  let l := if leap then 1 else 0 in
  if m =? 0 then 0
  else if m =? 1 then 31
  else if m =? 2 then 59 + l
  else if m =? 3 then 90 + l
  else if m =? 4 then 120 + l
  else if m =? 5 then 151 + l
  else if m =? 6 then 181 + l
  else if m =? 7 then 212 + l
  else if m =? 8 then 243 + l
  else if m =? 9 then 273 + l
  else if m =? 10 then 304 + l
  else 334 + l.

Definition MonthFromTime (t : Z) : Z :=
  let d := DayWithinYear t in
  let l := if InLeapYear t then 1 else 0 in
  if d <? 31 then 0
  else if d <? 59 + l then 1
  else if d <? 90 + l then 2
  else if d <? 120 + l then 3
  else if d <? 151 + l then 4
  else if d <? 181 + l then 5
  else if d <? 212 + l then 6
  else if d <? 243 + l then 7
  else if d <? 273 + l then 8
  else if d <? 304 + l then 9
  else if d <? 334 + l then 10
  else 11.

Definition DateFromTime (t : Z) : Z :=
  DayWithinYear t - monthStart (InLeapYear t) (MonthFromTime t) + 1.

(** 0 = Sunday, 1 = Monday, ..., 6 = Saturday. *)
Definition WeekDay (t : Z) : Z := (Day t + 4) mod 7.

Definition MakeTime (hour min sec ms : Z) : Z :=
  hour * 3600000 + min * 60000 + sec * 1000 + ms.

Definition MakeDay (year month date : Z) : Z :=
  let ym := year + month / 12 in
  let mn := month mod 12 in
  DayFromYear ym + monthStart (DaysInYear ym =? 366) mn + date - 1.

Definition MakeDate (day time : Z) : Z := day * msPerDay + time.

Section Local.

(** The offset of local time from UTC in milliseconds, taken as constant
    (no daylight-saving transitions). *)
Variable LocalTZA : Z.

Definition LocalTime (t : Z) : Z := t + LocalTZA.
Definition UTC (t : Z) : Z := t - LocalTZA.

(** [d.setHours(0, 0, 0, 0)]. *)
Definition setHours0 (d : option Z) : option Z :=
  tv ← d;
  Some (UTC (MakeDate (Day (LocalTime tv)) (MakeTime 0 0 0 0))).

(** [d.getDay()] and [d.getDate()]. *)
Definition getDay (d : option Z) : option Z :=
  tv ← d; Some (WeekDay (LocalTime tv)).

Definition getDate (d : option Z) : option Z :=
  tv ← d; Some (DateFromTime (LocalTime tv)).

(** [d.setDate(dt)]: the day of the month may lie outside the month. *)
Definition setDate (d : option Z) (dt : option Z) : option Z :=
  tv ← d; n ← dt;
  let t := LocalTime tv in
  Some (UTC (MakeDate (MakeDay (YearFromTime t) (MonthFromTime t) n)
                      (TimeWithinDay t))).

(** [getStartOfWeek], as written in the [groupedTransactions] memo. *)
Definition getStartOfWeek (date : option Z) : option Z :=
  let d := setHours0 date in
  let day := getDay d in
  let diff := (dd ← getDate d; w ← day;
               Some (dd - w + (if w =? 0 then -6 else 1))) in
  setDate d diff.

End Local.

End JSDate.

(** Decimal text of an integer, as [Number.prototype.toString] prints an
    integer below 10^21. *)
Definition decimal (z : Z) : jsstring :=
  JS.lit (DecimalString.NilZero.string_of_int (Z.to_int z)).

Definition pad2 (z : Z) : jsstring :=
  if (0 <=? z) && (z <? 10) then 48%N :: decimal z else decimal z.

(** The year of the era, which the pattern letter y prints: the year
    itself from year 1 on, and 1 for the year 0, 2 for the year -1 and so
    on. *)
Definition yearOfEra (y : Z) : Z := if y <=? 0 then 1 - y else y.

(** [toLocaleDateString('en-CA')]: the pattern y-MM-dd on the local
    calendar date, and the text [Invalid Date] for NaN. *)
Definition toLocaleDateString_enCA (LocalTZA : Z) (d : option Z) : jsstring :=
  match d with
  | None => JS.lit "Invalid Date"
  | Some tv =>
      let t := JSDate.LocalTime LocalTZA tv in
      decimal (yearOfEra (JSDate.YearFromTime t)) ++ 45%N ::
      pad2 (JSDate.MonthFromTime t + 1) ++ 45%N ::
      pad2 (JSDate.DateFromTime t)
  end.

(** ** Temporal grouping (the [groupedTransactions] memo) *)

Section Grouping.

Context {num : Type}.

Variable LocalTZA : Z.

(** [new Date(string)]: the time value the text denotes, NaN when it does
    not parse. *)
Variable Date_parse : jsstring -> option Z.

Definition groupKey (mode : GroupingMode) (transaction : Transaction.t num) : jsstring :=
  let transactionDate := Date_parse (Transaction.date transaction) in
  match mode with
  | daily => toLocaleDateString_enCA LocalTZA transactionDate
  | weekly => toLocaleDateString_enCA LocalTZA
                (JSDate.getStartOfWeek LocalTZA transactionDate)
  end.

(** The reducer: [if (!acc[key]) acc[key] = []; acc[key].push(transaction)]. *)
Definition groupStep (mode : GroupingMode)
    (acc : gmap jsstring (list (Transaction.t num))) (transaction : Transaction.t num)
    : gmap jsstring (list (Transaction.t num)) :=
  let key := groupKey mode transaction in
  let bucket := match acc !! key with Some b => b | None => [] end in
  <[key := bucket ++ [transaction]]> acc.

Definition groupTransactions (mode : GroupingMode) (ts : list (Transaction.t num))
    : gmap jsstring (list (Transaction.t num)) :=
  foldl (groupStep mode) ∅ ts.

Variable toLowerCase : jsstring -> jsstring.

Definition groupedTransactions (s : AppState num) : gmap jsstring (list (Transaction.t num)) :=
  groupTransactions (groupingMode s) (filteredTransactions toLowerCase s).

End Grouping.

(** ** Debt settlement and deletion handlers *)

Section Handlers.

Context {num : Type}.

(** [handleSettleDebtRequest]. *)
Definition handleSettleDebtRequest (debtId : jsstring) (s : AppState num) : AppState num :=
  if isAccountantMode s then s
  else
    match List.find (fun d => bool_decide (Debt.id d = debtId)) (debts s) with
    | Some debt => setDebtToSettle (Some debt) s
    | None => s
    end.

(** The Arabic prefix of the description of a settlement, code unit by
    code unit, up to and including the colon and the space. *)
Definition settlePrefix : jsstring :=
  [1578; 1587; 1583; 1610; 1583; 32; 1583; 1610; 1606; 58; 32]%N.

Definition settleDescription (d : Debt.t num) : jsstring :=
  settlePrefix ++ Debt.clientName d ++ JS.lit " - " ++ Debt.description d.

(** The callback of [prev.map] in [handleConfirmSettleDebt]. *)
Definition markPaid (id : jsstring) (d : Debt.t num) : Debt.t num :=
  if decide (Debt.id d = id) then Debt.withStatus d PAID else d.

(** [handleConfirmSettleDebt].  [nowId] and [nowIso] are the two readings of
    the clock, [new Date().getTime().toString()] and
    [new Date().toISOString()]. *)
Definition handleConfirmSettleDebt (nowId nowIso : jsstring)
    (settleMethod : jsstring) (s : AppState num) : AppState num :=
  match debtToSettle s with
  | None => s
  | Some debtToSettle =>
      let newTransaction :=
        Transaction.mk nowId (settleDescription debtToSettle)
                       (Debt.amount debtToSettle) TransactionType.INCOME
                       settleMethod nowIso in
      setDebtToSettle None
        (setDebts
           (fun prev => markPaid (Debt.id debtToSettle) <$> prev)
           (setTransactions (fun prev => newTransaction :: prev) s))
  end.

(** The settlement of the spec's [settleDebt(id, method)]: the request
    followed by the confirmation in the dialog it opens. *)
Definition settleDebt (nowId nowIso : jsstring) (debtId settleMethod : jsstring)
    (s : AppState num) : AppState num :=
  handleConfirmSettleDebt nowId nowIso settleMethod
    (handleSettleDebtRequest debtId s).

(** [handleDeleteTransactionRequest]. *)
Definition handleDeleteTransactionRequest (id : jsstring) (s : AppState num) : AppState num :=
  if isAccountantMode s then s
  else setIsTransactionModalOpen true (setTransactionToDelete (Some id) s).

(** [handleConfirmTransactionDelete]: the guard is the truthiness of the
    state variable, so [null] and the empty string both skip the removal. *)
Definition handleConfirmTransactionDelete (s : AppState num) : AppState num :=
  let s1 :=
    match transactionToDelete s with
    | Some id =>
        if JS.truthy id
        then setTransactions
               (fun prev => filter (fun t => Transaction.id t ≠ id) prev) s
        else s
    | None => s
    end in
  setTransactionToDelete None (setIsTransactionModalOpen false s1).

End Handlers.

(** ** CSV export and import *)

(** [escapeCSV]. *)
Definition needsQuoting (str : jsstring) : bool :=
  existsb (fun c => bool_decide (c ∈ [JS.dquote; JS.comma; JS.LF; JS.CR])) str.

Definition escapeCSV (str : jsstring) : jsstring :=
  if needsQuoting str then JS.dquote :: JS.doubleQuotes str ++ [JS.dquote]
  else str.

Definition csvHeaders : list jsstring :=
  [JS.lit "id"; JS.lit "description"; JS.lit "amount"; JS.lit "type";
   JS.lit "paymentMethod"; JS.lit "date"].

Inductive ImportError :=
| ErrEmptyOrInvalid      (* the CSV file is empty or invalid *)
| ErrBadFormat           (* the CSV format is wrong *)
| ErrTypeError.          (* a TypeError raised inside the try block *)

Inductive ImportAlert :=
| NoAlert                          (* returned before the try block *)
| AlertError (e : ImportError)     (* the alert of the catch clause *)
| AlertSuccess (count : nat).      (* the success alert with its count *)

Inductive RowOutcome (num : Type) :=
| RowThrow
| RowSkip
| RowOk (t : Transaction.t num).

Arguments RowThrow {num}.
Arguments RowSkip {num}.
Arguments RowOk {num} _.

Section Codec.

Context {num : Type}.

(** [Number.prototype.toString] and [parseFloat] ([None] is NaN). *)
Variable numToString : num -> jsstring.
Variable parseFloat : jsstring -> option num.

Definition csvRow (t : Transaction.t num) : jsstring :=
  JS.join JS.comma
    [escapeCSV (Transaction.id t); escapeCSV (Transaction.description t);
     numToString (Transaction.amount t); escapeCSV (Transaction.type t);
     escapeCSV (Transaction.paymentMethod t); escapeCSV (Transaction.date t)].

Definition csvString (ts : list (Transaction.t num)) : jsstring :=
  JS.join JS.LF (JS.join JS.comma csvHeaders :: (csvRow <$> ts)).

(** [handleExport]: the text of the downloaded blob, byte-order mark first;
    [None] when the list is empty and only an alert is shown. *)
Definition handleExport (ts : list (Transaction.t num)) : option jsstring :=
  match ts with
  | [] => None
  | _ => Some (JS.BOM :: csvString ts)
  end.

(** [reader.readAsText(file)]: UTF-8 decoding drops a leading byte-order
    mark. *)
Definition readAsText (blob : jsstring) : jsstring :=
  match blob with
  | c :: rest => if decide (c = JS.BOM) then rest else blob
  | [] => []
  end.

(** [parseFloat(values[2])]: an [undefined] argument parses as NaN. *)
Definition parseFloatArg (v : option jsstring) : option num :=
  match v with
  | Some str => parseFloat str
  | None => None
  end.

(** A field read by index.  An index past the end reads [undefined]; it is
    the empty string here, which the validation treats alike: both are
    falsy and neither is a member of an enumeration. *)
Definition field (values : list jsstring) (i : nat) : jsstring :=
  match values !! i with Some v => v | None => [] end.

(** The callback of [rows.map]. *)
Definition importRow (row : jsstring) : RowOutcome num :=
  let values := JS.split JS.comma row in
  match parseFloatArg (values !! 2%nat) with
  | None => RowSkip
  | Some amount =>
      match values !! 1%nat with
      | None => RowThrow
      | Some v1 =>
          let transaction :=
            Transaction.mk (field values 0) (JS.removeQuotes v1) amount
                           (field values 3) (field values 4) (field values 5) in
          if negb (JS.truthy (Transaction.id transaction))
             || negb (JS.truthy (Transaction.date transaction))
             || negb (bool_decide (Transaction.type transaction
                                     ∈ TransactionType.values))
          then RowSkip
          else RowOk transaction
      end
  end.

(** [rows.map(...).filter(t => t !== null)]; [None] when a row throws. *)
Fixpoint importRows (rows : list jsstring) : option (list (Transaction.t num)) :=
  match rows with
  | [] => Some []
  | row :: rows' =>
      match importRow row with
      | RowThrow => None
      | RowSkip => importRows rows'
      | RowOk t => cons t <$> importRows rows'
      end
  end.

Definition headerOk (headers : list jsstring) : bool :=
  negb ((length headers <? 6)%nat
        || bool_decide (headers !! 1%nat ≠ Some (JS.lit "description"))
        || bool_decide (headers !! 2%nat ≠ Some (JS.lit "amount"))).

(** The updater passed to [setTransactions]. *)
Definition mergeImported (importedTransactions prev : list (Transaction.t num))
    : list (Transaction.t num) :=
  let existingIds : gset jsstring := list_to_set (Transaction.id <$> prev) in
  let newTransactions :=
    filter (fun t => Transaction.id t ∉ existingIds) importedTransactions in
  newTransactions ++ prev.

(** The [onload] callback of [handleImport], on the text read from the file
    and the current transactions: the new transactions and the alert. *)
Definition handleImport (text : jsstring) (prev : list (Transaction.t num))
    : list (Transaction.t num) * ImportAlert :=
  if negb (JS.truthy text) then (prev, NoAlert)
  else
    let rows := filter (fun row => JS.trim row ≠ []) (JS.split JS.LF text) in
    match rows with
    | [] => (prev, AlertError ErrEmptyOrInvalid)
    | headerRow :: rows =>
        if negb (JS.truthy headerRow) then (prev, AlertError ErrEmptyOrInvalid)
        else
          let headers := JS.trim <$> JS.split JS.comma headerRow in
          if negb (headerOk headers) then (prev, AlertError ErrBadFormat)
          else
            match importRows rows with
            | None => (prev, AlertError ErrTypeError)
            | Some importedTransactions =>
                (mergeImported importedTransactions prev,
                 AlertSuccess (length importedTransactions))
            end
    end.

End Codec.

(** ** Concrete built-ins for the executable examples *)

Definition isDigit (c : N) : bool := ((48 <=? c) && (c <=? 57))%N.

Fixpoint parseDigits (acc : Z) (s : jsstring) : Z :=
  match s with
  | c :: s' =>
      if isDigit c then parseDigits (10 * acc + (Z.of_N c - 48)) s' else acc
  | [] => acc
  end.

(** [parseFloat] read on integer literals: leading white space, an optional
    sign and the longest run of digits; NaN when no digit follows.  A
    fraction or an exponent is not read. *)
Definition parseFloat_int (s : jsstring) : option Z :=
  let s := JS.trimStart s in
  let '(sign, s) :=
    match s with
    | 45%N :: s' => (-1, s')
    | 43%N :: s' => (1, s')
    | _ => (1, s)
    end in
  match s with
  | c :: _ => if isDigit c then Some (sign * parseDigits 0 s) else None
  | [] => None
  end.

(** Lowering of the ASCII capitals; other code units are kept. *)
Definition toLowerCase_ascii (s : jsstring) : jsstring :=
  (fun c => if ((65 <=? c) && (c <=? 90))%N then (c + 32)%N else c) <$> s.

(** [Date.parse] read on the 24 code units that [toISOString] writes for
    the years 0 to 9999: YYYY-MM-DDTHH:mm:ss.sssZ. *)
Definition digitsAt (s : jsstring) (i n : nat) : option Z :=
  let ds := take n (drop i s) in
  if bool_decide (length ds = n) && forallb isDigit ds
  then Some (parseDigits 0 ds) else None.

Definition charAt (s : jsstring) (i : nat) (c : N) : option unit :=
  if bool_decide (s !! i = Some c) then Some tt else None.

Definition parseISO (s : jsstring) : option Z :=
  if bool_decide (length s ≠ 24%nat) then None else
  y ← digitsAt s 0 4; _ ← charAt s 4 45%N;
  mo ← digitsAt s 5 2; _ ← charAt s 7 45%N;
  d ← digitsAt s 8 2; _ ← charAt s 10 84%N;
  h ← digitsAt s 11 2; _ ← charAt s 13 58%N;
  mi ← digitsAt s 14 2; _ ← charAt s 16 58%N;
  se ← digitsAt s 17 2; _ ← charAt s 19 46%N;
  ms ← digitsAt s 20 3; _ ← charAt s 23 90%N;
  if (1 <=? mo) && (mo <=? 12) && (1 <=? d) && (d <=? 31)
     && (h <=? 23) && (mi <=? 59) && (se <=? 59)
  then Some (JSDate.MakeDate (JSDate.MakeDay y (mo - 1) d)
                             (JSDate.MakeTime h mi se ms))
  else None.

(** ** Example data: the scenario of the specification *)

Definition exRoses : Transaction.t Z :=
  Transaction.mk (JS.lit "1710072000000") (JS.lit "roses") 100
    TransactionType.INCOME PaymentMethod.CASH (JS.lit "2024-03-10T12:00:00.000Z").

Definition exVase : Transaction.t Z :=
  Transaction.mk (JS.lit "1710158400000") (JS.lit "vase") 40
    TransactionType.EXPENSE PaymentMethod.CASH (JS.lit "2024-03-11T12:00:00.000Z").

Definition exWedding : Transaction.t Z :=
  Transaction.mk (JS.lit "1710244800000") (JS.lit "wedding 123") 50
    TransactionType.INCOME PaymentMethod.BANK (JS.lit "2024-03-12T12:00:00.000Z").

Definition exLedger : list (Transaction.t Z) := [exRoses; exVase; exWedding].

(** ** The specification's side of the claims *)

(** The week start of the specification: the date minus
    [(weekday - 1) mod 7] days, Sunday counted as weekday 7. *)
Definition isoWeekday (t : Z) : Z :=
  if JSDate.WeekDay t =? 0 then 7 else JSDate.WeekDay t.

Definition weekStartDay (t : Z) : Z :=
  JSDate.Day t - (isoWeekday t - 1) mod 7.

(** The decimal value of a digit in one of the three scripts: ASCII,
    Arabic-Indic (U+0660..) and Extended Arabic-Indic (U+06F0..). *)
Definition digitValue (c : N) : option N :=
  if ((48 <=? c) && (c <=? 57))%N then Some (c - 48)%N
  else if ((1632 <=? c) && (c <=? 1641))%N then Some (c - 1632)%N
  else if ((1776 <=? c) && (c <=? 1785))%N then Some (c - 1776)%N
  else None.

(** Two code units that are equal, or digits of the same value. *)
Definition sameDigit (x y : N) : Prop :=
  x = y ∨ ∃ v, digitValue x = Some v ∧ digitValue y = Some v.

#[global] Instance sameDigit_dec x y : Decision (sameDigit x y).
Proof.
  unfold sameDigit.
  destruct (decide (x = y)) as [->|Hne]; [left; auto|].
  destruct (digitValue x) as [v|] eqn:Ex.
  - destruct (decide (digitValue y = Some v)) as [Ey|Ey].
    + left. right. eauto.
    + right. intros [?|(w & Hw & Hw')]; [done|].
      injection Hw as <-. contradiction.
  - right. intros [?|(w & Hw & _)]; [done|discriminate].
Defined.

(** The ASCII digit of the same value for a digit of one of the three
    scripts, and any other code unit itself. *)
Definition asciiDigit (c : N) : N :=
  match digitValue c with Some v => (48 + v)%N | None => c end.

(** What the search needs of [String.prototype.toLowerCase]: a run of
    ASCII digits stays where it is, and the text before it and the text
    after it are lowered each by itself.  The built-in has this property:
    its one mapping that looks at the neighbours of a code point, the final
    sigma, looks through case-ignorable code points for a cased letter, and
    an ASCII digit is neither; and a digit is no half of a surrogate
    pair. *)
Definition keepsDigitRuns (toLowerCase : jsstring -> jsstring) : Prop :=
  toLowerCase [] = []
  ∧ ∀ before digits after,
      digits ≠ [] -> Forall (fun c => isDigit c = true) digits ->
      toLowerCase (before ++ digits ++ after)
      = toLowerCase before ++ digits ++ toLowerCase after.

(** Two texts that differ at most in the script of their digits. *)
Definition sameUpToDigitScript (a b : jsstring) : Prop := Forall2 sameDigit a b.

#[global] Instance sameUpToDigitScript_dec a b : Decision (sameUpToDigitScript a b).
Proof. unfold sameUpToDigitScript. apply _. Defined.

(** A field that [escapeCSV] leaves as it is: no comma, no double quote,
    no line feed and no carriage return. *)
Definition plainField (str : jsstring) : Prop := needsQuoting str = false.

(** A field free of commas and double quotes, the exception the
    specification names. *)
Definition noCommaNoQuote (str : jsstring) : Prop :=
  (JS.comma ∉ str) ∧ (JS.dquote ∉ str).

Section RoundTrip.

Context {num : Type} `{EqDecision num}.

Variable numToString : num -> jsstring.
Variable parseFloat : jsstring -> option num.

(** A transaction that the codec carries through unchanged: plain fields,
    an [id] and a [date] that are not empty, a [type] of the enumeration,
    and an amount whose text is plain and parses back to it. *)
Definition roundTrippable (t : Transaction.t num) : Prop :=
  plainField (Transaction.id t)
  ∧ plainField (Transaction.description t)
  ∧ plainField (Transaction.type t)
  ∧ plainField (Transaction.paymentMethod t)
  ∧ plainField (Transaction.date t)
  ∧ Transaction.id t ≠ []
  ∧ Transaction.date t ≠ []
  ∧ Transaction.type t ∈ TransactionType.values
  ∧ plainField (numToString (Transaction.amount t))
  ∧ parseFloat (numToString (Transaction.amount t)) = Some (Transaction.amount t).

#[global] Instance roundTrippable_dec (t : Transaction.t num) : Decision (roundTrippable t).
Proof. unfold roundTrippable, plainField. apply _. Defined.

End RoundTrip.

(** A file without content: every line is blank (among them the file of
    no code unit at all). *)
Definition blankOnly (text : jsstring) : Prop :=
  Forall (fun row => JS.trim row = []) (JS.split JS.LF text).

(** A header-only file: its one line that is not blank is a valid header. *)
Definition headerOnly (text : jsstring) : Prop :=
  ∃ headerRow,
    filter (fun row => JS.trim row ≠ []) (JS.split JS.LF text) = [headerRow]
    ∧ headerOk (JS.trim <$> JS.split JS.comma headerRow) = true.

(** ** Example data *)

Definition exState : AppState Z :=
  {| transactions := exLedger; debts := [];
     searchTerm := JS.lit "roses"; filterType := TransactionType.INCOME;
     startDate := JS.lit "2024-03-01"; endDate := JS.lit "2024-03-31";
     groupingMode := weekly; activeView := ViewTransactions;
     activeAccountView := PaymentMethod.CASH;
     isTransactionModalOpen := true;
     transactionToDelete := Some (JS.lit "1710158400000");
     debtToSettle := None; isAccountantMode := false |}.

Definition exDebtA : Debt.t Z :=
  Debt.mk (JS.lit "debt-1") (JS.lit "Lina") (JS.lit "bouquet") 70 UNPAID
          (JS.lit "2024-03-01T09:00:00.000Z") None.

Definition exDebtB : Debt.t Z :=
  Debt.mk (JS.lit "debt-2") (JS.lit "Omar") (JS.lit "wreath") 30 UNPAID
          (JS.lit "2024-03-02T09:00:00.000Z") (Some (JS.lit "pays Friday")).

Definition exDebtC : Debt.t Z :=
  Debt.mk (JS.lit "debt-3") (JS.lit "Sami") (JS.lit "tulips") 25 PAID
          (JS.lit "2024-03-03T09:00:00.000Z") None.

Definition exDebtState : AppState Z :=
  {| transactions := exLedger; debts := [exDebtA; exDebtB; exDebtC];
     searchTerm := []; filterType := JS.lit "all";
     startDate := []; endDate := [];
     groupingMode := daily; activeView := ViewDebts;
     activeAccountView := PaymentMethod.CASH;
     isTransactionModalOpen := false;
     transactionToDelete := None;
     debtToSettle := None; isAccountantMode := false |}.

(** A header-only file and a file with one row whose payment method is not
    of the enumeration. *)
Definition exHeaderOnly : jsstring :=
  JS.lit "id,description,amount,type,paymentMethod,date".

Definition exPaypalFile : jsstring :=
  exHeaderOnly ++
  (JS.LF :: JS.lit "7,roses,5,INCOME,PAYPAL,2024-03-10T12:00:00.000Z").

(** A transaction as an import of a file with CR LF line ends leaves it:
    the carriage return stays at the end of the last field. *)
Definition exCrDate : Transaction.t Z :=
  Transaction.mk (JS.lit "7") (JS.lit "roses") 5
    TransactionType.INCOME PaymentMethod.CASH
    (JS.lit "2024-03-10T12:00:00.000Z" ++ [JS.CR]).

(** The file that an editor with CR LF line ends makes of a one-row
    export, and a file of blank lines. *)
Definition exCrLfFile : jsstring :=
  exHeaderOnly ++ [JS.CR; JS.LF]
  ++ JS.lit "7,roses,5,INCOME,CASH,2024-03-10T12:00:00.000Z" ++ [JS.CR; JS.LF].

Definition exBlankFile : jsstring := [32; JS.LF; 9; JS.CR; JS.LF]%N.

(** The transaction that the import of [exPaypalFile] stores. *)
Definition exPaypal : Transaction.t Z :=
  Transaction.mk (JS.lit "7") (JS.lit "roses") 5
    TransactionType.INCOME (JS.lit "PAYPAL") (JS.lit "2024-03-10T12:00:00.000Z").

(** The query 124 in Arabic-Indic digits. *)
Definition exArabic124 : jsstring := [1633; 1634; 1636]%N.

(** The query 123 in Arabic-Indic and in Extended Arabic-Indic digits. *)
Definition exArabic123 : jsstring := [1633; 1634; 1635]%N.
Definition exPersian123 : jsstring := [1777; 1778; 1779]%N.

(** The ledger and the debts of the rounding examples, in binary64: ten,
    thirty and twenty hundredths. *)
Definition exDime : Transaction.t float :=
  Transaction.mk (JS.lit "1710072000000") (JS.lit "ribbon") (cents 10)
    TransactionType.INCOME PaymentMethod.CASH (JS.lit "2024-03-10T12:00:00.000Z").

Definition exString : Transaction.t float :=
  Transaction.mk (JS.lit "1710158400000") (JS.lit "string") (cents 30)
    TransactionType.EXPENSE PaymentMethod.CASH (JS.lit "2024-03-11T12:00:00.000Z").

Definition exCard : Transaction.t float :=
  Transaction.mk (JS.lit "1710244800000") (JS.lit "card") (cents 20)
    TransactionType.INCOME PaymentMethod.BANK (JS.lit "2024-03-12T12:00:00.000Z").

Definition exFloatLedger : list (Transaction.t float) := [exDime; exString; exCard].

Definition exFloatDebtA : Debt.t float :=
  Debt.mk (JS.lit "debt-1") (JS.lit "Lina") (JS.lit "ribbon") (cents 10) UNPAID
          (JS.lit "2024-03-01T09:00:00.000Z") None.

Definition exFloatDebtB : Debt.t float :=
  Debt.mk (JS.lit "debt-2") (JS.lit "Omar") (JS.lit "card") (cents 20) UNPAID
          (JS.lit "2024-03-02T09:00:00.000Z") None.

Definition exFloatDebtC : Debt.t float :=
  Debt.mk (JS.lit "debt-3") (JS.lit "Sami") (JS.lit "string") (cents 30) UNPAID
          (JS.lit "2024-03-03T09:00:00.000Z") None.

Definition exFloatDebtState : AppState float :=
  {| transactions := []; debts := [exFloatDebtA; exFloatDebtB; exFloatDebtC];
     searchTerm := []; filterType := JS.lit "all";
     startDate := []; endDate := [];
     groupingMode := daily; activeView := ViewDebts;
     activeAccountView := PaymentMethod.CASH;
     isTransactionModalOpen := false;
     transactionToDelete := None;
     debtToSettle := None; isAccountantMode := false |}.

(** The scenario of the specification with its amounts as binary64
    numbers. *)
Definition exLedger64 : list (Transaction.t float) :=
  [ Transaction.mk (JS.lit "1710072000000") (JS.lit "roses")
      (PrimFloat.of_uint63 100) TransactionType.INCOME PaymentMethod.CASH
      (JS.lit "2024-03-10T12:00:00.000Z");
    Transaction.mk (JS.lit "1710158400000") (JS.lit "vase")
      (PrimFloat.of_uint63 40) TransactionType.EXPENSE PaymentMethod.CASH
      (JS.lit "2024-03-11T12:00:00.000Z");
    Transaction.mk (JS.lit "1710244800000") (JS.lit "wedding 123")
      (PrimFloat.of_uint63 50) TransactionType.INCOME PaymentMethod.BANK
      (JS.lit "2024-03-12T12:00:00.000Z") ].

(** ** The entry forms ([handleTransactionSubmit], [handleDebtSubmit]) *)

(** The comparison of the code on amounts, [<=]. *)
Class NumberOrder (num : Type) := {
  num_leb : num -> num -> bool
}.

#[global] Instance binary64_order : NumberOrder float := {|
  num_leb := PrimFloat.leb
|}.

#[global] Instance integers_order : NumberOrder Z := {|
  num_leb := Z.leb
|}.

(** The three state variables of the transaction form and the four of the
    debt form, with the values that a stored submission resets them to. *)
Module TransactionForm.
Record t := mk {
  description : jsstring;
  amount : jsstring;
  type : jsstring
}.

Definition reset : t := mk [] [] TransactionType.INCOME.
End TransactionForm.

Module DebtForm.
Record t := mk {
  debtClientName : jsstring;
  debtDescription : jsstring;
  debtAmount : jsstring;
  debtNotes : jsstring
}.

Definition reset : t := mk [] [] [] [].
End DebtForm.

(** The two state variables of the dialog that confirms the deletion of a
    debt. *)
Record DebtDialog := {
  isDebtModalOpen : bool;
  debtToDelete : option jsstring
}.

Section Forms.

Context {num : Type} `{Number num} `{NumberOrder num}.

(** [parseFloat] ([None] is NaN). *)
Variable parseFloat : jsstring -> option num.

(** [isNaN(x)] and [x <= 0] on the result of [parseFloat]: a comparison
    with NaN is false. *)
Definition isNaN (x : option num) : bool :=
  match x with Some _ => false | None => true end.

Definition leZero (x : option num) : bool :=
  match x with Some a => num_leb a num_zero | None => false end.

(** [handleTransactionSubmit]: the form and the state after the event, and
    whether the alert was shown.  [nowId] and [nowIso] are the two readings
    of the clock. *)
Definition handleTransactionSubmit (nowId nowIso : jsstring)
    (form : TransactionForm.t) (s : AppState num)
    : TransactionForm.t * AppState num * bool :=
  let numericAmount := parseFloat (TransactionForm.amount form) in
  if negb (JS.truthy (JS.trim (TransactionForm.description form)))
     || isNaN numericAmount || leZero numericAmount
  then (form, s, true)
  else
    match numericAmount with
    | None => (form, s, true)      (* not reached: NaN is rejected above *)
    | Some numericAmount =>
        let newTransaction :=
          Transaction.mk nowId (JS.trim (TransactionForm.description form))
                         numericAmount (TransactionForm.type form)
                         (activeAccountView s) nowIso in
        (TransactionForm.reset,
         setTransactions (fun prev => newTransaction :: prev) s, false)
    end.

(** [handleDebtSubmit].  [nowMs] is the decimal text of
    [new Date().getTime()], which the template literal appends to the
    prefix. *)
Definition handleDebtSubmit (nowMs nowIso : jsstring)
    (form : DebtForm.t) (s : AppState num)
    : DebtForm.t * AppState num * bool :=
  let numericAmount := parseFloat (DebtForm.debtAmount form) in
  if negb (JS.truthy (JS.trim (DebtForm.debtClientName form)))
     || negb (JS.truthy (JS.trim (DebtForm.debtDescription form)))
     || isNaN numericAmount || leZero numericAmount
  then (form, s, true)
  else
    match numericAmount with
    | None => (form, s, true)      (* not reached: NaN is rejected above *)
    | Some numericAmount =>
        let newDebt :=
          Debt.mk (JS.lit "debt-" ++ nowMs)
                  (JS.trim (DebtForm.debtClientName form))
                  (JS.trim (DebtForm.debtDescription form))
                  numericAmount UNPAID nowIso
                  (if JS.truthy (JS.trim (DebtForm.debtNotes form))
                   then Some (JS.trim (DebtForm.debtNotes form)) else None) in
        (DebtForm.reset, setDebts (fun prev => newDebt :: prev) s, false)
    end.

(** An entry as the two forms store it: a description that is not empty
    and has no white space around it, and an amount that is not [<= 0]. *)
Definition formEntry (description : jsstring) (amount : num) : Prop :=
  description ≠ [] ∧ JS.trim description = description
  ∧ num_leb amount num_zero = false.

(** [handleDeleteDebtRequest] and [handleConfirmDebtDelete]. *)
Definition handleDeleteDebtRequest (id : jsstring) (s : AppState num)
    (dialog : DebtDialog) : DebtDialog :=
  if isAccountantMode s then dialog
  else {| isDebtModalOpen := true; debtToDelete := Some id |}.

Definition handleConfirmDebtDelete (dialog : DebtDialog) (s : AppState num)
    : AppState num * DebtDialog :=
  let s1 :=
    match debtToDelete dialog with
    | Some id =>
        if JS.truthy id
        then setDebts (fun prev => filter (fun d => Debt.id d ≠ id) prev) s
        else s
    | None => s
    end in
  (s1, {| isDebtModalOpen := false; debtToDelete := None |}).

End Forms.

(** ** Reports (the [reportData] memo, the three report lists and the
    total of [PrintableReport]) *)

Inductive ReportView := ReportMonth | ReportToday.

Module Report.
Record t (num : Type) := mk {
  income : num;
  expenses : num;
  balance : num
}.

Arguments mk {num} _ _ _.
Arguments income {num} _.
Arguments expenses {num} _.
Arguments balance {num} _.
End Report.

(** [Array.prototype.sort(compareFn)].  The sort is stable, so for a
    consistent comparator its result is the one of this insertion: an
    element is placed before the first element of the sorted rest that it
    does not follow.  A comparator result of NaN counts as zero; with
    dates that do not parse the comparators below are not consistent and
    the order is left to the implementation, so the statements about the
    order assume dates that parse. *)
Fixpoint sortInsert {A : Type} (compareFn : A -> A -> Z) (x : A) (l : list A)
    : list A :=
  match l with
  | [] => [x]
  | y :: l' =>
      if compareFn x y <=? 0 then x :: l else y :: sortInsert compareFn x l'
  end.

Fixpoint Array_sort {A : Type} (compareFn : A -> A -> Z) (l : list A) : list A :=
  match l with
  | [] => []
  | x :: l' => sortInsert compareFn x (Array_sort compareFn l')
  end.

(** [a.getTime() - b.getTime()], zero when one of them is NaN. *)
Definition timeDifference (a b : option Z) : Z :=
  match a, b with
  | Some x, Some y => x - y
  | _, _ => 0
  end.

Section Reports.

Context {num : Type} `{Number num}.

Variable Date_parse : jsstring -> option Z.

(** The time value of a debt whose date parses. *)
Definition debtTime (d : Debt.t num) : Z :=
  match Date_parse (Debt.date d) with Some t => t | None => 0 end.

(** The [unpaidDebts / paidDebts] memo: newest first. *)
Definition newestFirst (a b : Debt.t num) : Z :=
  timeDifference (Date_parse (Debt.date b)) (Date_parse (Debt.date a)).

Definition unpaidDebts (debts : list (Debt.t num)) : list (Debt.t num) :=
  Array_sort newestFirst (filter (fun d => Debt.status d = UNPAID) debts).

Definition paidDebts (debts : list (Debt.t num)) : list (Debt.t num) :=
  Array_sort newestFirst (filter (fun d => Debt.status d = PAID) debts).

(** The [reportData] memo.  [nowIso] is [new Date().toISOString()]. *)
Definition reportData (reportView : ReportView) (selectedMonth nowIso : jsstring)
    (transactions : list (Transaction.t num)) : Report.t num :=
  let sourceData :=
    match reportView with
    | ReportToday =>
        filter (fun t => JS.startsWith (JS.slice0 10 nowIso) (Transaction.date t) = true)
               transactions
    | ReportMonth =>
        filter (fun t => JS.startsWith selectedMonth (Transaction.date t) = true)
               transactions
    end in
  let income :=
    foldl (fun sum t => num_add sum (Transaction.amount t)) num_zero
          (filter (fun t => Transaction.type t = TransactionType.INCOME) sourceData) in
  let expenses :=
    foldl (fun sum t => num_add sum (Transaction.amount t)) num_zero
          (filter (fun t => Transaction.type t = TransactionType.EXPENSE) sourceData) in
  Report.mk income expenses (num_sub income expenses).

(** The time value of a transaction whose date parses. *)
Definition transactionTime (t : Transaction.t num) : Z :=
  match Date_parse (Transaction.date t) with Some x => x | None => 0 end.

(** [filterByDate] of the report lists. *)
Definition filterByDate (reportStartDate reportEndDate : jsstring)
    (t : Transaction.t num) : bool :=
  if negb (JS.truthy reportStartDate) && negb (JS.truthy reportEndDate) then true
  else
    let transactionDate := JS.slice0 10 (Transaction.date t) in
    if JS.truthy reportStartDate && JS.ltb transactionDate reportStartDate then false
    else if JS.truthy reportEndDate && JS.ltb reportEndDate transactionDate then false
    else true.

Definition oldestFirst (a b : Transaction.t num) : Z :=
  timeDifference (Date_parse (Transaction.date a)) (Date_parse (Transaction.date b)).

Definition incomeTransactions (reportStartDate reportEndDate : jsstring)
    (transactions : list (Transaction.t num)) : list (Transaction.t num) :=
  Array_sort oldestFirst
    (filter (fun t => Transaction.type t = TransactionType.INCOME
                      ∧ filterByDate reportStartDate reportEndDate t = true)
            transactions).

Definition expenseTransactions (reportStartDate reportEndDate : jsstring)
    (transactions : list (Transaction.t num)) : list (Transaction.t num) :=
  Array_sort oldestFirst
    (filter (fun t => Transaction.type t = TransactionType.EXPENSE
                      ∧ filterByDate reportStartDate reportEndDate t = true)
            transactions).

Definition bankTransactions (reportStartDate reportEndDate : jsstring)
    (transactions : list (Transaction.t num)) : list (Transaction.t num) :=
  Array_sort oldestFirst
    (filter (fun t => Transaction.paymentMethod t = PaymentMethod.BANK
                      ∧ filterByDate reportStartDate reportEndDate t = true)
            transactions).

(** [l] holds the transactions of [src] in the order of their time values,
    the oldest first, those of one instant in the order of [src]. *)
Definition oldestFirstOf (l src : list (Transaction.t num)) : Prop :=
  l ≡ₚ src
  ∧ StronglySorted (fun a b => transactionTime a <= transactionTime b) l
  ∧ ∀ x, filter (fun t => transactionTime t = x) l
         = filter (fun t => transactionTime t = x) src.

(** The [total] memo of [PrintableReport]. *)
Definition PrintableReport_total (isBankReport : bool)
    (transactions : list (Transaction.t num)) : num :=
  foldl (fun sum t =>
           if isBankReport then
             if decide (Transaction.type t = TransactionType.INCOME)
             then num_add sum (Transaction.amount t)
             else num_sub sum (Transaction.amount t)
           else num_add sum (Transaction.amount t))
        num_zero transactions.

End Reports.

(** ** The stored transactions (the initialiser of the [transactions] state) *)

(** A record as [JSON.parse] returns it: one written before the payment
    method was introduced has no [paymentMethod]. *)
Module StoredTransaction.
Record t (num : Type) := mk {
  id : jsstring;
  description : jsstring;
  amount : num;
  type : jsstring;
  paymentMethod : option jsstring;
  date : jsstring
}.

Arguments mk {num} _ _ _ _ _ _.
Arguments id {num} _.
Arguments description {num} _.
Arguments amount {num} _.
Arguments type {num} _.
Arguments paymentMethod {num} _.
Arguments date {num} _.
End StoredTransaction.

(** The callback of [parsed.map]:
    [{ ...t, paymentMethod: t.paymentMethod || PaymentMethod.CASH }]. *)
Definition migrate {num : Type} (t : StoredTransaction.t num) : Transaction.t num :=
  Transaction.mk (StoredTransaction.id t) (StoredTransaction.description t)
    (StoredTransaction.amount t) (StoredTransaction.type t)
    (match StoredTransaction.paymentMethod t with
     | Some m => if JS.truthy m then m else PaymentMethod.CASH
     | None => PaymentMethod.CASH
     end)
    (StoredTransaction.date t).

(** The initialiser of the state, on the array that [JSON.parse] returns
    (the empty array when nothing is stored). *)
Definition initialTransactions {num : Type} (parsed : list (StoredTransaction.t num))
    : list (Transaction.t num) :=
  migrate <$> parsed.

(** ** The export of [components/ExportButton.tsx] *)

Module ExportButton.

(** The four Arabic column titles and the two words for the type, code
    unit by code unit. *)
Definition headers : list jsstring :=
  [ [1575; 1604; 1608; 1589; 1601];
    [1575; 1604; 1605; 1576; 1604; 1594];
    [1575; 1604; 1606; 1608; 1593];
    [1575; 1604; 1578; 1575; 1585; 1610; 1582] ]%N.

Definition incomeWord : jsstring := [1573; 1610; 1585; 1575; 1583]%N.
Definition expenseWord : jsstring := [1605; 1589; 1585; 1608; 1601]%N.

Section Rows.

Context {num : Type}.

Variable numToString : num -> jsstring.
Variable Date_parse : jsstring -> option Z.

(** [toLocaleString('ar-EG', ...)] of a date. *)
Variable toLocaleString_arEG : option Z -> jsstring.

(** The callback of [transactions.map]; [escapeCSV] is the function of the
    same text as in [App.tsx]. *)
Definition csvRow (t : Transaction.t num) : jsstring :=
  JS.join JS.comma
    [escapeCSV (Transaction.description t);
     numToString (Transaction.amount t);
     (if decide (Transaction.type t = JS.lit "INCOME") then incomeWord else expenseWord);
     escapeCSV (toLocaleString_arEG (Date_parse (Transaction.date t)))].

(** [handleExport]: the text of the blob, [None] when only the alert is
    shown. *)
Definition handleExport (transactions : list (Transaction.t num)) : option jsstring :=
  match transactions with
  | [] => None
  | _ => Some (JS.BOM :: JS.join JS.LF (JS.join JS.comma headers :: (csvRow <$> transactions)))
  end.

End Rows.

End ExportButton.

(** ** The export and import codec on descriptions with double quotes *)

(** [{ ...t, description: d }]. *)
Definition withDescription {num : Type} (d : jsstring) (t : Transaction.t num)
    : Transaction.t num :=
  Transaction.mk (Transaction.id t) d (Transaction.amount t) (Transaction.type t)
                 (Transaction.paymentMethod t) (Transaction.date t).

Section QuotedDescription.

Context {num : Type} `{EqDecision num}.

Variable numToString : num -> jsstring.
Variable parseFloat : jsstring -> option num.

(** A transaction as [roundTrippable] asks, except that its description
    may hold double quotes and carriage returns: only the comma and the
    line feed are excluded from it. *)
Definition exportable (t : Transaction.t num) : Prop :=
  plainField (Transaction.id t)
  ∧ (JS.comma ∉ Transaction.description t)
  ∧ (JS.LF ∉ Transaction.description t)
  ∧ plainField (Transaction.type t)
  ∧ plainField (Transaction.paymentMethod t)
  ∧ plainField (Transaction.date t)
  ∧ Transaction.id t ≠ []
  ∧ Transaction.date t ≠ []
  ∧ Transaction.type t ∈ TransactionType.values
  ∧ plainField (numToString (Transaction.amount t))
  ∧ parseFloat (numToString (Transaction.amount t)) = Some (Transaction.amount t).

#[global] Instance exportable_dec (t : Transaction.t num) : Decision (exportable t).
Proof. unfold exportable, plainField. apply _. Defined.

End QuotedDescription.

(** ** The group headers ([formatDateHeader], [formatWeekHeader]) *)



Section Headers.

Variable LocalTZA : Z.

Variable Date_parse : jsstring -> option Z.

(** The Arabic formatting of a date by [Intl.DateTimeFormat] and by
    [toLocaleDateString], with the day and the month; the two flags say
    whether the options ask for the weekday and for the year. *)
Variable format_arEG : bool -> bool -> option Z -> jsstring.




End Headers.


(** ** The search on ASCII text *)

(** A text of ASCII code units, and what the search needs of
    [String.prototype.toLowerCase] on such texts: the built-in lowers the
    capitals A to Z and keeps every other ASCII code unit, which is
    [toLowerCase_ascii]. *)
Definition asciiText (s : jsstring) : Prop := Forall (fun c => (c < 128)%N) s.

Definition lowersAscii (toLowerCase : jsstring -> jsstring) : Prop :=
  ∀ s, asciiText s -> toLowerCase s = toLowerCase_ascii s.

(** ** Example data for the forms, the codec and the headers *)

Definition exForm : TransactionForm.t :=
  TransactionForm.mk (JS.lit "  tulips ") (JS.lit "25") TransactionType.EXPENSE.

Definition exDebtForm : DebtForm.t :=
  DebtForm.mk (JS.lit " Nora ") (JS.lit "garland") (JS.lit "45") (JS.lit "  ").

Definition exDialog : DebtDialog :=
  {| isDebtModalOpen := false; debtToDelete := None |}.

(** A transaction whose description holds two double quotes. *)
Definition exQuoted : Transaction.t Z :=
  Transaction.mk (JS.lit "8")
    (JS.lit "say " ++ [JS.dquote] ++ JS.lit "hi" ++ [JS.dquote]) 5
    TransactionType.INCOME PaymentMethod.CASH (JS.lit "2024-03-10T12:00:00.000Z").


(** The state of the debts example, opened in accountant mode. *)
Definition exAccountantState : AppState Z :=
  {| transactions := exLedger; debts := [exDebtA; exDebtB; exDebtC];
     searchTerm := []; filterType := JS.lit "all";
     startDate := []; endDate := [];
     groupingMode := daily; activeView := ViewDebts;
     activeAccountView := PaymentMethod.CASH;
     isTransactionModalOpen := false;
     transactionToDelete := None;
     debtToSettle := None; isAccountantMode := true |}.

(** * Properties *)

(** ** Balances *)

Lemma INCOME_ne_EXPENSE : TransactionType.INCOME ≠ TransactionType.EXPENSE.
Proof. discriminate. Qed.

Lemma CASH_ne_BANK : PaymentMethod.CASH ≠ PaymentMethod.BANK.
Proof. discriminate. Qed.

Lemma withMethod_cons {num : Type} m (t : Transaction.t num) ts :
  withMethod m (t :: ts) =
  if decide (Transaction.paymentMethod t = m) then t :: withMethod m ts
  else withMethod m ts.
Proof. unfold withMethod. rewrite filter_cons. reflexivity. Qed.

Lemma amountsOf_cons {num : Type} cash income (t : Transaction.t num) ts :
  amountsOf cash income (t :: ts) =
  if decide (bool_decide (Transaction.paymentMethod t = PaymentMethod.CASH) = cash
             ∧ bool_decide (Transaction.type t = TransactionType.INCOME) = income)
  then Transaction.amount t :: amountsOf cash income ts
  else amountsOf cash income ts.
Proof.
  unfold amountsOf. rewrite filter_cons. case_decide; reflexivity.
Qed.

(** The loop invariant of [forEach] in any arithmetic: each of the four
    accumulators is the left-to-right sum of the amounts of its account and
    direction. *)
Lemma balance_fold_sums {num : Type} `{Number num}
    (acc : BalanceAcc num) (ts : list (Transaction.t num)) :
  let r := foldl balanceStep acc ts in
  cashInc r = sumLeft (cashInc acc) (amountsOf true true ts)
  ∧ cashExp r = sumLeft (cashExp acc) (amountsOf true false ts)
  ∧ bankInc r = sumLeft (bankInc acc) (amountsOf false true ts)
  ∧ bankExp r = sumLeft (bankExp acc) (amountsOf false false ts).
Proof.
  revert acc. induction ts as [|t ts IH]; intros acc; [done|].
  cbn [foldl]. destruct (IH (balanceStep acc t)) as (H1 & H2 & H3 & H4).
  cbv zeta. rewrite H1, H2, H3, H4, !amountsOf_cons. clear.
  unfold balanceStep.
  destruct (decide (Transaction.paymentMethod t = PaymentMethod.CASH)) as [Ec|Ec];
    destruct (decide (Transaction.type t = TransactionType.INCOME)) as [Ei|Ei];
    rewrite ?(bool_decide_eq_true_2 _ Ec), ?(bool_decide_eq_false_2 _ Ec),
            ?(bool_decide_eq_true_2 _ Ei), ?(bool_decide_eq_false_2 _ Ei);
    repeat case_decide; try (exfalso; intuition congruence);
    cbn [cashInc cashExp bankInc bankExp sumLeft foldl]; done.
Qed.

(** The loop invariant in exact arithmetic, against the signed sums. *)
Lemma balance_fold (acc : BalanceAcc Z) (ts : list (Transaction.t Z)) :
  Forall Transaction.wellTyped ts ->
  let r := foldl balanceStep acc ts in
  cashInc r - cashExp r
    = cashInc acc - cashExp acc + sumSigned (withMethod PaymentMethod.CASH ts)
  ∧ bankInc r - bankExp r
    = bankInc acc - bankExp acc + sumSigned (withMethod PaymentMethod.BANK ts)
  ∧ (cashInc r + bankInc r) - (cashExp r + bankExp r)
    = (cashInc acc + bankInc acc) - (cashExp acc + bankExp acc) + sumSigned ts.
Proof.
  intros Hwt. revert acc.
  induction Hwt as [|t ts [Hty Hpm] _ IH]; intros acc; simpl.
  - lia.
  - destruct (IH (balanceStep acc t)) as (Hc & Hb & Ht).
    rewrite Hc, Hb, Ht, !withMethod_cons. clear IH Hc Hb Ht.
    unfold TransactionType.values, PaymentMethod.values in *.
    pose proof INCOME_ne_EXPENSE. pose proof CASH_ne_BANK.
    assert (Hs : signedAmount t =
                 if decide (Transaction.type t = TransactionType.INCOME)
                 then Transaction.amount t else - Transaction.amount t).
    { unfold signedAmount. repeat case_decide; try reflexivity.
      set_unfold. exfalso. intuition congruence. }
    cbn [sumSigned]. rewrite Hs. unfold balanceStep.
    set_unfold.
    repeat case_decide;
      cbn [cashInc cashExp bankInc bankExp sumSigned num_add integers];
      try (rewrite Hs); repeat split; try lia; exfalso; intuition congruence.
Qed.

(** The loop invariant in exact arithmetic for every list, against the
    amounts with the sign that the loop gives them. *)
Lemma balance_fold_counted (acc : BalanceAcc Z) (ts : list (Transaction.t Z)) :
  let r := foldl balanceStep acc ts in
  cashInc r - cashExp r
    = cashInc acc - cashExp acc + sumCounted (withMethod PaymentMethod.CASH ts)
  ∧ bankInc r - bankExp r
    = bankInc acc - bankExp acc
      + sumCounted (filter (fun t => Transaction.paymentMethod t ≠ PaymentMethod.CASH) ts)
  ∧ (cashInc r + bankInc r) - (cashExp r + bankExp r)
    = (cashInc acc + bankInc acc) - (cashExp acc + bankExp acc) + sumCounted ts.
Proof.
  revert acc. induction ts as [|t ts IH]; intros acc; cbn [foldl].
  - cbn. lia.
  - destruct (IH (balanceStep acc t)) as (Hc & Hb & Ht). cbv zeta in Hc, Hb, Ht.
    cbv zeta. rewrite Hc, Hb, Ht, withMethod_cons, (filter_cons _ t).
    clear IH Hc Hb Ht. unfold balanceStep.
    destruct (decide (Transaction.paymentMethod t = PaymentMethod.CASH)) as [Ec|Ec].
    + rewrite (decide_False (P := Transaction.paymentMethod t ≠ PaymentMethod.CASH))
        by (intros Hn; exact (Hn Ec)).
      cbn [sumCounted]. unfold countedAmount.
      destruct (decide (Transaction.type t = TransactionType.INCOME));
        cbn [cashInc cashExp bankInc bankExp num_add integers]; lia.
    + rewrite (decide_True (P := Transaction.paymentMethod t ≠ PaymentMethod.CASH))
        by exact Ec.
      cbn [sumCounted]. unfold countedAmount.
      destruct (decide (Transaction.type t = TransactionType.INCOME));
        cbn [cashInc cashExp bankInc bankExp num_add integers]; lia.
Qed.

(** C1, as amended.  In any arithmetic, binary64 included, and for every
    list: [cashBalance] is the sum of the cash incomes minus the sum of the
    cash expenses, [bankBalance] the same for the other account, and
    [totalBalance] is the cash and bank incomes together minus the cash and
    bank expenses together, each sum taken from left to right; cash is the
    payment method CASH and bank every other one, an income is the type
    INCOME and an expense every other one.  In exact arithmetic and for
    every list: [totalBalance = cashBalance + bankBalance], and the three
    balances are the sums of the amounts so signed (INCOME positive, every
    other type negative) over the CASH transactions, over all the others,
    and over all transactions.  In exact arithmetic and for the lists with
    a [type] and a [paymentMethod] of their enumerations, these are the
    sums of the claim: [cashBalance] is the sum of the signed amounts
    (income positive, expense negative) over the CASH transactions,
    [bankBalance] the same sum over the BANK transactions,
    [totalBalance = cashBalance + bankBalance], and [totalBalance] is the
    sum of the signed amounts over all transactions.  In binary64 the
    identity [totalBalance = cashBalance + bankBalance] does not hold for
    every list: for a list of three transactions of the enumerations the
    two numbers differ. *)
Theorem balance_consistency :
  (∀ (num : Type) (N : Number num) (ts : list (Transaction.t num)),
     cashBalance ts
     = num_sub (sumLeft num_zero (amountsOf true true ts))
               (sumLeft num_zero (amountsOf true false ts))
     ∧ bankBalance ts
       = num_sub (sumLeft num_zero (amountsOf false true ts))
                 (sumLeft num_zero (amountsOf false false ts))
     ∧ totalBalance ts
       = num_sub (num_add (sumLeft num_zero (amountsOf true true ts))
                          (sumLeft num_zero (amountsOf false true ts)))
                 (num_add (sumLeft num_zero (amountsOf true false ts))
                          (sumLeft num_zero (amountsOf false false ts))))
  ∧ (∀ ts : list (Transaction.t Z),
       totalBalance ts = cashBalance ts + bankBalance ts
       ∧ cashBalance ts = sumCounted (withMethod PaymentMethod.CASH ts)
       ∧ bankBalance ts
         = sumCounted
             (filter (fun t => Transaction.paymentMethod t ≠ PaymentMethod.CASH) ts)
       ∧ totalBalance ts = sumCounted ts)
  ∧ (∀ ts : list (Transaction.t Z),
       Forall Transaction.wellTyped ts ->
       cashBalance ts = sumSigned (withMethod PaymentMethod.CASH ts)
       ∧ bankBalance ts = sumSigned (withMethod PaymentMethod.BANK ts)
       ∧ totalBalance ts = cashBalance ts + bankBalance ts
       ∧ totalBalance ts = sumSigned ts)
  ∧ (∃ ts : list (Transaction.t float),
       Forall Transaction.wellTyped ts
       ∧ length ts = 3%nat
       ∧ num_add (cashBalance ts) (bankBalance ts) ≠ totalBalance ts).
Proof.
  split; [|split; [|split]].
  - intros num N ts.
    destruct (balance_fold_sums
                {| cashInc := num_zero; cashExp := num_zero;
                   bankInc := num_zero; bankExp := num_zero |} ts)
      as (H1 & H2 & H3 & H4).
    unfold cashBalance, bankBalance, totalBalance, balanceAcc.
    cbv zeta in *. cbn [cashInc cashExp bankInc bankExp] in *.
    rewrite H1, H2, H3, H4. done.
  - intros ts.
    destruct (balance_fold_counted
                {| cashInc := 0; cashExp := 0; bankInc := 0; bankExp := 0 |} ts)
      as (Hc & Hb & Ht).
    unfold cashBalance, bankBalance, totalBalance, balanceAcc.
    cbn [num_zero num_add num_sub integers cashInc cashExp bankInc bankExp] in *.
    repeat split; lia.
  - intros ts Hwt.
    destruct (balance_fold
                {| cashInc := 0; cashExp := 0; bankInc := 0; bankExp := 0 |}
                ts Hwt) as (Hc & Hb & Ht).
    unfold cashBalance, bankBalance, totalBalance, balanceAcc.
    cbn [num_zero num_add num_sub integers cashInc cashExp bankInc bankExp] in *.
    repeat split; lia.
  - exists exFloatLedger.
    split; [apply (bool_decide_eq_true_1 _); vm_compute; reflexivity|].
    split; [reflexivity|].
    intros E.
    apply (f_equal (fun x => PrimFloat.eqb x (totalBalance exFloatLedger))) in E.
    vm_compute in E. discriminate.
Qed.

(** The scenario of the specification, and the store that the import of a
    row with an unknown payment method leaves: its one transaction counts
    in the bank balance, and the total is still the cash and the bank balance
    together. *)
Lemma balance_consistency_witness :
  Forall Transaction.wellTyped exLedger
  ∧ cashBalance exLedger = 60 ∧ bankBalance exLedger = 50
  ∧ totalBalance exLedger = 110
  ∧ sumSigned exLedger = 110
  ∧ ¬ Transaction.wellTyped exPaypal
  ∧ cashBalance [exPaypal] = 0 ∧ bankBalance [exPaypal] = 5
  ∧ totalBalance [exPaypal] = cashBalance [exPaypal] + bankBalance [exPaypal]
  ∧ sumCounted
      (filter (fun t => Transaction.paymentMethod t ≠ PaymentMethod.CASH) [exPaypal])
    = 5.
Proof.
  assert (Hwt : Forall Transaction.wellTyped exLedger)
    by (apply (bool_decide_eq_true_1 _); vm_compute; reflexivity).
  destruct balance_consistency as (_ & Hall & Hexact & _).
  pose proof (Hexact exLedger Hwt) as (_ & _ & _ & Ht).
  pose proof (Hall [exPaypal]) as (Hsum & _ & Hbank & _).
  split; [exact Hwt|].
  split; [reflexivity|]. split; [reflexivity|]. split; [reflexivity|].
  split; [rewrite <- Ht; reflexivity|].
  split; [apply (bool_decide_eq_false_1 _); vm_compute; reflexivity|].
  split; [reflexivity|]. split; [reflexivity|].
  split; [exact Hsum|].
  rewrite <- Hbank. reflexivity.
Defined.

(** C1 as stated fails in the arithmetic of the code.  The ledger has a
    cash income of 0.10, a cash expense of 0.30 and a bank income of 0.20:
    [cashBalance + bankBalance] is (0.1 - 0.3) + 0.2 and [totalBalance] is
    (0.1 + 0.2) - (0.3 + 0), and binary64 rounds the two differently, to
    2.78e-17 and to 5.55e-17. *)
Lemma balance_identity_fails_in_binary64 :
  Forall Transaction.wellTyped exFloatLedger
  ∧ PrimFloat.eqb (num_add (cashBalance exFloatLedger) (bankBalance exFloatLedger))
                  (totalBalance exFloatLedger) = false
  ∧ PrimFloat.ltb (num_add (cashBalance exFloatLedger) (bankBalance exFloatLedger))
                  (totalBalance exFloatLedger) = true
  ∧ num_add (cashBalance exFloatLedger) (bankBalance exFloatLedger)
    ≠ totalBalance exFloatLedger.
Proof.
  split; [apply (bool_decide_eq_true_1 _); vm_compute; reflexivity|].
  split; [vm_compute; reflexivity|]. split; [vm_compute; reflexivity|].
  intros E.
  apply (f_equal (fun x => PrimFloat.eqb x (totalBalance exFloatLedger))) in E.
  vm_compute in E. discriminate.
Qed.

(** ** Temporal grouping *)

(** Permuting the entries of a dictionary permutes the concatenation of
    its buckets. *)
Lemma concat_values_perm {K A} (l1 l2 : list (K * list A)) :
  l1 ≡ₚ l2 -> concat (l1.*2) ≡ₚ concat (l2.*2).
Proof.
  induction 1 as [|x l1 l2 _ IH|x y l|l1 l2 l3 _ IH1 _ IH2]; simpl.
  - reflexivity.
  - apply Permutation_app_head, IH.
  - rewrite !app_assoc. apply Permutation_app_tail, Permutation_app_comm.
  - etransitivity; eassumption.
Qed.

Section GroupingFacts.

Context {num : Type}.

Variable LocalTZA : Z.
Variable Date_parse : jsstring -> option Z.
Variable mode : GroupingMode.

Let key := groupKey (num:=num) LocalTZA Date_parse mode.
Let group := groupTransactions (num:=num) LocalTZA Date_parse mode.

(** The transactions of a list that carry a given key, in their order. *)
Let withKey (k : jsstring) (ts : list (Transaction.t num)) : list (Transaction.t num) :=
  filter (fun t => key t = k) ts.

Lemma group_snoc ts t :
  group (ts ++ [t]) = groupStep LocalTZA Date_parse mode (group ts) t.
Proof. unfold group, groupTransactions. apply foldl_snoc. Qed.

(** What a bucket holds: a key is present exactly when some transaction
    carries it, and its bucket lists those transactions in input order. *)
Lemma group_lookup ts k :
  group ts !! k = match withKey k ts with [] => None | l => Some l end.
Proof.
  induction ts as [|t ts IH] using rev_ind.
  - reflexivity.
  - rewrite group_snoc. unfold groupStep. fold key.
    unfold withKey in *. rewrite filter_app, filter_cons, filter_nil.
    destruct (decide (key t = k)) as [->|Hne].
    + rewrite lookup_insert_eq, IH.
      destruct (filter _ ts); reflexivity.
    + rewrite lookup_insert_ne by done. rewrite IH, app_nil_r. reflexivity.
Qed.

(** Laying the buckets end to end gives the input back, up to order. *)
Lemma group_concat ts :
  concat ((map_to_list (group ts)).*2) ≡ₚ ts.
Proof.
  induction ts as [|t ts IH] using rev_ind.
  - unfold group, groupTransactions. simpl. rewrite map_to_list_empty. reflexivity.
  - rewrite group_snoc. unfold groupStep. fold key.
    destruct (group ts !! key t) as [b|] eqn:Hb.
    + pose proof (map_to_list_insert (delete (key t) (group ts)) (key t)
                    (b ++ [t]) (lookup_delete_eq _ _)) as Hnew.
      rewrite insert_delete_eq in Hnew.
      pose proof (map_to_list_delete _ _ _ Hb) as Hold.
      apply concat_values_perm in Hnew, Hold.
      etransitivity; [exact Hnew|].
      etransitivity; [|apply Permutation_app_tail; etransitivity; [exact Hold|exact IH]].
      rewrite !fmap_cons, !concat_cons. simpl.
      rewrite <- !app_assoc.
      apply Permutation_app_head, Permutation_app_comm.
    + pose proof (map_to_list_insert (group ts) (key t) [t] Hb) as Hnew.
      apply concat_values_perm in Hnew.
      etransitivity; [exact Hnew|].
      rewrite fmap_cons, concat_cons. simpl.
      etransitivity; [|apply Permutation_cons_append].
      constructor. exact IH.
Qed.

(** C2.  For every transaction list and either grouping mode the buckets
    partition the input: every input transaction lies in the bucket of its
    own key; a bucket that holds a transaction is the bucket of that
    transaction's key, so no transaction lies in two buckets; every bucket
    is the non-empty list of the input transactions of its key, in input
    order; and the buckets laid end to end are a permutation of the input,
    so nothing is dropped or duplicated. *)
Theorem grouping_partitions_input (ts : list (Transaction.t num)) :
  (∀ t, t ∈ ts ->
     ∃ l, groupTransactions LocalTZA Date_parse mode ts
            !! groupKey LocalTZA Date_parse mode t = Some l ∧ t ∈ l)
  ∧ (∀ k l t, groupTransactions LocalTZA Date_parse mode ts !! k = Some l ->
       t ∈ l -> k = groupKey LocalTZA Date_parse mode t)
  ∧ (∀ k l, groupTransactions LocalTZA Date_parse mode ts !! k = Some l ->
       l ≠ [] ∧ l = filter (fun t => groupKey LocalTZA Date_parse mode t = k) ts)
  ∧ concat ((map_to_list (groupTransactions LocalTZA Date_parse mode ts)).*2) ≡ₚ ts.
Proof.
  fold group key.
  assert (Hb : ∀ k l, group ts !! k = Some l -> l ≠ [] ∧ l = withKey k ts).
  { intros k l. rewrite group_lookup.
    destruct (withKey k ts) eqn:E; [discriminate|].
    intros [= <-]. split; [discriminate | reflexivity]. }
  split; [|split; [|split]].
  - intros t Ht. exists (withKey (key t) ts).
    assert (Hin : t ∈ withKey (key t) ts)
      by (unfold withKey; apply list_elem_of_filter; done).
    split; [|exact Hin].
    rewrite group_lookup. destruct (withKey (key t) ts); [inversion Hin | done].
  - intros k l t Hl Ht. apply Hb in Hl as [_ ->].
    unfold withKey in Ht. apply list_elem_of_filter in Ht as [Hk _]. done.
  - exact Hb.
  - apply group_concat.
Qed.

End GroupingFacts.

(** The same for the memo of the state: its buckets hold the filtered
    transactions, each once. *)
Lemma groupedTransactions_concat {num : Type} (LocalTZA : Z)
    (Date_parse : jsstring -> option Z) (toLowerCase : jsstring -> jsstring)
    (s : AppState num) :
  concat ((map_to_list (groupedTransactions LocalTZA Date_parse toLowerCase s)).*2)
  ≡ₚ filteredTransactions toLowerCase s.
Proof. unfold groupedTransactions. apply group_concat. Qed.

(** A key is the text of the invalid date or holds a hyphen, so it is none
    of the names that a plain object inherits, and the reducer always finds
    either no bucket or a bucket it made itself. *)
Lemma groupKey_shape {num : Type} (LocalTZA : Z)
    (Date_parse : jsstring -> option Z) (mode : GroupingMode)
    (t : Transaction.t num) :
  groupKey LocalTZA Date_parse mode t = JS.lit "Invalid Date"
  ∨ 45%N ∈ groupKey LocalTZA Date_parse mode t.
Proof.
  unfold groupKey.
  assert (H : ∀ d, toLocaleDateString_enCA LocalTZA d = JS.lit "Invalid Date"
                   ∨ 45%N ∈ toLocaleDateString_enCA LocalTZA d).
  { intros [tv|]; [right|left; reflexivity].
    unfold toLocaleDateString_enCA. rewrite elem_of_app, elem_of_cons. auto. }
  destruct mode; apply H.
Qed.

(** ** The calendar functions *)

Lemma DaysInYear_step y :
  JSDate.DayFromYear (y + 1) - JSDate.DayFromYear y = JSDate.DaysInYear y.
Proof.
  unfold JSDate.DayFromYear, JSDate.DaysInYear.
  repeat match goal with
         | |- context [if negb (?a =? ?b) then _ else _] =>
             destruct (Z.eqb_spec a b); cbn [negb]
         end; Z.div_mod_to_equations; lia.
Qed.

(** [YearFromTime] meets its specification: it is the year whose first day
    is the last one not after the day of [t]. *)
Lemma YearFromTime_spec t :
  JSDate.DayFromYear (JSDate.YearFromTime t) <= JSDate.Day t
  < JSDate.DayFromYear (JSDate.YearFromTime t + 1).
Proof.
  unfold JSDate.YearFromTime. generalize (JSDate.Day t). intros d.
  set (y := 1970 + 400 * d / 146097).
  assert (H1 : JSDate.DayFromYear (y - 1) <= d)
    by (subst y; unfold JSDate.DayFromYear; Z.div_mod_to_equations; lia).
  assert (H2 : d < JSDate.DayFromYear (y + 2))
    by (subst y; unfold JSDate.DayFromYear; Z.div_mod_to_equations; lia).
  cbv zeta.
  destruct (Z.ltb_spec d (JSDate.DayFromYear y)).
  - replace (y - 1 + 1) with y by lia. lia.
  - destruct (Z.leb_spec (JSDate.DayFromYear (y + 1)) d).
    + replace (y + 1 + 1) with (y + 2) by lia. lia.
    + lia.
Qed.

Lemma DayWithinYear_range t :
  0 <= JSDate.DayWithinYear t < JSDate.DaysInYear (JSDate.YearFromTime t).
Proof.
  unfold JSDate.DayWithinYear. rewrite <- DaysInYear_step.
  pose proof (YearFromTime_spec t). lia.
Qed.

(** The day of the month lies between 1 and 31. *)
Lemma DateFromTime_range t : 1 <= JSDate.DateFromTime t <= 31.
Proof.
  pose proof (DayWithinYear_range t) as Hd.
  unfold JSDate.DateFromTime, JSDate.MonthFromTime, JSDate.InLeapYear in *.
  revert Hd. generalize (JSDate.DayWithinYear t). intros d.
  assert (Hy : JSDate.DaysInYear (JSDate.YearFromTime t) = 365
               ∨ JSDate.DaysInYear (JSDate.YearFromTime t) = 366).
  { unfold JSDate.DaysInYear.
    repeat match goal with |- context [if ?b then _ else _] => destruct b end;
      auto. }
  destruct Hy as [-> | ->]; intros Hd;
    [change (365 =? 366) with false | change (366 =? 366) with true];
    cbv iota;
    repeat match goal with
           | |- context [if ?a <? ?b then _ else _] =>
               destruct (Z.ltb_spec a b)
           end; cbn; lia.
Qed.

(** ** The start of the week *)

Lemma MonthFromTime_range t : 0 <= JSDate.MonthFromTime t <= 11.
Proof.
  unfold JSDate.MonthFromTime.
  repeat match goal with |- context [if ?b then _ else _] => destruct b end; lia.
Qed.

Lemma Day_MakeDate day time :
  0 <= time < JSDate.msPerDay -> JSDate.Day (JSDate.MakeDate day time) = day.
Proof.
  unfold JSDate.Day, JSDate.MakeDate, JSDate.msPerDay. intros H.
  rewrite Z.add_comm, Z.div_add by lia. rewrite Z.div_small by lia. lia.
Qed.

Lemma TimeWithinDay_MakeDate day time :
  0 <= time < JSDate.msPerDay ->
  JSDate.TimeWithinDay (JSDate.MakeDate day time) = time.
Proof.
  unfold JSDate.TimeWithinDay, JSDate.MakeDate, JSDate.msPerDay. intros H.
  rewrite Z.add_comm, Z.mod_add by lia. apply Z.mod_small. lia.
Qed.

(** [setDate] moves within the calendar by whole days: setting the day of
    the month to [DateFromTime t + k] lands [k] days from [t]. *)
Lemma MakeDay_shift t k :
  JSDate.MakeDay (JSDate.YearFromTime t) (JSDate.MonthFromTime t)
                 (JSDate.DateFromTime t + k)
  = JSDate.Day t + k.
Proof.
  pose proof (MonthFromTime_range t) as Hm.
  unfold JSDate.MakeDay, JSDate.DateFromTime, JSDate.DayWithinYear, JSDate.InLeapYear.
  rewrite Z.div_small, Z.mod_small by lia.
  rewrite Z.add_0_r. lia.
Qed.

Lemma LocalTime_UTC tza t : JSDate.LocalTime tza (JSDate.UTC tza t) = t.
Proof. unfold JSDate.LocalTime, JSDate.UTC. lia. Qed.

Lemma WeekDay_range t : 0 <= JSDate.WeekDay t < 7.
Proof. unfold JSDate.WeekDay. apply Z.mod_pos_bound. lia. Qed.

(** The code's offset and the specification's agree. *)
Lemma weekStart_offset t :
  let w := JSDate.WeekDay t in
  JSDate.Day t + (- w + (if w =? 0 then -6 else 1)) = weekStartDay t.
Proof.
  pose proof (WeekDay_range t) as Hw. unfold weekStartDay, isoWeekday. simpl.
  destruct (JSDate.WeekDay t =? 0) eqn:E.
  - apply Z.eqb_eq in E. rewrite E. reflexivity.
  - apply Z.eqb_neq in E. rewrite Z.mod_small by lia. lia.
Qed.

(** [getStartOfWeek] on a valid date, in closed form. *)
Lemma getStartOfWeek_closed tza tv :
  JSDate.getStartOfWeek tza (Some tv)
  = Some (JSDate.UTC tza
            (JSDate.MakeDate (weekStartDay (JSDate.LocalTime tza tv)) 0)).
Proof.
  unfold JSDate.getStartOfWeek, JSDate.setHours0, JSDate.getDay, JSDate.getDate,
    JSDate.setDate. simpl.
  rewrite !LocalTime_UTC.
  set (t := JSDate.LocalTime tza tv).
  set (m := JSDate.MakeDate (JSDate.Day t) (JSDate.MakeTime 0 0 0 0)).
  assert (Hd : JSDate.Day m = JSDate.Day t)
    by (apply Day_MakeDate; unfold JSDate.msPerDay, JSDate.MakeTime; lia).
  assert (Hw : JSDate.WeekDay m = JSDate.WeekDay t)
    by (unfold JSDate.WeekDay; rewrite Hd; reflexivity).
  assert (Ht : JSDate.TimeWithinDay m = 0)
    by (apply (TimeWithinDay_MakeDate _ 0); unfold JSDate.msPerDay; lia).
  rewrite Hw, Ht.
  replace (JSDate.DateFromTime m - JSDate.WeekDay t
           + (if JSDate.WeekDay t =? 0 then -6 else 1))
    with (JSDate.DateFromTime m
          + (- JSDate.WeekDay t + (if JSDate.WeekDay t =? 0 then -6 else 1)))
    by lia.
  rewrite MakeDay_shift, Hd, weekStart_offset. reflexivity.
Qed.

(** C8.  For every date the weekly grouping key is the Monday-anchored
    start of the date's calendar week: [getStartOfWeek] returns local
    midnight of the day [date - ((weekday - 1) mod 7)], Sunday counted as
    weekday 7; that day is a Monday within the six days up to the date, a
    Sunday maps to the Monday six days before and a Monday to itself; and
    the weekly key of a transaction is the text of that day (of an invalid
    date, the text of the invalid date). *)
Theorem weekly_key_is_monday_start {num : Type} (LocalTZA : Z)
    (Date_parse : jsstring -> option Z) (tv : Z) (x : Transaction.t num) :
  let t := JSDate.LocalTime LocalTZA tv in
  let monday := weekStartDay t in
  JSDate.getStartOfWeek LocalTZA (Some tv)
    = Some (JSDate.UTC LocalTZA (JSDate.MakeDate monday 0))
  ∧ JSDate.WeekDay (JSDate.MakeDate monday 0) = 1
  ∧ JSDate.Day t - 6 <= monday <= JSDate.Day t
  ∧ (JSDate.WeekDay t = 0 -> monday = JSDate.Day t - 6)
  ∧ (JSDate.WeekDay t = 1 -> monday = JSDate.Day t)
  ∧ groupKey LocalTZA Date_parse weekly x
    = toLocaleDateString_enCA LocalTZA
        (tv' ← Date_parse (Transaction.date x);
         Some (JSDate.UTC LocalTZA
                 (JSDate.MakeDate
                    (weekStartDay (JSDate.LocalTime LocalTZA tv')) 0))).
Proof.
  intros t monday.
  pose proof (WeekDay_range t) as Hw.
  assert (Hoff : monday = JSDate.Day t + (- JSDate.WeekDay t
                   + (if JSDate.WeekDay t =? 0 then -6 else 1)))
    by (symmetry; apply weekStart_offset).
  split; [apply getStartOfWeek_closed|].
  split.
  { unfold JSDate.WeekDay in *.
    rewrite Day_MakeDate by (unfold JSDate.msPerDay; lia).
    rewrite Hoff. generalize (JSDate.Day t). intros d.
    destruct (Z.eqb_spec ((d + 4) mod 7) 0) as [E|E].
    - clear -E. Z.div_mod_to_equations. lia. 
    - clear -E. Z.div_mod_to_equations. lia. }
  split.
  { rewrite Hoff. clear Hoff. destruct (Z.eqb_spec (JSDate.WeekDay t) 0); lia. }
  split; [intros E; rewrite Hoff, E; reflexivity|].
  split; [intros E; rewrite Hoff, E; change (1 =? 0) with false; cbv iota; lia|].
  unfold groupKey. destruct (Date_parse (Transaction.date x)) as [tv'|].
  - rewrite getStartOfWeek_closed. reflexivity.
  - reflexivity.
Qed.

(** ** Numeral normalisation and search *)

(** A digit of any of the three scripts is replaced by the ASCII digit of
    its value. *)
Lemma replaceNumeral_digit c v :
  digitValue c = Some v -> replaceNumeral c = [(48 + v)%N].
Proof.
  unfold digitValue.
  destruct ((48 <=? c) && (c <=? 57))%N eqn:E1.
  { intros [= <-]. apply andb_true_iff in E1 as [H1 H2].
    apply N.leb_le in H1, H2.
    unfold replaceNumeral, arabicPersianNumerals.
    assert ((1632 <=? c) = false)%N as -> by (apply N.leb_gt; lia).
    assert ((1776 <=? c) = false)%N as -> by (apply N.leb_gt; lia).
    simpl. f_equal. lia. }
  destruct ((1632 <=? c) && (c <=? 1641))%N eqn:E2.
  { intros [= <-]. apply andb_true_iff in E2 as [H1 H2].
    apply N.leb_le in H1, H2.
    assert (Hc : (c = 1632 ∨ c = 1633 ∨ c = 1634 ∨ c = 1635 ∨ c = 1636 ∨
                  c = 1637 ∨ c = 1638 ∨ c = 1639 ∨ c = 1640 ∨ c = 1641)%N)
      by lia.
    repeat destruct Hc as [-> | Hc]; try subst c; reflexivity. }
  destruct ((1776 <=? c) && (c <=? 1785))%N eqn:E3; [|discriminate].
  intros [= <-]. apply andb_true_iff in E3 as [H1 H2].
  apply N.leb_le in H1, H2.
  assert (Hc : (c = 1776 ∨ c = 1777 ∨ c = 1778 ∨ c = 1779 ∨ c = 1780 ∨
                c = 1781 ∨ c = 1782 ∨ c = 1783 ∨ c = 1784 ∨ c = 1785)%N)
    by lia.
  repeat destruct Hc as [-> | Hc]; try subst c; reflexivity.
Qed.

Lemma replaceNumeral_sameDigit x y :
  sameDigit x y -> replaceNumeral x = replaceNumeral y.
Proof.
  intros [-> | (v & Hx & Hy)]; [reflexivity|].
  rewrite (replaceNumeral_digit _ _ Hx), (replaceNumeral_digit _ _ Hy).
  reflexivity.
Qed.

(** Texts that differ only in the script of their digits normalise to the
    same text. *)
Lemma convert_sameUpToDigitScript a b :
  sameUpToDigitScript a b ->
  convertToEnglishNumerals a = convertToEnglishNumerals b.
Proof.
  unfold convertToEnglishNumerals.
  induction 1 as [|x y a b Hxy _ IH]; [reflexivity|].
  cbn [mbind list_bind]. rewrite (replaceNumeral_sameDigit _ _ Hxy).
  f_equal. exact IH.
Qed.

Lemma startsWith_app p s : JS.startsWith p (p ++ s) = true.
Proof.
  induction p as [|c p IH]; [reflexivity|]. simpl.
  rewrite bool_decide_eq_true_2 by done. exact IH.
Qed.

Lemma includes_infix p a b : JS.includes p (a ++ p ++ b) = true.
Proof.
  induction a as [|c a IH]; simpl.
  - destruct (p ++ b) eqn:E; simpl; rewrite <- E, startsWith_app; reflexivity.
  - rewrite IH. apply orb_true_r.
Qed.

Lemma convert_app a b :
  convertToEnglishNumerals (a ++ b)
  = convertToEnglishNumerals a ++ convertToEnglishNumerals b.
Proof. unfold convertToEnglishNumerals. apply bind_app. Qed.

(** [startsWith] and [includes] decide the prefix and the infix relation. *)
Lemma startsWith_prefix p s : JS.startsWith p s = true ↔ ∃ b, s = p ++ b.
Proof.
  split.
  - revert s. induction p as [|c p IH]; intros s Hs; [exists s; reflexivity|].
    destruct s as [|d s]; [discriminate|]. cbn [JS.startsWith] in Hs.
    apply andb_true_iff in Hs as [Hc Hs]. apply bool_decide_eq_true in Hc as ->.
    destruct (IH s Hs) as [b ->]. exists b. reflexivity.
  - intros [b ->]. apply startsWith_app.
Qed.

Lemma includes_spec p s : JS.includes p s = true ↔ ∃ a b, s = a ++ p ++ b.
Proof.
  split.
  - induction s as [|c s IH]; cbn [JS.includes]; intros Hs;
      apply orb_true_iff in Hs as [Hs|Hs].
    + apply startsWith_prefix in Hs as [b Hb]. exists [], b. exact Hb.
    + discriminate.
    + apply startsWith_prefix in Hs as [b Hb]. exists [], b. exact Hb.
    + destruct (IH Hs) as (a & b & ->). exists (c :: a), b. reflexivity.
  - intros (a & b & ->). apply includes_infix.
Qed.

(** The replacer writes one code unit for each code unit: the ASCII digit
    of its value for a digit of the three scripts, and the code unit itself
    otherwise. *)
Lemma replaceNumeral_asciiDigit c : replaceNumeral c = [asciiDigit c].
Proof.
  unfold asciiDigit. destruct (digitValue c) as [v|] eqn:E.
  - apply replaceNumeral_digit, E.
  - unfold digitValue in E. unfold replaceNumeral, arabicPersianNumerals.
    destruct ((48 <=? c) && (c <=? 57))%N; [discriminate|].
    destruct ((1632 <=? c) && (c <=? 1641))%N; [discriminate|].
    destruct ((1776 <=? c) && (c <=? 1785))%N; [discriminate|].
    reflexivity.
Qed.

Lemma convert_asciiDigit s : convertToEnglishNumerals s = asciiDigit <$> s.
Proof.
  unfold convertToEnglishNumerals. induction s as [|c s IH]; [reflexivity|].
  cbn [mbind list_bind fmap list_fmap]. rewrite replaceNumeral_asciiDigit.
  cbn [app]. f_equal. exact IH.
Qed.

Lemma asciiDigit_isDigit c : is_Some (digitValue c) -> isDigit (asciiDigit c) = true.
Proof.
  intros [v Hv]. unfold asciiDigit. rewrite Hv. unfold digitValue in Hv.
  unfold isDigit. apply andb_true_iff. rewrite !N.leb_le.
  destruct ((48 <=? c) && (c <=? 57))%N eqn:E1.
  { apply andb_true_iff in E1 as [H1 H2]. apply N.leb_le in H1, H2.
    injection Hv as <-. lia. }
  destruct ((1632 <=? c) && (c <=? 1641))%N eqn:E2.
  { apply andb_true_iff in E2 as [H1 H2]. apply N.leb_le in H1, H2.
    injection Hv as <-. lia. }
  destruct ((1776 <=? c) && (c <=? 1785))%N eqn:E3; [|discriminate].
  apply andb_true_iff in E3 as [H1 H2]. apply N.leb_le in H1, H2.
  injection Hv as <-. lia.
Qed.

Lemma convert_digits s :
  Forall (fun c => is_Some (digitValue c)) s ->
  Forall (fun c => isDigit c = true) (convertToEnglishNumerals s).
Proof.
  intros Hs. rewrite convert_asciiDigit. apply Forall_fmap.
  eapply Forall_impl; [exact Hs|]. intros c. apply asciiDigit_isDigit.
Qed.

(** A lowering that keeps runs of digits keeps a text of digits. *)
Lemma keepsDigitRuns_digits toLowerCase digits :
  keepsDigitRuns toLowerCase -> Forall (fun c => isDigit c = true) digits ->
  toLowerCase digits = digits.
Proof.
  intros [Hnil Hrun] Hd. destruct digits as [|c ds]; [exact Hnil|].
  pose proof (Hrun [] (c :: ds) [] ltac:(discriminate) Hd) as H.
  rewrite Hnil, app_nil_r in H. exact H.
Qed.

(** The lowering of the ASCII capitals keeps runs of digits. *)
Lemma keepsDigitRuns_ascii : keepsDigitRuns toLowerCase_ascii.
Proof.
  split; [reflexivity|]. intros before digits after _ Hd.
  unfold toLowerCase_ascii. rewrite !fmap_app. f_equal. f_equal.
  induction Hd as [|c ds Hc _ IH]; [reflexivity|].
  cbn [fmap list_fmap]. f_equal; [|exact IH].
  unfold isDigit in Hc. apply andb_true_iff in Hc as [H1 H2].
  apply N.leb_le in H1, H2.
  assert ((65 <=? c) = false)%N as -> by (apply N.leb_gt; lia). reflexivity.
Qed.

(** The search clause, read as a relation between the normalised texts. *)
Lemma matchesSearch_spec toLowerCase query description :
  matchesSearch toLowerCase query description = true
  ↔ convertToEnglishNumerals query = []
    ∨ ∃ before after,
        toLowerCase (convertToEnglishNumerals description)
        = before ++ toLowerCase (convertToEnglishNumerals query) ++ after.
Proof.
  unfold matchesSearch. cbv zeta.
  rewrite negb_true_iff, andb_false_iff, negb_false_iff, includes_spec.
  destruct (convertToEnglishNumerals query) as [|c q]; cbn [JS.truthy].
  - split; auto.
  - split; intros [H|H]; try discriminate; auto.
Qed.

(** A query of digits finds the descriptions that hold its number. *)
Lemma matchesSearch_digits toLowerCase query part before after :
  keepsDigitRuns toLowerCase ->
  query ≠ [] -> Forall (fun c => is_Some (digitValue c)) query ->
  sameUpToDigitScript query part ->
  matchesSearch toLowerCase query (before ++ part ++ after) = true.
Proof.
  intros Hk Hne Hq Hp. apply matchesSearch_spec. right.
  rewrite !convert_app, <- (convert_sameUpToDigitScript _ _ Hp).
  pose proof (convert_digits _ Hq) as Hd.
  rewrite (keepsDigitRuns_digits _ _ Hk Hd).
  exists (toLowerCase (convertToEnglishNumerals before)),
         (toLowerCase (convertToEnglishNumerals after)).
  apply Hk; [|exact Hd].
  rewrite convert_asciiDigit. destruct query; [done|discriminate].
Qed.

(** C9.  The search normalises digits to ASCII and then compares
    substrings, so that the script of digits never affects a match.
    (1) The normalisation writes, code unit for code unit, the ASCII digit
    of the same value for a digit of the Arabic-Indic and of the Extended
    Arabic-Indic script, and leaves every other code unit as it is.
    (2) A description matches a query exactly when the normalised query is
    empty, or the lowered normalised query is a substring of the lowered
    normalised description.
    (3) If two queries differ only in the script in which their digits are
    written (ASCII, Arabic-Indic or Extended Arabic-Indic), and two
    descriptions likewise, the outcome of the match is the same, whatever
    the lowering of case does.
    (4) With a lowering that keeps runs of ASCII digits in place, as the
    built-in does, a query of digits in any of the three scripts finds
    every description that holds, anywhere, the same number in any of the
    three scripts: searching 123 in Arabic-Indic digits matches the
    descriptions containing 123 in ASCII digits, and the other way round.
    Against a description of digits only, such a query matches exactly
    when its ASCII digits are a substring of the ASCII digits of the
    description, and in no other case. *)
Theorem search_digit_script_invariant :
  (∀ s, convertToEnglishNumerals s = asciiDigit <$> s)
  ∧ (∀ toLowerCase query description,
       matchesSearch toLowerCase query description = true
       ↔ convertToEnglishNumerals query = []
         ∨ ∃ before after,
             toLowerCase (convertToEnglishNumerals description)
             = before ++ toLowerCase (convertToEnglishNumerals query) ++ after)
  ∧ (∀ toLowerCase query query' description description',
       sameUpToDigitScript query query' ->
       sameUpToDigitScript description description' ->
       matchesSearch toLowerCase query description
       = matchesSearch toLowerCase query' description')
  ∧ (∀ toLowerCase, keepsDigitRuns toLowerCase ->
     ∀ query,
       query ≠ [] -> Forall (fun c => is_Some (digitValue c)) query ->
       (∀ part before after,
          sameUpToDigitScript query part ->
          matchesSearch toLowerCase query (before ++ part ++ after) = true)
       ∧ (∀ description,
            Forall (fun c => is_Some (digitValue c)) description ->
            matchesSearch toLowerCase query description = true
            ↔ ∃ before after,
                asciiDigit <$> description
                = before ++ (asciiDigit <$> query) ++ after)).
Proof.
  split; [exact convert_asciiDigit|].
  split; [exact matchesSearch_spec|].
  split.
  { intros toLowerCase query query' description description' Hq Hd.
    unfold matchesSearch.
    rewrite (convert_sameUpToDigitScript _ _ Hq), (convert_sameUpToDigitScript _ _ Hd).
    reflexivity. }
  intros toLowerCase Hk query Hne Hq. split.
  { intros part before after Hp. apply matchesSearch_digits; assumption. }
  intros description Hd. rewrite matchesSearch_spec.
  rewrite (keepsDigitRuns_digits _ _ Hk (convert_digits _ Hq)).
  rewrite (keepsDigitRuns_digits _ _ Hk (convert_digits _ Hd)).
  rewrite !convert_asciiDigit. split; [|auto].
  intros [E|H]; [|exact H]. destruct query; [done|discriminate].
Qed.

(** With the lowering of the ASCII capitals, which is the built-in on the
    texts of this example: the query of the specification in Arabic-Indic
    digits finds a description that holds 123 in ASCII digits, the ASCII
    query finds the description that holds it in Extended Arabic-Indic
    digits, and the query 124 does not find the description 123. *)
Lemma search_digit_script_invariant_witness :
  keepsDigitRuns toLowerCase_ascii
  ∧ sameUpToDigitScript exArabic123 (JS.lit "123")
  ∧ sameUpToDigitScript (JS.lit "123") exPersian123
  ∧ convertToEnglishNumerals (JS.lit "no. " ++ exArabic123) = JS.lit "no. 123"
  ∧ matchesSearch toLowerCase_ascii exArabic123 (JS.lit "Wedding 123 roses") = true
  ∧ matchesSearch toLowerCase_ascii (JS.lit "123")
      (JS.lit "Wedding " ++ exPersian123 ++ JS.lit " roses") = true
  ∧ matchesSearch toLowerCase_ascii exArabic124 (JS.lit "123") = false
  ∧ ¬ (∃ before after,
         asciiDigit <$> JS.lit "123" = before ++ (asciiDigit <$> exArabic124) ++ after).
Proof.
  destruct search_digit_script_invariant as (Hconv & _ & _ & Hdigits).
  assert (Hq : sameUpToDigitScript exArabic123 (JS.lit "123"))
    by (apply (bool_decide_eq_true_1 _); vm_compute; reflexivity).
  assert (Hd : sameUpToDigitScript (JS.lit "123") exPersian123)
    by (apply (bool_decide_eq_true_1 _); vm_compute; reflexivity).
  assert (Hdig : ∀ s, forallb (fun c => bool_decide (is_Some (digitValue c))) s = true ->
                      Forall (fun c => is_Some (digitValue c)) s).
  { intros s Hs. apply Forall_forall. intros c Hc.
    rewrite forallb_forall in Hs. apply (bool_decide_eq_true_1 _), Hs.
    apply list_elem_of_In, Hc. }
  assert (Da : Forall (fun c => is_Some (digitValue c)) exArabic123)
    by (apply Hdig; reflexivity).
  assert (Db : Forall (fun c => is_Some (digitValue c)) (JS.lit "123"))
    by (apply Hdig; reflexivity).
  assert (Dc : Forall (fun c => is_Some (digitValue c)) exArabic124)
    by (apply Hdig; reflexivity).
  destruct (Hdigits toLowerCase_ascii keepsDigitRuns_ascii exArabic123
              ltac:(discriminate) Da) as [Hfind _].
  destruct (Hdigits toLowerCase_ascii keepsDigitRuns_ascii (JS.lit "123")
              ltac:(discriminate) Db) as [Hfind' _].
  destruct (Hdigits toLowerCase_ascii keepsDigitRuns_ascii exArabic124
              ltac:(discriminate) Dc) as [_ Hiff].
  split; [exact keepsDigitRuns_ascii|].
  split; [exact Hq|]. split; [exact Hd|].
  split; [rewrite Hconv; reflexivity|].
  split; [exact (Hfind (JS.lit "123") (JS.lit "Wedding ") (JS.lit " roses") Hq)|].
  split; [exact (Hfind' exPersian123 (JS.lit "Wedding ") (JS.lit " roses") Hd)|].
  split; [reflexivity|].
  intros Hex. apply (Hiff (JS.lit "123") Db) in Hex. discriminate Hex.
Defined.

(** ** The transaction filter *)

Lemma filter_Forall_id {A} (P : A -> Prop) `{∀ x, Decision (P x)} (l : list A) :
  Forall P l -> filter P l = l.
Proof.
  induction 1 as [|x l Hx _ IH]; [reflexivity|].
  rewrite filter_cons, decide_True by done. f_equal. exact IH.
Qed.

Lemma Forall_filter_pred {A} (P : A -> Prop) `{∀ x, Decision (P x)} (l : list A) :
  Forall P (filter P l).
Proof.
  apply Forall_forall. intros x Hx. apply list_elem_of_filter in Hx as [Hx _].
  exact Hx.
Qed.

Lemma filterPredicate_cleared {num : Type} toLowerCase (s : AppState num) t :
  filterPredicate toLowerCase (handleClearFilters s) t = true.
Proof. reflexivity. Qed.

Lemma accountPredicate_cleared {num : Type} (s : AppState num) t :
  accountPredicate (handleClearFilters s) t = accountPredicate s t.
Proof. reflexivity. Qed.

(** C7, as amended.  The filter is idempotent for every list and every
    setting, and its result is a sublist of the input, in input order.  With
    the four filters cleared it returns the account-scoped list: in the
    transactions view exactly the transactions whose payment method is the
    active account, in their original order, and in the other views the
    whole list. *)
Theorem filter_idempotent_and_cleared {num : Type}
    (toLowerCase : jsstring -> jsstring)
    (s : AppState num) (ts : list (Transaction.t num)) :
  filterTransactions toLowerCase s (filterTransactions toLowerCase s ts)
  = filterTransactions toLowerCase s ts
  ∧ sublist (filterTransactions toLowerCase s ts) ts
  ∧ filterTransactions toLowerCase (handleClearFilters s) ts
    = if decide (activeView s = ViewTransactions)
      then filter (fun t => Transaction.paymentMethod t = activeAccountView s) ts
      else ts.
Proof.
  split; [|split].
  - unfold filterTransactions.
    set (inner := filter (fun t => accountPredicate s t = true) ts).
    assert (Ha : Forall (fun t => accountPredicate s t = true)
                   (filter (fun t => filterPredicate toLowerCase s t = true) inner)).
    { apply Forall_forall. intros t Ht.
      apply list_elem_of_filter in Ht as [_ Ht].
      apply list_elem_of_filter in Ht as [Ht _]. exact Ht. }
    rewrite (filter_Forall_id _ _ Ha).
    apply filter_Forall_id, Forall_filter_pred.
  - unfold filterTransactions.
    etransitivity; apply sublist_filter.
  - unfold filterTransactions.
    rewrite filter_Forall_id
      by (apply Forall_forall; intros; apply filterPredicate_cleared).
    unfold accountPredicate. cbn [activeView activeAccountView handleClearFilters].
    destruct (decide (activeView s = ViewTransactions)).
    + apply list_filter_iff. intros t. apply bool_decide_eq_true.
    + apply filter_Forall_id, Forall_forall. done.
Qed.

(** C7 as stated fails: in the transactions view of the cash account the
    cleared filter drops the bank transaction of the example ledger. *)
Lemma filter_cleared_drops_other_account :
  activeView (handleClearFilters exState) = ViewTransactions
  ∧ searchTerm (handleClearFilters exState) = []
  ∧ filterType (handleClearFilters exState) = JS.lit "all"
  ∧ startDate (handleClearFilters exState) = []
  ∧ endDate (handleClearFilters exState) = []
  ∧ filterTransactions toLowerCase_ascii (handleClearFilters exState) exLedger
    = [exRoses; exVase]
  ∧ filterTransactions toLowerCase_ascii (handleClearFilters exState) exLedger
    ≠ exLedger.
Proof.
  repeat split; try reflexivity.
  vm_compute. discriminate.
Qed.

(** ** Deleting a transaction *)

(** C10.  Confirming the deletion of the transaction with a given id (ids
    are never empty: the app writes time stamps and the import rejects an
    empty id) removes exactly the transactions with that id: what is left
    is the list of the other transactions, unchanged and in their original
    order, and the debts are as they were. *)
Theorem delete_removes_exactly_id {num : Type} (s : AppState num) (id : jsstring) :
  transactionToDelete s = Some id ->
  id ≠ [] ->
  transactions (handleConfirmTransactionDelete s)
  = filter (fun t => Transaction.id t ≠ id) (transactions s)
  ∧ (∀ t, t ∈ transactions (handleConfirmTransactionDelete s)
          ↔ t ∈ transactions s ∧ Transaction.id t ≠ id)
  ∧ sublist (transactions (handleConfirmTransactionDelete s)) (transactions s)
  ∧ debts (handleConfirmTransactionDelete s) = debts s.
Proof.
  intros Hdel Hne. unfold handleConfirmTransactionDelete. rewrite Hdel.
  destruct id as [|c id]; [done|]. simpl.
  split; [reflexivity|]. split; [|split; [apply sublist_filter|reflexivity]].
  intros t. rewrite list_elem_of_filter. tauto.
Qed.

Lemma delete_removes_exactly_id_witness :
  transactionToDelete exState = Some (Transaction.id exVase)
  ∧ Transaction.id exVase ≠ []
  ∧ transactions (handleConfirmTransactionDelete exState) = [exRoses; exWedding]
  ∧ debts (handleConfirmTransactionDelete exState) = debts exState.
Proof.
  assert (H1 : transactionToDelete exState = Some (Transaction.id exVase))
    by reflexivity.
  assert (H2 : Transaction.id exVase ≠ []) by (vm_compute; discriminate).
  destruct (delete_removes_exactly_id exState _ H1 H2) as (Ht & _ & _ & Hd).
  split; [exact H1|]. split; [exact H2|]. split; [|exact Hd].
  rewrite Ht. vm_compute. reflexivity.
Defined.

(** ** Settling a debt *)

(** The sum that [reduce] computes in exact arithmetic, by recursion on the
    list. *)
Lemma foldl_add_amount (ds : list (Debt.t Z)) (z : Z) :
  foldl (fun sum d => sum + Debt.amount d) z ds
  = z + foldl (fun sum d => sum + Debt.amount d) 0 ds.
Proof.
  revert z. induction ds as [|d ds IH]; intros z; simpl; [lia|].
  rewrite IH, (IH (0 + Debt.amount d)). lia.
Qed.

Lemma totalUnpaidDebts_cons (d : Debt.t Z) ds :
  totalUnpaidDebts (d :: ds)
  = (if decide (Debt.status d = UNPAID) then Debt.amount d else 0)
    + totalUnpaidDebts ds.
Proof.
  unfold totalUnpaidDebts. rewrite filter_cons.
  cbn [num_zero num_add integers].
  destruct (decide (Debt.status d = UNPAID)); simpl; [|lia].
  rewrite foldl_add_amount. lia.
Qed.

Section SettleFacts.

Context {num : Type}.

Implicit Types (d : Debt.t num) (ds : list (Debt.t num)) (s : AppState num).

Lemma markPaid_same d : markPaid (Debt.id d) d = Debt.withStatus d PAID.
Proof. unfold markPaid. rewrite decide_True by done. reflexivity. Qed.

Lemma markPaid_other id d : Debt.id d ≠ id -> markPaid id d = d.
Proof. intros H. unfold markPaid. rewrite decide_False by done. reflexivity. Qed.

Lemma markPaid_absent id ds :
  id ∉ Debt.id <$> ds -> markPaid id <$> ds = ds.
Proof.
  induction ds as [|d ds IH]; [reflexivity|].
  rewrite fmap_cons, not_elem_of_cons. intros [Hd Hds].
  rewrite fmap_cons, IH, markPaid_other by done. reflexivity.
Qed.

Lemma find_by_id_Some ds id d :
  List.find (fun d => bool_decide (Debt.id d = id)) ds = Some d ->
  d ∈ ds ∧ Debt.id d = id.
Proof.
  intros H. apply List.find_some in H as [Hin Hid].
  apply list_elem_of_In in Hin. apply bool_decide_eq_true in Hid. done.
Qed.

Lemma find_by_id_present ds d :
  NoDup (Debt.id <$> ds) -> d ∈ ds ->
  List.find (fun d' => bool_decide (Debt.id d' = Debt.id d)) ds = Some d.
Proof.
  intros Hnd Hin. induction ds as [|d' ds IH]; [inversion Hin|].
  rewrite fmap_cons in Hnd. apply NoDup_cons in Hnd as [Hfresh Hnd]. simpl.
  apply elem_of_cons in Hin as [<- | Hin].
  - rewrite bool_decide_eq_true_2 by done. reflexivity.
  - rewrite bool_decide_eq_false_2; [auto|].
    intros E. apply Hfresh. rewrite E. apply list_elem_of_fmap. eauto.
Qed.

Lemma find_by_id_absent ds id :
  (∀ d, d ∈ ds -> Debt.id d ≠ id) ->
  List.find (fun d => bool_decide (Debt.id d = id)) ds = None.
Proof.
  intros H. destruct (List.find _ ds) as [d|] eqn:E; [|reflexivity].
  apply find_by_id_Some in E as [Hin Hid]. exfalso. exact (H d Hin Hid).
Qed.

(** The settlement of a debt that is found, in closed form. *)
Lemma settleDebt_found nowId nowIso M s d :
  isAccountantMode s = false ->
  NoDup (Debt.id <$> debts s) ->
  d ∈ debts s ->
  transactions (settleDebt nowId nowIso (Debt.id d) M s)
  = Transaction.mk nowId (settleDescription d) (Debt.amount d)
                   TransactionType.INCOME M nowIso :: transactions s
  ∧ debts (settleDebt nowId nowIso (Debt.id d) M s)
    = markPaid (Debt.id d) <$> debts s.
Proof.
  intros Hmode Hnd Hin.
  unfold settleDebt, handleSettleDebtRequest. rewrite Hmode.
  rewrite (find_by_id_present _ _ Hnd Hin).
  unfold handleConfirmSettleDebt. cbn [debtToSettle setDebtToSettle].
  split; reflexivity.
Qed.

Lemma settleDebt_absent nowId nowIso debtId M s :
  isAccountantMode s = false ->
  debtToSettle s = None ->
  (∀ d, d ∈ debts s -> Debt.id d ≠ debtId) ->
  settleDebt nowId nowIso debtId M s = s.
Proof.
  intros Hmode Hpending Habsent. unfold settleDebt, handleSettleDebtRequest.
  rewrite Hmode, (find_by_id_absent _ _ Habsent).
  unfold handleConfirmSettleDebt. rewrite Hpending. reflexivity.
Qed.

End SettleFacts.

Lemma totalUnpaidDebts_markPaid (d : Debt.t Z) (ds : list (Debt.t Z)) :
  NoDup (Debt.id <$> ds) -> d ∈ ds -> Debt.status d = UNPAID ->
  totalUnpaidDebts (markPaid (Debt.id d) <$> ds)
  = totalUnpaidDebts ds - Debt.amount d.
Proof.
  intros Hnd Hin Hst. induction ds as [|d' ds IH]; [inversion Hin|].
  rewrite fmap_cons in Hnd. apply NoDup_cons in Hnd as [Hfresh Hnd].
  rewrite fmap_cons, !totalUnpaidDebts_cons.
  apply elem_of_cons in Hin as [<- | Hin].
  - rewrite markPaid_absent, markPaid_same by done.
    cbn [Debt.withStatus Debt.status].
    rewrite (decide_False (P := PAID = UNPAID)) by discriminate.
    rewrite (decide_True (P := Debt.status d = UNPAID)) by exact Hst. lia.
  - rewrite IH by done.
    assert (Hne : Debt.id d' ≠ Debt.id d).
    { intros E. apply Hfresh. rewrite E. apply list_elem_of_fmap. eauto. }
    rewrite markPaid_other by exact Hne. lia.
Qed.

(** C4, as amended.  In a state with no settlement pending, outside the
    accountant mode, and with debts of distinct ids.  In any arithmetic:
    settling a debt of amount A by method M puts exactly one new
    transaction in front of the old ones, of type INCOME, amount A and
    payment method M; it marks that debt PAID, in its place, and leaves
    every other debt as it was; and settling an id that no debt bears
    changes neither the transactions nor the debts.  In exact arithmetic,
    settling an unpaid debt lowers the total of the unpaid debts by
    exactly A. *)
Theorem settleDebt_effects :
  (∀ (num : Type) (nowId nowIso debtId M : jsstring) (s : AppState num),
     isAccountantMode s = false ->
     debtToSettle s = None ->
     NoDup (Debt.id <$> debts s) ->
     (∀ d, d ∈ debts s -> Debt.id d = debtId ->
        (∃ newT,
           transactions (settleDebt nowId nowIso debtId M s)
           = newT :: transactions s
           ∧ Transaction.type newT = TransactionType.INCOME
           ∧ Transaction.amount newT = Debt.amount d
           ∧ Transaction.paymentMethod newT = M)
        ∧ Debt.withStatus d PAID ∈ debts (settleDebt nowId nowIso debtId M s)
        ∧ (∀ i, debts s !! i = Some d ->
             debts (settleDebt nowId nowIso debtId M s) !! i
             = Some (Debt.withStatus d PAID))
        ∧ (∀ i d', debts s !! i = Some d' -> d' ≠ d ->
             debts (settleDebt nowId nowIso debtId M s) !! i = Some d')
        ∧ length (debts (settleDebt nowId nowIso debtId M s)) = length (debts s))
     ∧ ((∀ d, d ∈ debts s -> Debt.id d ≠ debtId) ->
        transactions (settleDebt nowId nowIso debtId M s) = transactions s
        ∧ debts (settleDebt nowId nowIso debtId M s) = debts s))
  ∧ (∀ (nowId nowIso debtId M : jsstring) (s : AppState Z) (d : Debt.t Z),
       isAccountantMode s = false ->
       NoDup (Debt.id <$> debts s) ->
       d ∈ debts s -> Debt.id d = debtId -> Debt.status d = UNPAID ->
       totalUnpaidDebts (debts (settleDebt nowId nowIso debtId M s))
       = totalUnpaidDebts (debts s) - Debt.amount d).
Proof.
  split.
  - intros num nowId nowIso debtId M s Hmode Hpending Hnd. split.
    + intros d Hin <-.
      destruct (settleDebt_found nowId nowIso M s d Hmode Hnd Hin) as [Ht Hd].
      rewrite Ht, Hd. split; [eexists; repeat split|].
      split; [|split; [|split]].
      * apply list_elem_of_fmap. exists d. rewrite markPaid_same. done.
      * intros i Hi. rewrite list_lookup_fmap, Hi.
        cbn [fmap option_fmap option_map]. rewrite markPaid_same. reflexivity.
      * intros i d' Hi Hne. rewrite list_lookup_fmap, Hi.
        cbn [fmap option_fmap option_map].
        f_equal. apply markPaid_other. intros E. apply Hne.
        apply list_elem_of_lookup_2 in Hi.
        pose proof (find_by_id_present _ _ Hnd Hi) as F.
        rewrite E, (find_by_id_present _ _ Hnd Hin) in F. congruence.
      * apply length_fmap.
    + intros Habsent.
      rewrite (settleDebt_absent nowId nowIso debtId M s Hmode Hpending Habsent).
      done.
  - intros nowId nowIso debtId M s d Hmode Hnd Hin <- Hst.
    destruct (settleDebt_found nowId nowIso M s d Hmode Hnd Hin) as [_ Hd].
    rewrite Hd. apply totalUnpaidDebts_markPaid; assumption.
Qed.

Lemma settleDebt_effects_witness :
  isAccountantMode exDebtState = false
  ∧ debtToSettle exDebtState = None
  ∧ NoDup (Debt.id <$> debts exDebtState)
  ∧ exDebtA ∈ debts exDebtState
  ∧ Debt.status exDebtA = UNPAID
  ∧ totalUnpaidDebts (debts exDebtState) = 100
  ∧ totalUnpaidDebts
      (debts (settleDebt (JS.lit "1710331200000") (JS.lit "2024-03-13T12:00:00.000Z")
                (JS.lit "debt-1") PaymentMethod.BANK exDebtState)) = 30
  ∧ transactions
      (settleDebt (JS.lit "1710331200000") (JS.lit "2024-03-13T12:00:00.000Z")
         (JS.lit "no-such-debt") PaymentMethod.BANK exDebtState) = exLedger.
Proof.
  assert (H1 : isAccountantMode exDebtState = false) by reflexivity.
  assert (H2 : debtToSettle exDebtState = None) by reflexivity.
  assert (H3 : NoDup (Debt.id <$> debts exDebtState))
    by (apply (bool_decide_eq_true_1 _); vm_compute; reflexivity).
  assert (H4 : exDebtA ∈ debts exDebtState)
    by (apply (bool_decide_eq_true_1 _); vm_compute; reflexivity).
  assert (H5 : Debt.status exDebtA = UNPAID) by reflexivity.
  destruct settleDebt_effects as [Hany Hexact].
  split; [exact H1|]. split; [exact H2|]. split; [exact H3|].
  split; [exact H4|]. split; [exact H5|]. split; [reflexivity|]. split.
  - rewrite (Hexact (JS.lit "1710331200000") (JS.lit "2024-03-13T12:00:00.000Z")
               (JS.lit "debt-1") PaymentMethod.BANK exDebtState exDebtA
               H1 H3 H4 eq_refl H5).
    reflexivity.
  - destruct (Hany Z (JS.lit "1710331200000") (JS.lit "2024-03-13T12:00:00.000Z")
                (JS.lit "no-such-debt") PaymentMethod.BANK exDebtState H1 H2 H3)
      as [_ Habsent].
    apply Habsent. intros d Hd.
    apply elem_of_cons in Hd as [-> | Hd]; [vm_compute; discriminate|].
    apply elem_of_cons in Hd as [-> | Hd]; [vm_compute; discriminate|].
    apply elem_of_cons in Hd as [-> | Hd]; [vm_compute; discriminate|].
    inversion Hd.
Defined.

(** C4 as stated fails in the arithmetic of the code.  Three unpaid debts
    of 0.10, 0.20 and 0.30 add up to 0.6000000000000001; after the first is
    settled the total is 0.2 + 0.3 = 0.5, and the old total less 0.10 is
    0.5000000000000001. *)
Lemma settle_total_fails_in_binary64 :
  isAccountantMode exFloatDebtState = false
  ∧ debtToSettle exFloatDebtState = None
  ∧ NoDup (Debt.id <$> debts exFloatDebtState)
  ∧ exFloatDebtA ∈ debts exFloatDebtState
  ∧ Debt.status exFloatDebtA = UNPAID
  ∧ PrimFloat.eqb
      (totalUnpaidDebts
         (debts (settleDebt (JS.lit "1710331200000")
                   (JS.lit "2024-03-13T12:00:00.000Z")
                   (JS.lit "debt-1") PaymentMethod.CASH exFloatDebtState)))
      (num_sub (totalUnpaidDebts (debts exFloatDebtState))
               (Debt.amount exFloatDebtA)) = false
  ∧ totalUnpaidDebts
      (debts (settleDebt (JS.lit "1710331200000")
                (JS.lit "2024-03-13T12:00:00.000Z")
                (JS.lit "debt-1") PaymentMethod.CASH exFloatDebtState))
    ≠ num_sub (totalUnpaidDebts (debts exFloatDebtState))
              (Debt.amount exFloatDebtA).
Proof.
  split; [reflexivity|]. split; [reflexivity|].
  split; [apply (bool_decide_eq_true_1 _); vm_compute; reflexivity|].
  split; [apply elem_of_cons; left; reflexivity|].
  split; [reflexivity|]. split; [vm_compute; reflexivity|].
  intros E.
  apply (f_equal (fun x => PrimFloat.eqb x
           (num_sub (totalUnpaidDebts (debts exFloatDebtState))
                    (Debt.amount exFloatDebtA)))) in E.
  vm_compute in E. discriminate.
Qed.

(** ** Splitting and joining *)

Lemma split_no_sep sep s : sep ∉ s -> JS.split sep s = [s].
Proof.
  induction s as [|c s IH]; [reflexivity|].
  rewrite not_elem_of_cons. intros [Hc Hs]. simpl.
  rewrite decide_False by congruence. rewrite IH by done. reflexivity.
Qed.

Lemma split_app_sep sep f rest :
  sep ∉ f -> JS.split sep (f ++ sep :: rest) = f :: JS.split sep rest.
Proof.
  induction f as [|c f IH]; intros Hf; simpl.
  - rewrite decide_True by done. reflexivity.
  - apply not_elem_of_cons in Hf as [Hc Hf].
    rewrite decide_False by congruence. rewrite IH by done. reflexivity.
Qed.

(** Splitting undoes joining when no field holds the separator. *)
Lemma split_join sep fs :
  fs ≠ [] -> Forall (fun f => sep ∉ f) fs -> JS.split sep (JS.join sep fs) = fs.
Proof.
  intros Hne Hfs. induction Hfs as [|f fs Hf Hfs IH]; [done|].
  destruct fs as [|g fs].
  - simpl. apply split_no_sep, Hf.
  - change (JS.join sep (f :: g :: fs)) with (f ++ sep :: JS.join sep (g :: fs)).
    rewrite split_app_sep by done. rewrite IH by done. reflexivity.
Qed.

Lemma join_not_elem c sep fs :
  c ≠ sep -> Forall (fun f => c ∉ f) fs -> c ∉ JS.join sep fs.
Proof.
  intros Hc Hfs. induction Hfs as [|f fs Hf Hfs IH]; [apply not_elem_of_nil|].
  destruct fs as [|g fs]; [exact Hf|].
  change (JS.join sep (f :: g :: fs)) with (f ++ sep :: JS.join sep (g :: fs)).
  rewrite elem_of_app, elem_of_cons. intros [?|[?|?]]; [done|done|].
  apply IH; assumption.
Qed.

Lemma trimStart_keeps c s :
  c ∈ s -> JS.isWhiteSpace c = false -> c ∈ JS.trimStart s.
Proof.
  intros Hin Hc. induction s as [|x s IH]; [inversion Hin|]. simpl.
  destruct (JS.isWhiteSpace x) eqn:Ex; [|exact Hin].
  apply elem_of_cons in Hin as [-> | Hin]; [congruence|auto].
Qed.

(** A line with a code unit that is not white space is not blank. *)
Lemma trim_not_blank c s :
  c ∈ s -> JS.isWhiteSpace c = false -> JS.trim s ≠ [].
Proof.
  intros Hin Hc. unfold JS.trim.
  assert (H : c ∈ reverse (JS.trimStart (reverse (JS.trimStart s)))).
  { apply elem_of_reverse, trimStart_keeps; [|exact Hc].
    apply elem_of_reverse, trimStart_keeps; assumption. }
  intros E. rewrite E in H. inversion H.
Qed.

Lemma plainField_not_elem str c :
  plainField str -> c ∈ [JS.dquote; JS.comma; JS.LF; JS.CR] -> c ∉ str.
Proof.
  unfold plainField, needsQuoting. intros H Hc Hin.
  assert (existsb (fun c => bool_decide (c ∈ [JS.dquote; JS.comma; JS.LF; JS.CR]))
            str = true) as E.
  { apply existsb_exists. exists c. split; [apply list_elem_of_In, Hin|].
    apply bool_decide_eq_true_2, Hc. }
  congruence.
Qed.

Lemma escapeCSV_plain str : plainField str -> escapeCSV str = str.
Proof. unfold plainField, escapeCSV. intros ->. reflexivity. Qed.

Lemma removeQuotes_plain str : JS.dquote ∉ str -> JS.removeQuotes str = str.
Proof.
  intros H. unfold JS.removeQuotes. apply filter_Forall_id, Forall_forall.
  intros c Hc ->. contradiction.
Qed.

(** ** CSV import *)

Section CodecFacts.

Context {num : Type}.

Variable numToString : num -> jsstring.
Variable parseFloat : jsstring -> option num.

(** No row makes the callback throw: when the amount parses there are at
    least three fields, so [values[1]] is a string. *)
Lemma importRow_never_throws row : importRow parseFloat row ≠ RowThrow.
Proof.
  unfold importRow.
  destruct (JS.split JS.comma row !! 2%nat) as [v2|] eqn:E2; simpl; [|discriminate].
  destruct (parseFloat v2); [|discriminate].
  destruct (JS.split JS.comma row !! 1%nat) as [v1|] eqn:E1.
  - destruct (_ || _); discriminate.
  - apply lookup_ge_None in E1. apply lookup_lt_Some in E2. lia.
Qed.

Lemma importRows_total rows : is_Some (importRows parseFloat rows).
Proof.
  induction rows as [|row rows [l IH]]; simpl; [eauto|].
  pose proof (importRow_never_throws row).
  destruct (importRow parseFloat row); [done|eauto|rewrite IH; eauto].
Qed.

(** What the validation of a row guarantees of a transaction it lets
    through. *)
Lemma importRow_ok row t :
  importRow parseFloat row = RowOk t ->
  Transaction.id t ≠ [] ∧ Transaction.date t ≠ []
  ∧ Transaction.type t ∈ TransactionType.values
  ∧ Transaction.paymentMethod t = field (JS.split JS.comma row) 4.
Proof.
  unfold importRow.
  destruct (parseFloatArg _ _); [|discriminate].
  destruct (_ !! 1%nat); [|discriminate].
  destruct (_ || _) eqn:E; [discriminate|]. intros [= <-].
  apply orb_false_iff in E as [E E3]. apply orb_false_iff in E as [E1 E2].
  apply negb_false_iff in E1, E2, E3. apply bool_decide_eq_true in E3.
  cbn [Transaction.id Transaction.date Transaction.type Transaction.paymentMethod] in *.
  repeat split; try assumption.
  - intros E. rewrite E in E1. discriminate.
  - intros E. rewrite E in E2. discriminate.
Qed.

Lemma importRows_elem rows l t :
  importRows parseFloat rows = Some l -> t ∈ l ->
  ∃ row, row ∈ rows ∧ importRow parseFloat row = RowOk t.
Proof.
  revert l. induction rows as [|row rows IH]; intros l; simpl.
  - intros [= <-] Ht. inversion Ht.
  - destruct (importRow parseFloat row) as [| |t'] eqn:E; [discriminate| |].
    + intros Hl Ht. destruct (IH _ Hl Ht) as (r & Hr & Hok).
      exists r. split; [apply elem_of_cons; auto|exact Hok].
    + destruct (importRows parseFloat rows) as [l'|]; [|discriminate].
      intros [= <-] Ht. apply elem_of_cons in Ht as [-> | Ht].
      * exists row. split; [apply elem_of_cons; auto|exact E].
      * destruct (IH _ eq_refl Ht) as (r & Hr & Hok).
        exists r. split; [apply elem_of_cons; auto|exact Hok].
Qed.

(** The part of the enumeration claim that the code keeps: whatever the
    file, a transaction that the import adds has an id and a date that are
    not empty and a [type] of its enumeration. *)
Lemma import_validates_type text prev t :
  t ∈ (handleImport parseFloat text prev).1 ->
  t ∈ prev
  ∨ (Transaction.id t ≠ [] ∧ Transaction.date t ≠ []
     ∧ Transaction.type t ∈ TransactionType.values).
Proof.
  unfold handleImport.
  destruct (negb (JS.truthy text)); [auto|].
  destruct (filter _ _) as [|headerRow rows]; [auto|].
  destruct (negb (JS.truthy headerRow)); [auto|].
  destruct (negb (headerOk _)); [auto|].
  destruct (importRows parseFloat rows) as [l|] eqn:E; [|auto].
  cbn [fst]. unfold mergeImported. rewrite elem_of_app, list_elem_of_filter.
  intros [[_ Ht]|Ht]; [right|auto].
  destruct (importRows_elem _ _ _ E Ht) as (row & _ & Hok).
  apply importRow_ok in Hok. tauto.
Qed.

(** The import never removes or changes a transaction of the store. *)
Lemma import_keeps_store text prev :
  ∃ added, (handleImport parseFloat text prev).1 = added ++ prev.
Proof.
  unfold handleImport.
  destruct (negb (JS.truthy text)); [by exists []|].
  destruct (filter _ _) as [|headerRow rows]; [by exists []|].
  destruct (negb (JS.truthy headerRow)); [by exists []|].
  destruct (negb (headerOk _)); [by exists []|].
  destruct (importRows parseFloat rows) as [l|]; [|by exists []].
  unfold mergeImported. eauto.
Qed.

(** The file of no code unit at all: the callback returns at its first
    guard, before the try block. *)
Lemma import_empty_text prev :
  handleImport parseFloat [] prev = (prev, NoAlert).
Proof. reflexivity. Qed.

(** C5, as amended.  An import of a file without data rows applies no row
    to the store.  A file of blank lines only (the completely empty file
    among them) leaves the store as it is, and when it has at least one
    code unit it raises the error of the empty or invalid file.  A
    header-only file, a valid header with no data row after it, raises no
    error: the store is left as it is and the success alert reports zero
    imported rows. *)
Theorem import_without_data_rows (text : jsstring) (prev : list (Transaction.t num)) :
  (blankOnly text ->
     (handleImport parseFloat text prev).1 = prev
     ∧ (text ≠ [] ->
        (handleImport parseFloat text prev).2 = AlertError ErrEmptyOrInvalid))
  ∧ (headerOnly text ->
     handleImport parseFloat text prev = (prev, AlertSuccess 0)).
Proof.
  split.
  - intros Hblank. unfold handleImport.
    assert (Hrows : filter (fun row => JS.trim row ≠ []) (JS.split JS.LF text) = []).
    { unfold blankOnly in Hblank.
      induction Hblank as [|row rows Hrow _ IH]; [reflexivity|].
      rewrite filter_cons, decide_False by (intros H; exact (H Hrow)). exact IH. }
    rewrite Hrows. destruct text as [|c text]; [split; [reflexivity|done]|].
    simpl. split; reflexivity.
  - intros (headerRow & Hrows & Hhdr). unfold handleImport. rewrite Hrows.
    destruct text as [|c text]; [discriminate Hrows|].
    cbn [JS.truthy negb].
    assert (Hin : headerRow ∈ filter (fun row => JS.trim row ≠ [])
                                (JS.split JS.LF (c :: text)))
      by (rewrite Hrows; apply elem_of_cons; auto).
    apply list_elem_of_filter in Hin as [Hne _].
    destruct headerRow as [|h headerRow]; [exfalso; apply Hne; reflexivity|].
    cbn [JS.truthy negb]. rewrite Hhdr. reflexivity.
Qed.

(** ** CSV export followed by import *)

Lemma csvRow_plain t :
  roundTrippable numToString parseFloat t ->
  csvRow numToString t
  = JS.join JS.comma
      [Transaction.id t; Transaction.description t;
       numToString (Transaction.amount t); Transaction.type t;
       Transaction.paymentMethod t; Transaction.date t].
Proof.
  intros (H1 & H2 & H3 & H4 & H5 & _). unfold csvRow.
  rewrite !escapeCSV_plain by assumption. reflexivity.
Qed.

Lemma roundTrippable_fields c t :
  roundTrippable numToString parseFloat t ->
  c ∈ [JS.dquote; JS.comma; JS.LF; JS.CR] ->
  Forall (fun f => c ∉ f)
    [Transaction.id t; Transaction.description t;
     numToString (Transaction.amount t); Transaction.type t;
     Transaction.paymentMethod t; Transaction.date t].
Proof.
  intros (H1 & H2 & H3 & H4 & H5 & _ & _ & _ & H6 & _) Hc.
  repeat constructor; eapply plainField_not_elem; eassumption.
Qed.

(** A row that the export writes for such a transaction reads back as the
    transaction. *)
Lemma importRow_csvRow t :
  roundTrippable numToString parseFloat t ->
  importRow parseFloat (csvRow numToString t) = RowOk t.
Proof.
  intros Ht. rewrite (csvRow_plain _ Ht). unfold importRow.
  rewrite split_join;
    [|discriminate
     |apply roundTrippable_fields; [exact Ht|set_solver]].
  pose proof (roundTrippable_fields JS.dquote t Ht ltac:(set_solver)) as Hq.
  destruct Ht as (_ & _ & _ & _ & _ & Hid & Hdate & Hty & _ & Hparse).
  cbn [lookup list_lookup parseFloatArg field]. rewrite Hparse.
  cbn [Transaction.id Transaction.date Transaction.type].
  rewrite removeQuotes_plain
    by (inversion Hq as [|? ? _ Hq']; inversion Hq'; assumption).
  destruct t as [i d a ty pm dt]. cbn in *.
  destruct i; [done|]. destruct dt; [done|].
  rewrite bool_decide_eq_true_2 by exact Hty. reflexivity.
Qed.

Lemma importRows_csvRows ts :
  Forall (roundTrippable numToString parseFloat) ts ->
  importRows parseFloat (csvRow numToString <$> ts) = Some ts.
Proof.
  induction 1 as [|t ts Ht _ IH]; [reflexivity|].
  rewrite fmap_cons. cbn [importRows].
  rewrite (importRow_csvRow _ Ht), IH. reflexivity.
Qed.

Lemma csvRow_no_LF t :
  roundTrippable numToString parseFloat t -> JS.LF ∉ csvRow numToString t.
Proof.
  intros Ht. rewrite (csvRow_plain _ Ht).
  apply join_not_elem; [discriminate|].
  apply roundTrippable_fields; [exact Ht|set_solver].
Qed.

Lemma csvRow_not_blank t : JS.trim (csvRow numToString t) ≠ [].
Proof.
  apply (trim_not_blank JS.comma); [|reflexivity].
  unfold csvRow. cbn [JS.join]. set_solver.
Qed.

Lemma mergeImported_empty_store (ts : list (Transaction.t num)) :
  mergeImported ts [] = ts.
Proof.
  unfold mergeImported. rewrite app_nil_r.
  apply filter_Forall_id, Forall_forall. intros t _. set_solver.
Qed.

(** C3, as amended.  Exporting a list and importing the exported text into
    an empty store gives the very same list back (ids, descriptions,
    amounts, types, payment methods and dates, in the same order), and
    reports as many imported rows, for every list whose fields hold no
    comma, no double quote and no line break (line feed or carriage
    return), whose ids and dates are not empty, whose types are of the
    enumeration, and whose amounts print to a text that parses back to
    them.  The empty list exports nothing. *)
Theorem export_import_roundtrip (ts : list (Transaction.t num)) (blob : jsstring) :
  Forall (roundTrippable numToString parseFloat) ts ->
  handleExport numToString ts = Some blob ->
  handleImport parseFloat (readAsText blob) [] = (ts, AlertSuccess (length ts)).
Proof.
  intros Hts Hexp. unfold handleExport in Hexp.
  destruct ts as [|t0 ts0] eqn:Ets; [discriminate|]. rewrite <- Ets in *.
  injection Hexp as <-. unfold readAsText. rewrite decide_True by reflexivity.
  set (header := JS.join JS.comma csvHeaders).
  assert (Hsplit : JS.split JS.LF (csvString numToString ts)
                   = header :: (csvRow numToString <$> ts)).
  { unfold csvString. fold header. apply split_join; [discriminate|].
    constructor; [apply (bool_decide_unpack _); vm_compute; exact I|].
    apply Forall_fmap. eapply Forall_impl; [exact Hts|].
    intros t Ht. apply csvRow_no_LF, Ht. }
  assert (Htruthy : JS.truthy (csvString numToString ts) = true)
    by (destruct (csvString numToString ts); [discriminate Hsplit|reflexivity]).
  unfold handleImport. rewrite Htruthy. cbn [negb].
  rewrite Hsplit, filter_cons, decide_True by (vm_compute; discriminate).
  rewrite filter_Forall_id
    by (apply Forall_fmap, Forall_forall; intros t _; apply csvRow_not_blank).
  change (negb (JS.truthy header)) with false. cbv iota.
  change (negb (headerOk (JS.trim <$> JS.split JS.comma header))) with false.
  cbv iota.
  rewrite (importRows_csvRows _ Hts), mergeImported_empty_store. reflexivity.
Qed.

End CodecFacts.

(** ** The codec on the examples *)

Lemma export_import_roundtrip_witness :
  Forall (roundTrippable decimal parseFloat_int) exLedger
  ∧ handleExport decimal exLedger = Some (JS.BOM :: csvString decimal exLedger)
  ∧ handleImport parseFloat_int
      (readAsText (JS.BOM :: csvString decimal exLedger)) []
    = (exLedger, AlertSuccess 3).
Proof.
  assert (H1 : Forall (roundTrippable decimal parseFloat_int) exLedger)
    by (apply (bool_decide_eq_true_1 _); vm_compute; reflexivity).
  assert (H2 : handleExport decimal exLedger
               = Some (JS.BOM :: csvString decimal exLedger)) by reflexivity.
  split; [exact H1|]. split; [exact H2|].
  exact (export_import_roundtrip decimal parseFloat_int exLedger _ H1 H2).
Defined.

(** C3 as stated fails.  No field of the transaction holds a comma or a
    double quote, and it is well formed, but its date ends in a carriage
    return: the export wraps the date in double quotes, and the import,
    which strips quotes from the description only, reads a different date
    back. *)
Lemma roundtrip_fails_on_carriage_return :
  Forall noCommaNoQuote
    [Transaction.id exCrDate; Transaction.description exCrDate;
     decimal (Transaction.amount exCrDate); Transaction.type exCrDate;
     Transaction.paymentMethod exCrDate; Transaction.date exCrDate]
  ∧ Transaction.wellTyped exCrDate
  ∧ ∃ blob imported,
      handleExport decimal [exCrDate] = Some blob
      ∧ handleImport parseFloat_int (readAsText blob) []
        = ([imported], AlertSuccess 1)
      ∧ Transaction.date imported
        = JS.dquote :: Transaction.date exCrDate ++ [JS.dquote]
      ∧ Transaction.date imported ≠ Transaction.date exCrDate.
Proof.
  split; [apply (bool_decide_eq_true_1 _); vm_compute; reflexivity|].
  split; [apply (bool_decide_eq_true_1 _); vm_compute; reflexivity|].
  eexists. eexists. split; [reflexivity|].
  split; [vm_compute; reflexivity|].
  split; [reflexivity|]. vm_compute. discriminate.
Qed.

(** Such a transaction is what the import itself makes of a file with
    CR LF line ends. *)
Lemma import_crlf_keeps_carriage_return :
  handleImport parseFloat_int exCrLfFile [] = ([exCrDate], AlertSuccess 1).
Proof. vm_compute. reflexivity. Qed.

(** C5 as stated fails on a header-only file: the import raises no error,
    it reports success with a count of zero. *)
Lemma header_only_import_reports_success :
  headerOnly exHeaderOnly
  ∧ handleImport parseFloat_int exHeaderOnly exLedger = (exLedger, AlertSuccess 0)
  ∧ ∀ e, (handleImport parseFloat_int exHeaderOnly exLedger).2 ≠ AlertError e.
Proof.
  split; [exists exHeaderOnly; split; vm_compute; reflexivity|].
  split; [vm_compute; reflexivity|].
  intros e. vm_compute. discriminate.
Qed.

Lemma import_without_data_rows_witness :
  blankOnly exBlankFile
  ∧ headerOnly exHeaderOnly
  ∧ handleImport parseFloat_int exBlankFile exLedger
    = (exLedger, AlertError ErrEmptyOrInvalid)
  ∧ handleImport parseFloat_int exHeaderOnly exLedger = (exLedger, AlertSuccess 0).
Proof.
  assert (H1 : blankOnly exBlankFile)
    by (apply (bool_decide_eq_true_1 _); vm_compute; reflexivity).
  assert (H2 : headerOnly exHeaderOnly)
    by (exists exHeaderOnly; split; vm_compute; reflexivity).
  split; [exact H1|]. split; [exact H2|].
  destruct (import_without_data_rows parseFloat_int exBlankFile exLedger)
    as [Hblank _].
  destruct (import_without_data_rows parseFloat_int exHeaderOnly exLedger)
    as [_ Hheader].
  destruct (Hblank H1) as [Hstore Halert].
  split; [|exact (Hheader H2)].
  rewrite (surjective_pairing (handleImport parseFloat_int exBlankFile exLedger)).
  rewrite Hstore, Halert by discriminate. reflexivity.
Defined.

(** C6, the failing input.  The file has one row whose payment method is
    PAYPAL.  The import validates the type of the row and not its payment
    method: the row is stored as it is, with a payment method outside the
    enumeration. *)
Theorem import_stores_unknown_paymentMethod :
  ∃ t,
    handleImport parseFloat_int exPaypalFile [] = ([t], AlertSuccess 1)
    ∧ Transaction.type t ∈ TransactionType.values
    ∧ Transaction.paymentMethod t = JS.lit "PAYPAL"
    ∧ Transaction.paymentMethod t ∉ PaymentMethod.values.
Proof.
  eexists. split; [vm_compute; reflexivity|].
  cbn [Transaction.type Transaction.paymentMethod].
  split; [apply (bool_decide_unpack _); vm_compute; exact I|].
  split; [reflexivity|].
  apply (bool_decide_unpack _). vm_compute. exact I.
Qed.

(** What becomes of such a transaction: it is shown in neither account
    view, and its amount counts in the bank balance. *)
Lemma unknown_paymentMethod_downstream :
  let t := Transaction.mk (JS.lit "7") (JS.lit "roses") 5
             TransactionType.INCOME (JS.lit "PAYPAL")
             (JS.lit "2024-03-10T12:00:00.000Z") in
  handleImport parseFloat_int exPaypalFile [] = ([t], AlertSuccess 1)
  ∧ withMethod PaymentMethod.CASH [t] = []
  ∧ withMethod PaymentMethod.BANK [t] = []
  ∧ cashBalance [t] = 0
  ∧ bankBalance [t] = 5.
Proof. vm_compute. repeat split; reflexivity. Qed.

(** ** The search of the specification's example *)

(** With the lowering of ASCII capitals: a query of 123 in Arabic-Indic or
    Extended Arabic-Indic digits finds every description that holds 123 in
    ASCII digits, and the ASCII query finds every description that holds
    the number in either of the two scripts. *)
Lemma search_finds_across_scripts (a b : jsstring) :
  matchesSearch toLowerCase_ascii exArabic123 (a ++ JS.lit "123" ++ b) = true
  ∧ matchesSearch toLowerCase_ascii exPersian123 (a ++ JS.lit "123" ++ b) = true
  ∧ matchesSearch toLowerCase_ascii (JS.lit "123") (a ++ exArabic123 ++ b) = true
  ∧ matchesSearch toLowerCase_ascii (JS.lit "123") (a ++ exPersian123 ++ b) = true.
Proof.
  assert (H : ∀ q x, convertToEnglishNumerals q = JS.lit "123" ->
                     convertToEnglishNumerals x = JS.lit "123" ->
                     matchesSearch toLowerCase_ascii q (a ++ x ++ b) = true).
  { intros q x Hq Hx. unfold matchesSearch.
    rewrite Hq, !convert_app, Hx. unfold toLowerCase_ascii.
    rewrite !fmap_app.
    change ((fun c => if ((65 <=? c) && (c <=? 90))%N then (c + 32)%N else c)
              <$> JS.lit "123") with (JS.lit "123").
    rewrite includes_infix. reflexivity. }
  repeat split; apply H; reflexivity.
Qed.

(** ** Worked examples *)

(** The scenario of the specification, in binary64 as in exact
    arithmetic: 60 in cash, 50 in the bank, 110 in total. *)
Example scenario_binary64 :
  PrimFloat.eqb (cashBalance exLedger64) (PrimFloat.of_uint63 60) = true
  ∧ PrimFloat.eqb (bankBalance exLedger64) (PrimFloat.of_uint63 50) = true
  ∧ PrimFloat.eqb (totalBalance exLedger64) (PrimFloat.of_uint63 110) = true.
Proof. repeat split; vm_compute; reflexivity. Qed.

Example scenario_exact :
  cashBalance exLedger = 60 ∧ bankBalance exLedger = 50
  ∧ totalBalance exLedger = 110.
Proof. repeat split; reflexivity. Qed.

(** 10 March 2024 is a Sunday: its week starts on Monday 4 March.  Friday
    1 March belongs to the week of Monday 26 February, and Sunday 1 January
    2023 to the week of Monday 26 December 2022. *)
Example week_of_a_sunday :
  toLocaleDateString_enCA 0
    (JSDate.getStartOfWeek 0 (parseISO (JS.lit "2024-03-10T12:00:00.000Z")))
  = JS.lit "2024-03-04".
Proof. vm_compute. reflexivity. Qed.

Example week_across_months :
  toLocaleDateString_enCA 0
    (JSDate.getStartOfWeek 0 (parseISO (JS.lit "2024-03-01T23:30:00.000Z")))
  = JS.lit "2024-02-26".
Proof. vm_compute. reflexivity. Qed.

Example week_across_years :
  toLocaleDateString_enCA 0
    (JSDate.getStartOfWeek 0 (parseISO (JS.lit "2023-01-01T08:00:00.000Z")))
  = JS.lit "2022-12-26".
Proof. vm_compute. reflexivity. Qed.

(** One hour east of UTC, half past eleven at night on Sunday 3 March in
    UTC is already Monday 4 March: the day key and the week key are both
    that Monday. *)
Example week_in_local_time :
  toLocaleDateString_enCA 3600000 (parseISO (JS.lit "2024-03-03T23:30:00.000Z"))
  = JS.lit "2024-03-04"
  ∧ toLocaleDateString_enCA 3600000
      (JSDate.getStartOfWeek 3600000
         (parseISO (JS.lit "2024-03-03T23:30:00.000Z")))
    = JS.lit "2024-03-04".
Proof. split; vm_compute; reflexivity. Qed.

(** A date that does not parse has the key of the invalid date, in both
    modes. *)
Example key_of_an_invalid_date :
  toLocaleDateString_enCA 0 (JSDate.getStartOfWeek 0 (parseISO (JS.lit "soon")))
  = JS.lit "Invalid Date".
Proof. vm_compute. reflexivity. Qed.

(** The example ledger by week and by day: Sunday 10 March falls in the
    week of 4 March, Monday 11 and Tuesday 12 in the week of 11 March. *)
Example ledger_by_week :
  groupTransactions 0 parseISO weekly exLedger
  = {[ JS.lit "2024-03-04" := [exRoses];
       JS.lit "2024-03-11" := [exVase; exWedding] ]}.
Proof. vm_compute. reflexivity. Qed.

Example ledger_by_day :
  groupTransactions 0 parseISO daily exLedger
  = {[ JS.lit "2024-03-10" := [exRoses];
       JS.lit "2024-03-11" := [exVase];
       JS.lit "2024-03-12" := [exWedding] ]}.
Proof. vm_compute. reflexivity. Qed.

(** The filter of the example state (cash account, the word roses, income,
    March 2024) keeps the one matching transaction. *)
Example example_filter :
  filteredTransactions toLowerCase_ascii exState = [exRoses].
Proof. vm_compute. reflexivity. Qed.

(** * Further properties *)

(** ** Sums in exact arithmetic *)

Lemma foldl_add_shift {A} (g : A -> Z) (z : Z) (l : list A) :
  foldl (fun s x => s + g x) z l = z + foldl (fun s x => s + g x) 0 l.
Proof.
  revert z. induction l as [|x l IH]; intros z; simpl; [lia|].
  rewrite (IH (z + g x)), (IH (0 + g x)). lia.
Qed.

Lemma foldl_add_perm {A} (g : A -> Z) (z : Z) (l l' : list A) :
  l ≡ₚ l' -> foldl (fun s x => s + g x) z l = foldl (fun s x => s + g x) z l'.
Proof.
  intros Hp. revert z.
  induction Hp as [|x l l' _ IH|x y l|l l' l'' _ IH1 _ IH2]; intros z; simpl.
  - reflexivity.
  - apply IH.
  - f_equal. lia.
  - rewrite IH1. apply IH2.
Qed.

Lemma sumLeft_perm (z : Z) (l l' : list Z) :
  l ≡ₚ l' -> sumLeft z l = sumLeft z l'.
Proof. apply (foldl_add_perm (fun x => x)). Qed.

Lemma amountsOf_perm {num : Type} cash income (ts ts' : list (Transaction.t num)) :
  ts ≡ₚ ts' -> amountsOf cash income ts ≡ₚ amountsOf cash income ts'.
Proof. intros Hp. unfold amountsOf. rewrite Hp. reflexivity. Qed.

(** ** Balances, account by account *)

Lemma amountsOf_same_account {num : Type} cash income (ts : list (Transaction.t num)) :
  amountsOf cash income
    (filter (fun t => bool_decide (Transaction.paymentMethod t = PaymentMethod.CASH) = cash) ts)
  = amountsOf cash income ts.
Proof.
  induction ts as [|t ts IH]; [reflexivity|].
  rewrite filter_cons, (amountsOf_cons cash income t ts).
  destruct (decide (bool_decide (Transaction.paymentMethod t = PaymentMethod.CASH) = cash))
    as [Hc|Hc].
  - rewrite amountsOf_cons, IH.
    destruct (decide (bool_decide (Transaction.paymentMethod t = PaymentMethod.CASH) = cash
                      ∧ bool_decide (Transaction.type t = TransactionType.INCOME) = income));
      reflexivity.
  - rewrite IH. rewrite decide_False by (intros [? _]; contradiction). reflexivity.
Qed.

(** X1.  Each account balance is computed from the transactions of that
    account alone, in every arithmetic: the cash balance is the cash balance
    of the transactions whose payment method is CASH, the bank balance the
    bank balance of all the others, whatever their payment method says. *)
Theorem balance_of_one_account {num : Type} `{Number num}
    (ts : list (Transaction.t num)) :
  cashBalance ts = cashBalance (withMethod PaymentMethod.CASH ts)
  ∧ bankBalance ts
    = bankBalance (filter (fun t => Transaction.paymentMethod t ≠ PaymentMethod.CASH) ts).
Proof.
  assert (Hcash : withMethod PaymentMethod.CASH ts
                  = filter (fun t => bool_decide (Transaction.paymentMethod t
                                                  = PaymentMethod.CASH) = true) ts).
  { unfold withMethod. apply list_filter_iff. intros t.
    rewrite bool_decide_eq_true. reflexivity. }
  assert (Hbank : filter (fun t => Transaction.paymentMethod t ≠ PaymentMethod.CASH) ts
                  = filter (fun t => bool_decide (Transaction.paymentMethod t
                                                  = PaymentMethod.CASH) = false) ts).
  { apply list_filter_iff. intros t. rewrite bool_decide_eq_false. reflexivity. }
  rewrite Hcash, Hbank. unfold cashBalance, bankBalance, balanceAcc.
  split.
  - destruct (balance_fold_sums
                {| cashInc := num_zero; cashExp := num_zero;
                   bankInc := num_zero; bankExp := num_zero |} ts)
      as (-> & -> & _ & _).
    destruct (balance_fold_sums
                {| cashInc := num_zero; cashExp := num_zero;
                   bankInc := num_zero; bankExp := num_zero |}
                (filter (fun t => bool_decide (Transaction.paymentMethod t
                                               = PaymentMethod.CASH) = true) ts))
      as (-> & -> & _ & _).
    rewrite !amountsOf_same_account. reflexivity.
  - destruct (balance_fold_sums
                {| cashInc := num_zero; cashExp := num_zero;
                   bankInc := num_zero; bankExp := num_zero |} ts)
      as (_ & _ & -> & ->).
    destruct (balance_fold_sums
                {| cashInc := num_zero; cashExp := num_zero;
                   bankInc := num_zero; bankExp := num_zero |}
                (filter (fun t => bool_decide (Transaction.paymentMethod t
                                               = PaymentMethod.CASH) = false) ts))
      as (_ & _ & -> & ->).
    rewrite !amountsOf_same_account. reflexivity.
Qed.

(** X2.  In exact arithmetic the three balances do not depend on the order
    of the transactions. *)
Theorem balances_order_independent (ts ts' : list (Transaction.t Z)) :
  ts ≡ₚ ts' ->
  cashBalance ts = cashBalance ts'
  ∧ bankBalance ts = bankBalance ts'
  ∧ totalBalance ts = totalBalance ts'.
Proof.
  intros Hp. unfold cashBalance, bankBalance, totalBalance, balanceAcc.
  destruct (balance_fold_sums
              {| cashInc := 0; cashExp := 0; bankInc := 0; bankExp := 0 |} ts)
    as (E1 & E2 & E3 & E4).
  destruct (balance_fold_sums
              {| cashInc := 0; cashExp := 0; bankInc := 0; bankExp := 0 |} ts')
    as (E1' & E2' & E3' & E4').
  cbn [cashInc cashExp bankInc bankExp] in *.
  change (@num_zero Z integers) with 0.
  rewrite E1, E2, E3, E4, E1', E2', E3', E4'.
  rewrite (sumLeft_perm 0 _ _ (amountsOf_perm true true _ _ Hp)).
  rewrite (sumLeft_perm 0 _ _ (amountsOf_perm true false _ _ Hp)).
  rewrite (sumLeft_perm 0 _ _ (amountsOf_perm false true _ _ Hp)).
  rewrite (sumLeft_perm 0 _ _ (amountsOf_perm false false _ _ Hp)).
  auto.
Qed.

Lemma balances_order_independent_witness :
  exLedger ≡ₚ reverse exLedger
  ∧ cashBalance (reverse exLedger) = 60
  ∧ bankBalance (reverse exLedger) = 50
  ∧ totalBalance (reverse exLedger) = 110.
Proof.
  assert (Hp : exLedger ≡ₚ reverse exLedger) by (symmetry; apply reverse_Permutation).
  split; [exact Hp|].
  destruct (balances_order_independent exLedger (reverse exLedger) Hp)
    as (<- & <- & <-).
  repeat split; reflexivity.
Defined.

(** The order matters in binary64: the same three cash incomes sum to two
    different balances. *)
Lemma balance_depends_on_order_in_binary64 :
  let a := Transaction.mk (JS.lit "1") (JS.lit "a") (cents 10)
             TransactionType.INCOME PaymentMethod.CASH (JS.lit "2024-03-10T12:00:00.000Z") in
  let b := Transaction.mk (JS.lit "2") (JS.lit "b") (cents 20)
             TransactionType.INCOME PaymentMethod.CASH (JS.lit "2024-03-10T12:00:00.000Z") in
  let c := Transaction.mk (JS.lit "3") (JS.lit "c") (cents 30)
             TransactionType.INCOME PaymentMethod.CASH (JS.lit "2024-03-10T12:00:00.000Z") in
  PrimFloat.eqb (cashBalance [a; b; c]) (cashBalance [c; b; a]) = false.
Proof. vm_compute. reflexivity. Qed.

(** ** Sorting *)

Lemma StronglySorted_weaken {A} (R R' : A -> A -> Prop) (l : list A) :
  (∀ a b, R a b -> R' a b) -> StronglySorted R l -> StronglySorted R' l.
Proof.
  intros HR. induction 1 as [|x l _ IH Hx]; constructor; [exact IH|].
  eapply Forall_impl; [exact Hx|]. intros y. apply HR.
Qed.

Section SortFacts.

Context {A : Type}.

Lemma sortInsert_perm (cmp : A -> A -> Z) x l : sortInsert cmp x l ≡ₚ x :: l.
Proof.
  induction l as [|y l IH]; simpl; [reflexivity|].
  destruct (cmp x y <=? 0); [reflexivity|].
  rewrite IH. apply Permutation_swap.
Qed.

Lemma Array_sort_perm (cmp : A -> A -> Z) l : Array_sort cmp l ≡ₚ l.
Proof.
  induction l as [|x l IH]; simpl; [reflexivity|].
  rewrite sortInsert_perm, IH. reflexivity.
Qed.

Lemma sortInsert_ext (cmp cmp' : A -> A -> Z) x l :
  (∀ y, y ∈ l -> cmp x y = cmp' x y) -> sortInsert cmp x l = sortInsert cmp' x l.
Proof.
  induction l as [|y l IH]; intros Hext; simpl; [reflexivity|].
  rewrite <- (Hext y) by (left).
  destruct (cmp x y <=? 0); [reflexivity|].
  f_equal. apply IH. intros z Hz. apply Hext. right. exact Hz.
Qed.

Lemma Array_sort_ext (cmp cmp' : A -> A -> Z) l :
  (∀ x y, x ∈ l -> y ∈ l -> cmp x y = cmp' x y) ->
  Array_sort cmp l = Array_sort cmp' l.
Proof.
  induction l as [|x l IH]; intros Hext; simpl; [reflexivity|].
  rewrite <- IH by (intros y z Hy Hz; apply Hext; right; assumption).
  apply sortInsert_ext. intros y Hy. apply Hext; [left|right].
  rewrite <- (Array_sort_perm cmp l). exact Hy.
Qed.

(** The comparator that subtracts the keys of its arguments. *)
Variable key : A -> Z.

Let byKey (a b : A) : Z := key a - key b.

Lemma sortInsert_sorted x l :
  StronglySorted (fun a b => key a <= key b) l ->
  StronglySorted (fun a b => key a <= key b) (sortInsert byKey x l).
Proof.
  induction 1 as [|y l Hl IH Hy]; simpl.
  - repeat constructor.
  - unfold byKey at 1. destruct (Z.leb_spec (key x - key y) 0) as [Hle|Hgt].
    + constructor; [constructor; assumption|].
      constructor; [lia|].
      eapply Forall_impl; [exact Hy|]. simpl. intros z Hz. lia.
    + constructor; [exact IH|].
      rewrite sortInsert_perm. constructor; [lia|exact Hy].
Qed.

Lemma Array_sort_sorted l :
  StronglySorted (fun a b => key a <= key b) (Array_sort byKey l).
Proof.
  induction l as [|x l IH]; simpl; [constructor|].
  apply sortInsert_sorted, IH.
Qed.

(** Stability: the elements of one key keep their order. *)
Lemma sortInsert_stable k x l :
  filter (fun a => key a = k) (sortInsert byKey x l)
  = filter (fun a => key a = k) (x :: l).
Proof.
  induction l as [|y l IH]; simpl; [reflexivity|].
  unfold byKey at 1. destruct (Z.leb_spec (key x - key y) 0) as [Hle|Hgt];
    [reflexivity|].
  rewrite (filter_cons _ y), IH, !filter_cons.
  destruct (decide (key y = k)) as [Hy|Hy], (decide (key x = k)) as [Hx|Hx];
    try reflexivity.
  lia.
Qed.

Lemma Array_sort_stable k l :
  filter (fun a => key a = k) (Array_sort byKey l) = filter (fun a => key a = k) l.
Proof.
  induction l as [|x l IH]; simpl; [reflexivity|].
  rewrite sortInsert_stable, !filter_cons, IH. reflexivity.
Qed.

End SortFacts.

(** ** The debt lists *)

Section DebtLists.

Context {num : Type}.

Variable Date_parse : jsstring -> option Z.

Lemma newestFirst_valid (ds : list (Debt.t num)) :
  Forall (fun d => is_Some (Date_parse (Debt.date d))) ds ->
  Array_sort (newestFirst Date_parse) ds
  = Array_sort (fun a b => (fun d => - debtTime Date_parse d) a
                           - (fun d => - debtTime Date_parse d) b) ds.
Proof.
  intros Hvalid. apply Array_sort_ext. intros x y Hx Hy.
  rewrite Forall_forall in Hvalid.
  destruct (Hvalid x Hx) as [tx Ex], (Hvalid y Hy) as [ty Ey].
  unfold newestFirst, debtTime, timeDifference. rewrite Ex, Ey. lia.
Qed.

Lemma Forall_valid_filter (P : Debt.t num -> Prop) `{∀ d, Decision (P d)}
    (ds : list (Debt.t num)) :
  Forall (fun d => is_Some (Date_parse (Debt.date d))) ds ->
  Forall (fun d => is_Some (Date_parse (Debt.date d))) (filter P ds).
Proof.
  rewrite !Forall_forall. intros Hv d Hd.
  apply list_elem_of_filter in Hd as [_ Hd]. auto.
Qed.

(** X3.  The two debt lists hold every debt exactly once, the unpaid ones
    in the first and the paid ones in the second.  When every date parses,
    each list is ordered from the newest to the oldest, and debts of the
    same instant keep the order they have in the store. *)
Theorem debt_lists_partition_and_order (debts : list (Debt.t num)) :
  unpaidDebts Date_parse debts ++ paidDebts Date_parse debts ≡ₚ debts
  ∧ Forall (fun d => Debt.status d = UNPAID) (unpaidDebts Date_parse debts)
  ∧ Forall (fun d => Debt.status d = PAID) (paidDebts Date_parse debts)
  ∧ (Forall (fun d => is_Some (Date_parse (Debt.date d))) debts ->
     StronglySorted (fun a b => debtTime Date_parse b <= debtTime Date_parse a)
       (unpaidDebts Date_parse debts)
     ∧ StronglySorted (fun a b => debtTime Date_parse b <= debtTime Date_parse a)
         (paidDebts Date_parse debts)
     ∧ ∀ t,
         filter (fun d => debtTime Date_parse d = t) (unpaidDebts Date_parse debts)
         = filter (fun d => debtTime Date_parse d = t)
             (filter (fun d => Debt.status d = UNPAID) debts)
         ∧ filter (fun d => debtTime Date_parse d = t) (paidDebts Date_parse debts)
           = filter (fun d => debtTime Date_parse d = t)
               (filter (fun d => Debt.status d = PAID) debts)).
Proof.
  unfold unpaidDebts, paidDebts. split; [|split; [|split]].
  - rewrite !Array_sort_perm.
    induction debts as [|d ds IH]; [reflexivity|].
    rewrite !filter_cons.
    destruct (Debt.status d) eqn:E.
    + rewrite decide_True, decide_False by congruence. simpl. rewrite IH. reflexivity.
    + rewrite decide_False, decide_True by congruence.
      rewrite <- Permutation_middle, IH. reflexivity.
  - rewrite Array_sort_perm. apply Forall_filter_pred.
  - rewrite Array_sort_perm. apply Forall_filter_pred.
  - intros Hvalid.
    rewrite !newestFirst_valid by (apply Forall_valid_filter; exact Hvalid).
    split; [|split].
    + eapply StronglySorted_weaken;
        [|apply (Array_sort_sorted (fun d => - debtTime Date_parse d))].
      simpl. intros a b. lia.
    + eapply StronglySorted_weaken;
        [|apply (Array_sort_sorted (fun d => - debtTime Date_parse d))].
      simpl. intros a b. lia.
    + intros t.
      assert (Hf : ∀ l : list (Debt.t num),
                 filter (fun d => debtTime Date_parse d = t) l
                 = filter (fun d => - debtTime Date_parse d = - t) l).
      { intros l. apply list_filter_iff. intros d. lia. }
      rewrite !Hf.
      split; apply (Array_sort_stable (fun d => - debtTime Date_parse d) (- t)).
Qed.

End DebtLists.

(** ** Reports *)

Lemma type_not_INCOME (t : Transaction.t Z) :
  Transaction.type t ∈ TransactionType.values ->
  Transaction.type t ≠ TransactionType.INCOME ->
  Transaction.type t = TransactionType.EXPENSE.
Proof.
  unfold TransactionType.values. intros Hin Hne.
  apply elem_of_cons in Hin as [?|Hin]; [contradiction|].
  apply list_elem_of_singleton in Hin. exact Hin.
Qed.

Lemma balance_fold_types (acc : BalanceAcc Z) (ts : list (Transaction.t Z)) :
  Forall (fun t => Transaction.type t ∈ TransactionType.values) ts ->
  let r := foldl balanceStep acc ts in
  cashInc r + bankInc r
    = cashInc acc + bankInc acc
      + foldl (fun s t => s + Transaction.amount t) 0
          (filter (fun t => Transaction.type t = TransactionType.INCOME) ts)
  ∧ cashExp r + bankExp r
    = cashExp acc + bankExp acc
      + foldl (fun s t => s + Transaction.amount t) 0
          (filter (fun t => Transaction.type t = TransactionType.EXPENSE) ts).
Proof.
  intros Hty. revert acc.
  induction Hty as [|t ts Ht _ IH]; intros acc; cbn [foldl].
  - cbn. lia.
  - destruct (IH (balanceStep acc t)) as [E1 E2]. cbn zeta in E1, E2.
    rewrite E1, E2. clear E1 E2 IH.
    rewrite !(filter_cons _ t).
    unfold balanceStep.
    destruct (decide (Transaction.type t = TransactionType.INCOME)) as [Hi|Hi].
    + rewrite (decide_False (P := Transaction.type t = TransactionType.EXPENSE))
        by (rewrite Hi; apply INCOME_ne_EXPENSE).
      cbn [foldl].
      rewrite (foldl_add_shift Transaction.amount (0 + Transaction.amount t)).
      destruct (decide (Transaction.paymentMethod t = PaymentMethod.CASH));
        cbn [cashInc cashExp bankInc bankExp]; change (@num_add Z integers) with Z.add; lia.
    + rewrite (decide_True (P := Transaction.type t = TransactionType.EXPENSE))
        by (apply type_not_INCOME; assumption).
      cbn [foldl].
      rewrite (foldl_add_shift Transaction.amount (0 + Transaction.amount t)).
      destruct (decide (Transaction.paymentMethod t = PaymentMethod.CASH));
        cbn [cashInc cashExp bankInc bankExp]; change (@num_add Z integers) with Z.add; lia.
Qed.

Lemma totalBalance_by_type (ts : list (Transaction.t Z)) :
  Forall (fun t => Transaction.type t ∈ TransactionType.values) ts ->
  totalBalance ts
  = foldl (fun s t => s + Transaction.amount t) 0
      (filter (fun t => Transaction.type t = TransactionType.INCOME) ts)
    - foldl (fun s t => s + Transaction.amount t) 0
        (filter (fun t => Transaction.type t = TransactionType.EXPENSE) ts).
Proof.
  intros Hty. unfold totalBalance, balanceAcc.
  destruct (balance_fold_types
              {| cashInc := 0; cashExp := 0; bankInc := 0; bankExp := 0 |} ts Hty)
    as [E1 E2].
  cbn [cashInc cashExp bankInc bankExp] in E1, E2.
  change (@num_zero Z integers) with 0.
  change (@num_add Z integers) with Z.add.
  change (@num_sub Z integers) with Z.sub.
  lia.
Qed.

Lemma Forall_filter_keeps {A} (P Q : A -> Prop) `{∀ x, Decision (Q x)} (l : list A) :
  Forall P l -> Forall P (filter Q l).
Proof.
  rewrite !Forall_forall. intros HP x Hx.
  apply list_elem_of_filter in Hx as [_ Hx]. auto.
Qed.

(** X4.  In exact arithmetic, for transactions whose type is of the
    enumeration, the balance of the report is the total balance of the
    transactions of its period: those whose date text starts with the
    selected month, or with the first ten code units of the present ISO
    date.  With the month left empty the period is the whole ledger. *)
Theorem report_balance_is_period_balance (reportView : ReportView)
    (selectedMonth nowIso : jsstring) (ts : list (Transaction.t Z)) :
  Forall (fun t => Transaction.type t ∈ TransactionType.values) ts ->
  let prefix := match reportView with
                | ReportMonth => selectedMonth
                | ReportToday => JS.slice0 10 nowIso
                end in
  Report.balance (reportData reportView selectedMonth nowIso ts)
  = totalBalance (filter (fun t => JS.startsWith prefix (Transaction.date t) = true) ts)
  ∧ (prefix = [] ->
     Report.balance (reportData reportView selectedMonth nowIso ts) = totalBalance ts).
Proof.
  intros Hty prefix.
  assert (E : Report.balance (reportData reportView selectedMonth nowIso ts)
              = totalBalance
                  (filter (fun t => JS.startsWith prefix (Transaction.date t) = true)
                          ts)).
  { rewrite totalBalance_by_type by (apply Forall_filter_keeps; exact Hty).
    unfold prefix. destruct reportView; reflexivity. }
  split; [exact E|].
  intros Hp. rewrite E, Hp. f_equal.
  apply filter_Forall_id. apply Forall_forall. intros t _. reflexivity.
Qed.

Lemma report_balance_is_period_balance_witness :
  Forall (fun t => Transaction.type t ∈ TransactionType.values) exLedger
  ∧ Report.balance (reportData ReportMonth (JS.lit "2024-03") [] exLedger) = 110
  ∧ Report.balance (reportData ReportToday [] (JS.lit "2024-03-11T08:00:00.000Z") exLedger)
    = -40
  ∧ Report.balance (reportData ReportMonth [] [] exLedger) = totalBalance exLedger.
Proof.
  assert (Hty : Forall (fun t => Transaction.type t ∈ TransactionType.values) exLedger).
  { apply (bool_decide_unpack _). vm_compute. exact I. }
  split; [exact Hty|].
  split; [|split].
  - rewrite (proj1 (report_balance_is_period_balance
                      ReportMonth (JS.lit "2024-03") [] exLedger Hty)).
    vm_compute. reflexivity.
  - vm_compute. reflexivity.
  - apply (proj2 (report_balance_is_period_balance ReportMonth [] [] exLedger Hty)).
    reflexivity.
Defined.

(** ** The printable reports *)

Lemma total_plain (l : list (Transaction.t Z)) :
  PrintableReport_total false l = foldl (fun s t => s + Transaction.amount t) 0 l.
Proof. reflexivity. Qed.

Lemma total_net (l : list (Transaction.t Z)) :
  PrintableReport_total true l
  = foldl (fun s t => s + (if decide (Transaction.type t = TransactionType.INCOME)
                           then Transaction.amount t else - Transaction.amount t)) 0 l.
Proof.
  unfold PrintableReport_total. change (@num_zero Z integers) with 0.
  generalize 0. induction l as [|t l IH]; intros z; cbn [foldl]; [reflexivity|].
  rewrite IH. f_equal.
  destruct (decide (Transaction.type t = TransactionType.INCOME)); cbn; lia.
Qed.

Lemma filter_ext_in {A} (P Q : A -> Prop) `{∀ x, Decision (P x)} `{∀ x, Decision (Q x)}
    (l : list A) :
  (∀ x, x ∈ l -> (P x ↔ Q x)) -> filter P l = filter Q l.
Proof.
  induction l as [|x l IH]; intros Hext; [reflexivity|].
  rewrite !filter_cons.
  rewrite IH by (intros y Hy; apply Hext; right; exact Hy).
  pose proof (Hext x (list_elem_of_here _ _)) as Hx.
  destruct (decide (P x)) as [HP|HP], (decide (Q x)) as [HQ|HQ]; try reflexivity;
    exfalso; tauto.
Qed.

Lemma bank_fold (acc : BalanceAcc Z) (ts : list (Transaction.t Z)) :
  let r := foldl balanceStep acc ts in
  bankInc r - bankExp r
  = bankInc acc - bankExp acc
    + foldl (fun s t => s + (if decide (Transaction.type t = TransactionType.INCOME)
                             then Transaction.amount t else - Transaction.amount t)) 0
        (filter (fun t => Transaction.paymentMethod t ≠ PaymentMethod.CASH) ts).
Proof.
  revert acc. induction ts as [|t ts IH]; intros acc; cbn [foldl].
  - cbn. lia.
  - specialize (IH (balanceStep acc t)). cbn zeta in IH. rewrite IH. clear IH.
    rewrite (filter_cons _ t). unfold balanceStep.
    destruct (decide (Transaction.paymentMethod t = PaymentMethod.CASH)) as [Hc|Hc].
    + rewrite (decide_False (P := Transaction.paymentMethod t ≠ PaymentMethod.CASH))
        by (intros Hn; apply Hn, Hc).
      destruct (decide (Transaction.type t = TransactionType.INCOME));
        cbn [bankInc bankExp]; lia.
    + rewrite (decide_True (P := Transaction.paymentMethod t ≠ PaymentMethod.CASH))
        by exact Hc.
      cbn [foldl].
      rewrite (foldl_add_shift _ (0 + _)).
      destruct (decide (Transaction.type t = TransactionType.INCOME));
        cbn [bankInc bankExp]; change (@num_add Z integers) with Z.add; lia.
Qed.

(** X5.  In exact arithmetic the totals of the printable reports agree with
    the balances of the transactions of the report range: the income total
    less the expense total is their total balance when every type is of the
    enumeration, and the net total of the bank report is their bank balance
    when every payment method is of the enumeration. *)
Theorem report_totals_match_balances (Date_parse : jsstring -> option Z)
    (reportStartDate reportEndDate : jsstring) (ts : list (Transaction.t Z)) :
  let period :=
    filter (fun t => filterByDate reportStartDate reportEndDate t = true) ts in
  (Forall (fun t => Transaction.type t ∈ TransactionType.values) ts ->
   PrintableReport_total false
     (incomeTransactions Date_parse reportStartDate reportEndDate ts)
   - PrintableReport_total false
       (expenseTransactions Date_parse reportStartDate reportEndDate ts)
   = totalBalance period)
  ∧ (Forall (fun t => Transaction.paymentMethod t ∈ PaymentMethod.values) ts ->
     PrintableReport_total true
       (bankTransactions Date_parse reportStartDate reportEndDate ts)
     = bankBalance period).
Proof.
  intros period. split.
  - intros Hty.
    rewrite totalBalance_by_type by (apply Forall_filter_keeps; exact Hty).
    rewrite !total_plain. unfold incomeTransactions, expenseTransactions.
    rewrite !(foldl_add_perm _ _ _ _ (Array_sort_perm _ _)).
    unfold period. rewrite !list_filter_filter. reflexivity.
  - intros Hpm. rewrite total_net. unfold bankTransactions.
    rewrite (foldl_add_perm _ _ _ _ (Array_sort_perm _ _)).
    unfold bankBalance, balanceAcc.
    pose proof (bank_fold {| cashInc := 0; cashExp := 0; bankInc := 0; bankExp := 0 |}
                  period) as E.
    cbn zeta in E. cbn [bankInc bankExp] in E.
    change (@num_zero Z integers) with 0. change (@num_sub Z integers) with Z.sub.
    cbn zeta. rewrite E, Z.sub_diag, Z.add_0_l. clear E. f_equal.
    unfold period. rewrite list_filter_filter.
    apply filter_ext_in. intros t Ht.
    rewrite Forall_forall in Hpm. specialize (Hpm t Ht).
    unfold PaymentMethod.values in Hpm.
    split.
    + intros [Hb Hd]. split; [|exact Hd]. rewrite Hb. intros E. symmetry in E.
      exact (CASH_ne_BANK E).
    + intros [Hn Hd]. split; [|exact Hd].
      apply elem_of_cons in Hpm as [?|Hpm]; [contradiction|].
      apply list_elem_of_singleton in Hpm. exact Hpm.
Qed.

Lemma report_totals_match_balances_witness :
  Forall Transaction.wellTyped exLedger
  ∧ PrintableReport_total false (incomeTransactions parseISO [] [] exLedger) = 150
  ∧ PrintableReport_total false (expenseTransactions parseISO [] [] exLedger) = 40
  ∧ PrintableReport_total true
      (bankTransactions parseISO (JS.lit "2024-03-11") [] exLedger)
    = bankBalance (filter (fun t => filterByDate (JS.lit "2024-03-11") [] t = true) exLedger).
Proof.
  assert (Hw : Forall Transaction.wellTyped exLedger).
  { apply (bool_decide_unpack _). vm_compute. exact I. }
  split; [exact Hw|].
  split; [vm_compute; reflexivity|].
  split; [vm_compute; reflexivity|].
  apply (proj2 (report_totals_match_balances parseISO (JS.lit "2024-03-11") [] exLedger)).
  eapply Forall_impl; [exact Hw|]. intros t [_ Hp]. exact Hp.
Defined.

(** ** Trimming *)

Lemma trimStart_fixed c s :
  JS.isWhiteSpace c = false -> JS.trimStart (c :: s) = c :: s.
Proof. intros Hc. simpl. rewrite Hc. reflexivity. Qed.

Lemma trimStart_split s :
  ∃ w, s = w ++ JS.trimStart s ∧ Forall (fun c => JS.isWhiteSpace c = true) w.
Proof.
  induction s as [|c s (w & Hs & Hw)]; simpl.
  - exists []. split; [reflexivity|constructor].
  - destruct (JS.isWhiteSpace c) eqn:Ec.
    + exists (c :: w). split; [simpl; f_equal; exact Hs|constructor; assumption].
    + exists []. split; [reflexivity|constructor].
Qed.

Lemma trimStart_head s c r :
  JS.trimStart s = c :: r -> JS.isWhiteSpace c = false.
Proof.
  induction s as [|x s IH]; simpl; [discriminate|].
  destruct (JS.isWhiteSpace x) eqn:Ex; [exact IH|].
  intros [= <- <-]. exact Ex.
Qed.

Lemma trimStart_idem s : JS.trimStart (JS.trimStart s) = JS.trimStart s.
Proof.
  destruct (JS.trimStart s) as [|c r] eqn:E; [reflexivity|].
  apply trimStart_fixed. eapply trimStart_head. exact E.
Qed.

(** The result of [trim] neither starts nor ends with white space. *)
Lemma trim_ends s :
  JS.trimStart (JS.trim s) = JS.trim s
  ∧ JS.trimStart (reverse (JS.trim s)) = reverse (JS.trim s).
Proof.
  unfold JS.trim. rewrite reverse_involutive, trimStart_idem.
  split; [|reflexivity].
  destruct (trimStart_split (reverse (JS.trimStart s))) as (w & Hs & Hw).
  destruct (JS.trimStart (reverse (JS.trimStart s))) as [|c r] eqn:E using rev_ind;
    [reflexivity|].
  clear IHr.
  apply (f_equal reverse) in Hs. rewrite reverse_involutive in Hs.
  rewrite reverse_app, !reverse_app in Hs. simpl in Hs.
  rewrite reverse_app. simpl.
  apply trimStart_fixed.
  apply (trimStart_head s c (reverse r ++ reverse w)).
  rewrite Hs. reflexivity.
Qed.

Lemma trim_idem s : JS.trim (JS.trim s) = JS.trim s.
Proof.
  destruct (trim_ends s) as [E1 E2].
  unfold JS.trim at 1. rewrite E1, E2. apply reverse_involutive.
Qed.

(** ** The transaction form *)

Lemma truthy_false (str : jsstring) : JS.truthy str = false ↔ str = [].
Proof. destruct str; simpl; split; congruence. Qed.

Section FormFacts.

Context {num : Type} `{Number num} `{NumberOrder num}.

Variable parseFloat : jsstring -> option num.

(** What an accepted submission is. *)
Lemma transaction_submit_accepted (nowId nowIso : jsstring)
    (form form' : TransactionForm.t) (s s' : AppState num) :
  handleTransactionSubmit parseFloat nowId nowIso form s = (form', s', false) ->
  ∃ a, parseFloat (TransactionForm.amount form) = Some a
       ∧ num_leb a num_zero = false
       ∧ JS.trim (TransactionForm.description form) ≠ []
       ∧ form' = TransactionForm.reset
       ∧ s' = setTransactions
                (fun prev =>
                   Transaction.mk nowId (JS.trim (TransactionForm.description form)) a
                     (TransactionForm.type form) (activeAccountView s) nowIso :: prev)
                s.
Proof.
  unfold handleTransactionSubmit.
  destruct (JS.truthy (JS.trim (TransactionForm.description form))) eqn:Ed;
    [|discriminate].
  destruct (parseFloat (TransactionForm.amount form)) as [a|]; [|discriminate].
  cbn [negb orb isNaN leZero].
  destruct (num_leb a num_zero) eqn:El; [discriminate|].
  intros [= <- <-]. exists a. repeat split; try reflexivity; [exact El|].
  intros E. rewrite E in Ed. discriminate.
Qed.

(** X6.  The transaction form rejects exactly the entries with a blank
    description, an amount that does not parse or an amount [<= 0]: the
    alert is shown and nothing changes.  Otherwise it resets the form and
    puts one transaction in front of the list, with the trimmed description,
    the parsed amount, the selected type and the account in view; so every
    transaction of the list keeps a description that is not empty and not
    surrounded by white space and an amount that is not [<= 0]. *)
Theorem transaction_form_validation (nowId nowIso : jsstring)
    (form form' : TransactionForm.t) (s s' : AppState num) (alerted : bool) :
  handleTransactionSubmit parseFloat nowId nowIso form s = (form', s', alerted) ->
  (alerted = true
   ↔ JS.trim (TransactionForm.description form) = []
     ∨ parseFloat (TransactionForm.amount form) = None
     ∨ ∃ a, parseFloat (TransactionForm.amount form) = Some a
            ∧ num_leb a num_zero = true)
  ∧ (alerted = true -> form' = form ∧ s' = s)
  ∧ (alerted = false ->
     form' = TransactionForm.reset
     ∧ debts s' = debts s
     ∧ ∃ a, parseFloat (TransactionForm.amount form) = Some a
            ∧ transactions s'
              = Transaction.mk nowId (JS.trim (TransactionForm.description form)) a
                  (TransactionForm.type form) (activeAccountView s) nowIso
                :: transactions s
            ∧ formEntry (JS.trim (TransactionForm.description form)) a)
  ∧ (Forall (fun t => formEntry (Transaction.description t) (Transaction.amount t))
            (transactions s) ->
     Forall (fun t => formEntry (Transaction.description t) (Transaction.amount t))
            (transactions s')).
Proof.
  unfold handleTransactionSubmit.
  destruct (JS.truthy (JS.trim (TransactionForm.description form))) eqn:Ed.
  - destruct (parseFloat (TransactionForm.amount form)) as [a|] eqn:Ea.
    + cbn [negb orb isNaN leZero].
      destruct (num_leb a num_zero) eqn:El; intros [= <- <- <-].
      * repeat split; try discriminate; eauto.
      * assert (Hentry : formEntry (JS.trim (TransactionForm.description form)) a).
        { split; [|split; [apply trim_idem|exact El]].
          intros E. rewrite E in Ed. discriminate. }
        split; [|split; [discriminate|split]].
        -- split; [discriminate|].
           intros [E|[E|(a' & E & El')]]; [|discriminate|].
           ++ rewrite E in Ed. discriminate.
           ++ injection E as <-. congruence.
        -- intros _. split; [reflexivity|]. split; [reflexivity|].
           exists a. repeat split; try reflexivity; apply Hentry.
        -- intros Hall. cbn [transactions setTransactions].
           constructor; [exact Hentry|exact Hall].
    + cbn [negb orb isNaN]. intros [= <- <- <-].
      repeat split; try discriminate; eauto.
  - cbn [negb orb]. intros [= <- <- <-].
    apply truthy_false in Ed.
    repeat split; try discriminate; eauto.
Qed.

(** X7.  Deleting, by its id, the transaction that the form has just
    stored removes it together with every older transaction of the same id;
    when the id is new to the list, the list is again the one before the
    submission. *)
Theorem submit_then_delete (nowId nowIso : jsstring)
    (form form' : TransactionForm.t) (s s' : AppState num) :
  isAccountantMode s = false ->
  nowId ≠ [] ->
  handleTransactionSubmit parseFloat nowId nowIso form s = (form', s', false) ->
  transactions (handleConfirmTransactionDelete (handleDeleteTransactionRequest nowId s'))
  = filter (fun t => Transaction.id t ≠ nowId) (transactions s)
  ∧ (nowId ∉ Transaction.id <$> transactions s ->
     transactions (handleConfirmTransactionDelete (handleDeleteTransactionRequest nowId s'))
     = transactions s).
Proof.
  intros Hmode Hid Hsub.
  destruct (transaction_submit_accepted _ _ _ _ _ _ Hsub) as (a & _ & _ & _ & _ & Es).
  assert (Ets : transactions s'
                = Transaction.mk nowId (JS.trim (TransactionForm.description form)) a
                    (TransactionForm.type form) (activeAccountView s) nowIso
                  :: transactions s) by (rewrite Es; reflexivity).
  assert (Hmode' : isAccountantMode s' = false) by (rewrite Es; exact Hmode).
  assert (E : transactions (handleConfirmTransactionDelete
                              (handleDeleteTransactionRequest nowId s'))
              = filter (fun t => Transaction.id t ≠ nowId) (transactions s)).
  { unfold handleDeleteTransactionRequest. rewrite Hmode'.
    unfold handleConfirmTransactionDelete.
    cbn [transactionToDelete setIsTransactionModalOpen setTransactionToDelete].
    destruct nowId as [|c r]; [contradiction|].
    cbn [JS.truthy transactions setTransactions setIsTransactionModalOpen
         setTransactionToDelete].
    rewrite Ets, filter_cons.
    rewrite decide_False by (intros Hne; apply Hne; reflexivity).
    reflexivity. }
  split; [exact E|].
  intros Hfresh. rewrite E. apply filter_Forall_id.
  apply Forall_forall. intros t Ht Eid. apply Hfresh.
  rewrite <- Eid. apply list_elem_of_fmap. exists t. split; [reflexivity|exact Ht].
Qed.

End FormFacts.

(** ** A new transaction and the balances *)

Lemma sumLeft_shift (z : Z) (l : list Z) : sumLeft z l = z + sumLeft 0 l.
Proof. apply (foldl_add_shift (fun x => x)). Qed.

Lemma balances_cons (t : Transaction.t Z) (ts : list (Transaction.t Z)) :
  let signed := if decide (Transaction.type t = TransactionType.INCOME)
                then Transaction.amount t else - Transaction.amount t in
  cashBalance (t :: ts)
  = cashBalance ts
    + (if decide (Transaction.paymentMethod t = PaymentMethod.CASH) then signed else 0)
  ∧ bankBalance (t :: ts)
    = bankBalance ts
      + (if decide (Transaction.paymentMethod t = PaymentMethod.CASH) then 0 else signed)
  ∧ totalBalance (t :: ts) = totalBalance ts + signed.
Proof.
  intros signed. unfold cashBalance, bankBalance, totalBalance, balanceAcc.
  cbn [foldl].
  destruct (balance_fold_sums
              {| cashInc := 0; cashExp := 0; bankInc := 0; bankExp := 0 |} ts)
    as (E1 & E2 & E3 & E4).
  destruct (balance_fold_sums
              (balanceStep {| cashInc := 0; cashExp := 0; bankInc := 0; bankExp := 0 |} t)
              ts)
    as (F1 & F2 & F3 & F4).
  cbn [cashInc cashExp bankInc bankExp] in E1, E2, E3, E4.
  change (@num_zero Z integers) with 0.
  change (@num_sub Z integers) with Z.sub.
  change (@num_add Z integers) with Z.add.
  cbn zeta.
  rewrite E1, E2, E3, E4, F1, F2, F3, F4.
  rewrite (sumLeft_shift (cashInc _)), (sumLeft_shift (cashExp _)),
          (sumLeft_shift (bankInc _)), (sumLeft_shift (bankExp _)).
  unfold balanceStep, signed.
  destruct (decide (Transaction.paymentMethod t = PaymentMethod.CASH)),
           (decide (Transaction.type t = TransactionType.INCOME));
    cbn [cashInc cashExp bankInc bankExp];
    change (@num_add Z integers) with Z.add; lia.
Qed.

(** X8.  In exact arithmetic a transaction stored by the form moves the
    balances by its amount: an income raises, any other type lowers, the
    total balance and the balance of the account in view (the cash balance
    for CASH, the bank balance for every other value), and leaves the other
    account balance as it was. *)
Theorem transaction_submit_moves_balances (parseFloat : jsstring -> option Z)
    (nowId nowIso : jsstring) (form form' : TransactionForm.t) (s s' : AppState Z) :
  handleTransactionSubmit parseFloat nowId nowIso form s = (form', s', false) ->
  ∃ a, parseFloat (TransactionForm.amount form) = Some a ∧ 0 < a
       ∧ let signed := if decide (TransactionForm.type form = TransactionType.INCOME)
                       then a else - a in
         totalBalance (transactions s') = totalBalance (transactions s) + signed
         ∧ cashBalance (transactions s')
           = cashBalance (transactions s)
             + (if decide (activeAccountView s = PaymentMethod.CASH) then signed else 0)
         ∧ bankBalance (transactions s')
           = bankBalance (transactions s)
             + (if decide (activeAccountView s = PaymentMethod.CASH) then 0 else signed).
Proof.
  intros Hsub.
  destruct (transaction_submit_accepted _ _ _ _ _ _ _ Hsub)
    as (a & Ea & Hpos & _ & _ & Es).
  exists a. split; [exact Ea|].
  split; [apply Z.leb_gt in Hpos; exact Hpos|].
  rewrite Es. cbn [transactions setTransactions].
  destruct (balances_cons
              (Transaction.mk nowId (JS.trim (TransactionForm.description form)) a
                 (TransactionForm.type form) (activeAccountView s) nowIso)
              (transactions s)) as (E1 & E2 & E3).
  cbn [Transaction.type Transaction.amount Transaction.paymentMethod] in E1, E2, E3.
  cbn zeta. auto.
Qed.

(** ** The debt form and the deletion of a debt *)

Lemma filter_markPaid {num : Type} (id : jsstring) (ds : list (Debt.t num)) :
  filter (fun d => Debt.id d ≠ id) (markPaid id <$> ds)
  = filter (fun d => Debt.id d ≠ id) ds.
Proof.
  induction ds as [|d ds IH]; [reflexivity|].
  rewrite fmap_cons, !filter_cons, IH.
  destruct (decide (Debt.id d = id)) as [E|E].
  - assert (Hm : Debt.id (markPaid id d) = id).
    { unfold markPaid. rewrite decide_True by exact E. exact E. }
    rewrite (decide_False (P := Debt.id (markPaid id d) ≠ id))
      by (intros Hn; apply Hn; exact Hm).
    rewrite (decide_False (P := Debt.id d ≠ id)) by (intros Hn; apply Hn; exact E).
    reflexivity.
  - rewrite markPaid_other by exact E. reflexivity.
Qed.

Lemma debt_delete_effect {num : Type} (s : AppState num) (dialog : DebtDialog)
    (id : jsstring) :
  isAccountantMode s = false ->
  id ≠ [] ->
  handleConfirmDebtDelete (handleDeleteDebtRequest id s dialog) s
  = (setDebts (fun prev => filter (fun d => Debt.id d ≠ id) prev) s,
     {| isDebtModalOpen := false; debtToDelete := None |}).
Proof.
  intros Hmode Hid.
  unfold handleDeleteDebtRequest, handleConfirmDebtDelete. rewrite Hmode.
  cbn [debtToDelete]. destruct id as [|c i]; [contradiction|]. reflexivity.
Qed.

(** X9.  Confirming the deletion of a debt removes the debts of that id
    and no other, and leaves every transaction in place, the income of a
    settlement included; the dialog is closed. *)
Theorem debt_delete_removes_exactly_id {num : Type} (s : AppState num)
    (dialog : DebtDialog) (id : jsstring) :
  isAccountantMode s = false ->
  id ≠ [] ->
  let r := handleConfirmDebtDelete (handleDeleteDebtRequest id s dialog) s in
  debts r.1 = filter (fun d => Debt.id d ≠ id) (debts s)
  ∧ (∀ d, d ∈ debts r.1 ↔ d ∈ debts s ∧ Debt.id d ≠ id)
  ∧ transactions r.1 = transactions s
  ∧ r.2 = {| isDebtModalOpen := false; debtToDelete := None |}.
Proof.
  intros Hmode Hid r. unfold r. rewrite (debt_delete_effect s dialog id Hmode Hid).
  cbn [fst snd debts transactions setDebts].
  split; [reflexivity|]. split; [|split; reflexivity].
  intros d. rewrite list_elem_of_filter. tauto.
Qed.

(** X10.  In accountant mode the three requests change nothing: no dialog
    is opened and no debt is taken up for settlement.  So, when nothing was
    pending before, a request followed by its confirmation deletes no
    transaction, settles no debt and deletes no debt. *)
Theorem accountant_mode_blocks_changes {num : Type} (s : AppState num)
    (dialog : DebtDialog) (id nowId nowIso M : jsstring) :
  isAccountantMode s = true ->
  handleDeleteTransactionRequest id s = s
  ∧ handleSettleDebtRequest id s = s
  ∧ handleDeleteDebtRequest id s dialog = dialog
  ∧ (transactionToDelete s = None ->
     transactions (handleConfirmTransactionDelete (handleDeleteTransactionRequest id s))
     = transactions s)
  ∧ (debtToSettle s = None -> settleDebt nowId nowIso id M s = s)
  ∧ (debtToDelete dialog = None ->
     debts (handleConfirmDebtDelete (handleDeleteDebtRequest id s dialog) s).1
     = debts s).
Proof.
  intros Hmode.
  assert (E1 : handleDeleteTransactionRequest id s = s)
    by (unfold handleDeleteTransactionRequest; rewrite Hmode; reflexivity).
  assert (E2 : handleSettleDebtRequest id s = s)
    by (unfold handleSettleDebtRequest; rewrite Hmode; reflexivity).
  assert (E3 : handleDeleteDebtRequest id s dialog = dialog)
    by (unfold handleDeleteDebtRequest; rewrite Hmode; reflexivity).
  split; [exact E1|]. split; [exact E2|]. split; [exact E3|].
  split; [|split].
  - intros Hnone. rewrite E1. unfold handleConfirmTransactionDelete.
    rewrite Hnone. reflexivity.
  - intros Hnone. unfold settleDebt. rewrite E2. unfold handleConfirmSettleDebt.
    rewrite Hnone. reflexivity.
  - intros Hnone. rewrite E3. unfold handleConfirmDebtDelete. rewrite Hnone.
    reflexivity.
Qed.

Section DebtFacts.

Context {num : Type} `{Number num} `{NumberOrder num}.

Variable parseFloat : jsstring -> option num.

(** What an accepted submission is. *)
Lemma debt_submit_accepted (nowMs nowIso : jsstring)
    (form form' : DebtForm.t) (s s' : AppState num) :
  handleDebtSubmit parseFloat nowMs nowIso form s = (form', s', false) ->
  ∃ a, parseFloat (DebtForm.debtAmount form) = Some a
       ∧ num_leb a num_zero = false
       ∧ form' = DebtForm.reset
       ∧ s' = setDebts
                (fun prev =>
                   Debt.mk (JS.lit "debt-" ++ nowMs)
                     (JS.trim (DebtForm.debtClientName form))
                     (JS.trim (DebtForm.debtDescription form))
                     a UNPAID nowIso
                     (if JS.truthy (JS.trim (DebtForm.debtNotes form))
                      then Some (JS.trim (DebtForm.debtNotes form)) else None)
                   :: prev)
                s.
Proof.
  unfold handleDebtSubmit.
  destruct (negb (JS.truthy (JS.trim (DebtForm.debtClientName form)))); [discriminate|].
  destruct (negb (JS.truthy (JS.trim (DebtForm.debtDescription form))));
    [discriminate|].
  destruct (parseFloat (DebtForm.debtAmount form)) as [a|]; [|discriminate].
  cbn [orb isNaN leZero].
  destruct (num_leb a num_zero) eqn:El; [discriminate|].
  intros [= <- <-]. exists a. repeat split; try reflexivity. exact El.
Qed.

(** X11.  The debt form rejects exactly the entries with a blank client
    name, a blank description, an amount that does not parse or an amount
    [<= 0]: the alert is shown and nothing changes.  Otherwise it resets the
    form and puts one unpaid debt in front of the list, its id the clock
    reading after the prefix [debt-], its texts trimmed, and its note absent
    when the note field is blank. *)
Theorem debt_form_validation (nowMs nowIso : jsstring)
    (form form' : DebtForm.t) (s s' : AppState num) (alerted : bool) :
  handleDebtSubmit parseFloat nowMs nowIso form s = (form', s', alerted) ->
  (alerted = true
   ↔ JS.trim (DebtForm.debtClientName form) = []
     ∨ JS.trim (DebtForm.debtDescription form) = []
     ∨ parseFloat (DebtForm.debtAmount form) = None
     ∨ ∃ a, parseFloat (DebtForm.debtAmount form) = Some a
            ∧ num_leb a num_zero = true)
  ∧ (alerted = true -> form' = form ∧ s' = s)
  ∧ (alerted = false ->
     form' = DebtForm.reset
     ∧ transactions s' = transactions s
     ∧ ∃ d, debts s' = d :: debts s
            ∧ Debt.id d = JS.lit "debt-" ++ nowMs
            ∧ Debt.clientName d = JS.trim (DebtForm.debtClientName form)
            ∧ Debt.clientName d ≠ []
            ∧ Debt.description d = JS.trim (DebtForm.debtDescription form)
            ∧ parseFloat (DebtForm.debtAmount form) = Some (Debt.amount d)
            ∧ formEntry (Debt.description d) (Debt.amount d)
            ∧ Debt.status d = UNPAID
            ∧ Debt.date d = nowIso
            ∧ match Debt.notes d with
              | Some n => n = JS.trim (DebtForm.debtNotes form) ∧ n ≠ []
              | None => JS.trim (DebtForm.debtNotes form) = []
              end).
Proof.
  unfold handleDebtSubmit.
  destruct (JS.truthy (JS.trim (DebtForm.debtClientName form))) eqn:Ec.
  - destruct (JS.truthy (JS.trim (DebtForm.debtDescription form))) eqn:Ed.
    + destruct (parseFloat (DebtForm.debtAmount form)) as [a|] eqn:Ea.
      * cbn [negb orb isNaN leZero].
        destruct (num_leb a num_zero) eqn:El; intros [= <- <- <-].
        -- repeat split; try discriminate; eauto 6.
        -- split; [|split; [discriminate|]].
           ++ split; [discriminate|].
              intros [E|[E|[E|(a' & E & El')]]].
              ** rewrite E in Ec. discriminate.
              ** rewrite E in Ed. discriminate.
              ** discriminate.
              ** injection E as <-. congruence.
           ++ intros _. split; [reflexivity|]. split; [reflexivity|].
              eexists. split; [reflexivity|].
              cbn [Debt.id Debt.clientName Debt.description Debt.amount Debt.status
                   Debt.date Debt.notes].
              repeat split; try reflexivity.
              ** intros E. rewrite E in Ec. discriminate.
              ** intros E. rewrite E in Ed. discriminate.
              ** apply trim_idem.
              ** exact El.
              ** destruct (JS.truthy (JS.trim (DebtForm.debtNotes form))) eqn:En.
                 --- split; [reflexivity|]. intros E. rewrite E in En. discriminate.
                 --- apply truthy_false. exact En.
      * cbn [negb orb isNaN]. intros [= <- <- <-].
        repeat split; try discriminate; eauto 6.
    + cbn [negb orb]. intros [= <- <- <-]. apply truthy_false in Ed.
      repeat split; try discriminate; eauto 6.
  - cbn [negb orb]. intros [= <- <- <-]. apply truthy_false in Ec.
    repeat split; try discriminate; eauto 6.
Qed.

(** X12.  A debt entered in the form, then settled, then deleted: the list
    of debts is the one before the entry without the debts of the same id
    (the same list when the id is new), and the transactions have gained
    the income of the settlement, of the amount entered and on the chosen
    payment method. *)
Theorem debt_entered_settled_deleted (nowMs nowIso nowId' nowIso' M : jsstring)
    (form form' : DebtForm.t) (s s1 : AppState num) (dialog : DebtDialog) :
  isAccountantMode s = false ->
  handleDebtSubmit parseFloat nowMs nowIso form s = (form', s1, false) ->
  let id := JS.lit "debt-" ++ nowMs in
  let s2 := settleDebt nowId' nowIso' id M s1 in
  let s3 := (handleConfirmDebtDelete (handleDeleteDebtRequest id s2 dialog) s2).1 in
  (∃ a, parseFloat (DebtForm.debtAmount form) = Some a
        ∧ transactions s3
          = Transaction.mk nowId'
              (settlePrefix ++ JS.trim (DebtForm.debtClientName form)
               ++ JS.lit " - " ++ JS.trim (DebtForm.debtDescription form))
              a TransactionType.INCOME M nowIso'
            :: transactions s)
  ∧ debts s3 = filter (fun d => Debt.id d ≠ id) (debts s)
  ∧ (id ∉ Debt.id <$> debts s -> debts s3 = debts s).
Proof.
  intros Hmode Hsub id s2 s3.
  destruct (debt_submit_accepted _ _ _ _ _ _ Hsub) as (a & Ea & _ & _ & Es1).
  set (d := Debt.mk (JS.lit "debt-" ++ nowMs)
              (JS.trim (DebtForm.debtClientName form))
              (JS.trim (DebtForm.debtDescription form)) a UNPAID nowIso
              (if JS.truthy (JS.trim (DebtForm.debtNotes form))
               then Some (JS.trim (DebtForm.debtNotes form)) else None)) in *.
  assert (E2 : transactions s2
               = Transaction.mk nowId' (settleDescription d) a
                   TransactionType.INCOME M nowIso' :: transactions s
               ∧ debts s2 = markPaid id <$> (d :: debts s)
               ∧ isAccountantMode s2 = false).
  { unfold s2, settleDebt, handleSettleDebtRequest. rewrite Es1.
    cbn [isAccountantMode setDebts debts]. rewrite Hmode.
    cbn [List.find]. rewrite bool_decide_eq_true_2 by reflexivity.
    unfold handleConfirmSettleDebt. cbn [debtToSettle setDebtToSettle].
    cbn [transactions debts isAccountantMode setDebtToSettle setDebts setTransactions].
    rewrite Hmode. auto. }
  destruct E2 as (Et2 & Ed2 & Hmode2).
  assert (Hid : id ≠ []) by discriminate.
  assert (E3 : s3 = setDebts (fun prev => filter (fun d => Debt.id d ≠ id) prev) s2).
  { unfold s3. rewrite (debt_delete_effect s2 dialog id Hmode2 Hid). reflexivity. }
  assert (Ed : debts s3 = filter (fun d => Debt.id d ≠ id) (debts s)).
  { rewrite E3. cbn [debts setDebts]. rewrite Ed2, filter_markPaid, filter_cons.
    rewrite decide_False by (intros Hn; apply Hn; reflexivity). reflexivity. }
  split; [|split; [exact Ed|]].
  - exists a. split; [exact Ea|].
    rewrite E3. cbn [transactions setDebts]. rewrite Et2. reflexivity.
  - intros Hfresh. rewrite Ed. apply filter_Forall_id.
    apply Forall_forall. intros d' Hd' E. apply Hfresh.
    rewrite <- E. apply list_elem_of_fmap. exists d'. split; [reflexivity|exact Hd'].
Qed.

End DebtFacts.

(** X13.  In exact arithmetic the settlement of an unpaid debt moves its
    amount from the unpaid total to the balances: the total balance rises
    by the amount, on the cash balance for the payment method CASH and on
    the bank balance for every other one, and the sum of the total balance
    and the unpaid total is as before. *)
Theorem settlement_moves_amount (nowId nowIso M : jsstring) (s : AppState Z)
    (d : Debt.t Z) :
  isAccountantMode s = false ->
  NoDup (Debt.id <$> debts s) ->
  d ∈ debts s ->
  Debt.status d = UNPAID ->
  let s' := settleDebt nowId nowIso (Debt.id d) M s in
  totalBalance (transactions s') = totalBalance (transactions s) + Debt.amount d
  ∧ cashBalance (transactions s')
    = cashBalance (transactions s)
      + (if decide (M = PaymentMethod.CASH) then Debt.amount d else 0)
  ∧ bankBalance (transactions s')
    = bankBalance (transactions s)
      + (if decide (M = PaymentMethod.CASH) then 0 else Debt.amount d)
  ∧ totalBalance (transactions s') + totalUnpaidDebts (debts s')
    = totalBalance (transactions s) + totalUnpaidDebts (debts s).
Proof.
  intros Hmode Hnd Hd Hst s'.
  destruct (settleDebt_found nowId nowIso M s d Hmode Hnd Hd) as [Et Ed].
  fold s' in Et, Ed. rewrite Et, Ed.
  rewrite (totalUnpaidDebts_markPaid d (debts s) Hnd Hd Hst).
  destruct (balances_cons
              (Transaction.mk nowId (settleDescription d) (Debt.amount d)
                 TransactionType.INCOME M nowIso) (transactions s))
    as (E1 & E2 & E3).
  cbn [Transaction.type Transaction.amount Transaction.paymentMethod] in E1, E2, E3.
  rewrite (decide_True (P := TransactionType.INCOME = TransactionType.INCOME))
    in E1, E2, E3 by reflexivity.
  rewrite E1, E2, E3.
  repeat split; try reflexivity.
  change (@num_sub Z integers) with Z.sub. lia.
Qed.

(** ** Escaping *)

Lemma doubleQuotes_cons c s :
  JS.doubleQuotes (c :: s)
  = (if decide (c = JS.dquote) then [JS.dquote; JS.dquote] else [c])
    ++ JS.doubleQuotes s.
Proof. reflexivity. Qed.

Lemma doubleQuotes_inj s s' : JS.doubleQuotes s = JS.doubleQuotes s' -> s = s'.
Proof.
  revert s'. induction s as [|c s IH]; intros [|c' s'].
  - reflexivity.
  - rewrite doubleQuotes_cons. destruct (decide (c' = JS.dquote)); discriminate.
  - rewrite doubleQuotes_cons. destruct (decide (c = JS.dquote)); discriminate.
  - rewrite !doubleQuotes_cons.
    destruct (decide (c = JS.dquote)) as [->|Hc],
             (decide (c' = JS.dquote)) as [->|Hc']; cbn [app].
    + intros [= E]. f_equal. apply IH, E.
    + intros [= E _]. congruence.
    + intros [= E _]. congruence.
    + intros [= -> E]. f_equal. apply IH, E.
Qed.

Lemma escapeCSV_inj (str str' : jsstring) :
  escapeCSV str = escapeCSV str' -> str = str'.
Proof.
  assert (Hmix : ∀ a b, needsQuoting a = true -> needsQuoting b = false ->
                        escapeCSV a ≠ escapeCSV b).
  { intros a b Ha Hb E. unfold escapeCSV in E. rewrite Ha, Hb in E.
    apply (plainField_not_elem b JS.dquote Hb); [left|].
    rewrite <- E. left. }
  unfold escapeCSV at 1 2.
  destruct (needsQuoting str) eqn:E1, (needsQuoting str') eqn:E2.
  - intros [= E]. apply app_inj_tail in E as [E _]. apply doubleQuotes_inj, E.
  - intros E. exfalso. apply (Hmix str str' E1 E2).
    unfold escapeCSV. rewrite E1, E2. exact E.
  - intros E. exfalso. apply (Hmix str' str E2 E1).
    unfold escapeCSV. rewrite E1, E2. symmetry. exact E.
  - auto.
Qed.

(** X14.  [escapeCSV] writes different fields as different cells, so the
    field can be read off the cell: a field without comma, double quote and
    line break is written as it is, and any other one between double
    quotes with its double quotes doubled. *)
Theorem escapeCSV_injective (str str' : jsstring) :
  str ≠ str' ->
  escapeCSV str ≠ escapeCSV str'
  ∧ (needsQuoting str = false -> escapeCSV str = str)
  ∧ (needsQuoting str = true ->
     escapeCSV str = JS.dquote :: JS.doubleQuotes str ++ [JS.dquote]).
Proof.
  intros Hne. split; [intros E; apply Hne, escapeCSV_inj, E|].
  unfold escapeCSV. split; intros ->; reflexivity.
Qed.

Lemma escapeCSV_injective_witness :
  JS.lit "a,b" ≠ JS.lit "a;b"
  ∧ escapeCSV (JS.lit "a,b") = JS.dquote :: JS.lit "a,b" ++ [JS.dquote]
  ∧ escapeCSV (JS.lit "a;b") = JS.lit "a;b"
  ∧ escapeCSV (JS.lit "a,b") ≠ escapeCSV (JS.lit "a;b").
Proof.
  assert (Hne : JS.lit "a,b" ≠ JS.lit "a;b") by discriminate.
  split; [exact Hne|]. split; [reflexivity|]. split; [reflexivity|].
  exact (proj1 (escapeCSV_injective (JS.lit "a,b") (JS.lit "a;b") Hne)).
Defined.

Lemma doubleQuotes_elem c s : c ∈ JS.doubleQuotes s -> c = JS.dquote ∨ c ∈ s.
Proof.
  induction s as [|x s IH]; [intros Hc; inversion Hc|].
  rewrite doubleQuotes_cons, elem_of_app. intros [Hc|Hc].
  - destruct (decide (x = JS.dquote)) as [->|Hx].
    + left. apply elem_of_cons in Hc as [->|Hc]; [reflexivity|].
      apply list_elem_of_singleton in Hc. exact Hc.
    + right. apply list_elem_of_singleton in Hc. subst. left.
  - destruct (IH Hc); [left|right; right]; assumption.
Qed.

Lemma escapeCSV_not_elem c s : c ≠ JS.dquote -> c ∉ s -> c ∉ escapeCSV s.
Proof.
  intros Hc Hs. unfold escapeCSV. destruct (needsQuoting s); [|exact Hs].
  intros Hin. apply elem_of_cons in Hin as [?|Hin]; [contradiction|].
  apply elem_of_app in Hin as [Hin|Hin].
  - apply doubleQuotes_elem in Hin as [?|?]; contradiction.
  - apply list_elem_of_singleton in Hin. contradiction.
Qed.

Lemma removeQuotes_doubleQuotes s :
  JS.removeQuotes (JS.doubleQuotes s) = JS.removeQuotes s.
Proof.
  unfold JS.removeQuotes. induction s as [|c s IH]; [reflexivity|].
  rewrite doubleQuotes_cons, filter_app, IH, (filter_cons _ c).
  destruct (decide (c = JS.dquote)) as [->|Hc].
  - rewrite decide_False by (intros Hn; apply Hn; reflexivity). reflexivity.
  - rewrite decide_True by exact Hc.
    rewrite filter_cons, decide_True by exact Hc. reflexivity.
Qed.

Lemma removeQuotes_escapeCSV s :
  JS.removeQuotes (escapeCSV s) = JS.removeQuotes s.
Proof.
  unfold escapeCSV. destruct (needsQuoting s); [|reflexivity].
  unfold JS.removeQuotes.
  rewrite filter_cons, decide_False by (intros Hn; apply Hn; reflexivity).
  rewrite filter_app. fold (JS.removeQuotes (JS.doubleQuotes s)).
  rewrite removeQuotes_doubleQuotes.
  rewrite filter_cons, decide_False by (intros Hn; apply Hn; reflexivity).
  apply app_nil_r.
Qed.

(** ** More on the import *)

Lemma filter_none {A} (P : A -> Prop) `{∀ x, Decision (P x)} (l : list A) :
  Forall (fun x => ¬ P x) l -> filter P l = [].
Proof.
  induction 1 as [|x l Hx _ IH]; [reflexivity|].
  rewrite filter_cons, decide_False by exact Hx. exact IH.
Qed.

Lemma mergeImported_idem {num : Type} (l prev : list (Transaction.t num)) :
  mergeImported l (mergeImported l prev) = mergeImported l prev.
Proof.
  unfold mergeImported at 1.
  rewrite filter_none; [reflexivity|].
  apply Forall_forall. intros t Ht Hnew. apply Hnew. clear Hnew.
  apply elem_of_list_to_set. unfold mergeImported. rewrite fmap_app, elem_of_app.
  destruct (decide (Transaction.id t ∈ Transaction.id <$> prev)) as [Hin|Hin];
    [right; exact Hin|left].
  apply list_elem_of_fmap. exists t. split; [reflexivity|].
  apply list_elem_of_filter. split; [|exact Ht].
  rewrite elem_of_list_to_set. exact Hin.
Qed.

Section ImportFacts.

Context {num : Type} `{EqDecision num}.

Variable numToString : num -> jsstring.
Variable parseFloat : jsstring -> option num.

(** X15.  Importing the same text a second time changes nothing: the ids
    that the first import added are now in the store, so every row is
    discarded as a duplicate, while the alert again reports the count of
    the rows read. *)
Theorem import_twice (text : jsstring) (prev : list (Transaction.t num)) :
  handleImport parseFloat text (handleImport parseFloat text prev).1
  = handleImport parseFloat text prev.
Proof.
  unfold handleImport.
  destruct (negb (JS.truthy text)); [reflexivity|].
  destruct (filter _ _) as [|headerRow rows]; [reflexivity|].
  destruct (negb (JS.truthy headerRow)); [reflexivity|].
  destruct (negb (headerOk _)); [reflexivity|].
  destruct (importRows parseFloat rows) as [l|]; [|reflexivity].
  cbn [fst]. rewrite mergeImported_idem. reflexivity.
Qed.

(** X16.  The import only adds in front of the store, and only
    transactions whose id the store does not hold yet, with an id and a
    date that are not empty and a type of the enumeration; the count of the
    success alert is at least the number added.  An error alert leaves the
    store as it is and is never the one of a TypeError, and no alert at all
    is shown exactly for the text of no code unit. *)
Theorem import_effect (text : jsstring) (prev : list (Transaction.t num)) :
  let r := handleImport parseFloat text prev in
  (∃ added,
     r.1 = added ++ prev
     ∧ Forall (fun t => (Transaction.id t ∉ Transaction.id <$> prev)
                        ∧ Transaction.id t ≠ [] ∧ Transaction.date t ≠ []
                        ∧ Transaction.type t ∈ TransactionType.values) added
     ∧ ∀ n, r.2 = AlertSuccess n -> (length added <= n)%nat)
  ∧ (∀ e, r.2 = AlertError e -> r.1 = prev ∧ e ≠ ErrTypeError)
  ∧ (r.2 = NoAlert ↔ text = []).
Proof.
  unfold handleImport.
  destruct text as [|c text]; [cbn; split; [exists []|]; split; done|].
  cbn [JS.truthy negb].
  destruct (filter _ _) as [|headerRow rows];
    [cbn; split; [exists []; split; [done|split; [constructor|done]]|];
     split; [intros e [= <-]; done|done]|].
  destruct (negb (JS.truthy headerRow));
    [cbn; split; [exists []; split; [done|split; [constructor|done]]|];
     split; [intros e [= <-]; done|done]|].
  destruct (negb (headerOk _));
    [cbn; split; [exists []; split; [done|split; [constructor|done]]|];
     split; [intros e [= <-]; done|done]|].
  destruct (importRows parseFloat rows) as [l|] eqn:E;
    [|destruct (importRows_total parseFloat rows) as [l' El']; congruence].
  cbn [fst snd]. split; [|split; [discriminate|done]].
  eexists. split; [reflexivity|]. split.
  - apply Forall_forall. intros t Ht.
    apply list_elem_of_filter in Ht as [Hnew Ht].
    rewrite elem_of_list_to_set in Hnew. split; [exact Hnew|].
    destruct (importRows_elem _ _ _ _ E Ht) as (row & _ & Hok).
    apply importRow_ok in Hok. tauto.
  - intros n [= <-]. apply length_filter.
Qed.

End ImportFacts.

(** ** Export and import of descriptions with double quotes *)

Section QuotedFacts.

Context {num : Type} `{EqDecision num}.

Variable numToString : num -> jsstring.
Variable parseFloat : jsstring -> option num.

Lemma csvRow_exportable t :
  exportable numToString parseFloat t ->
  csvRow numToString t
  = JS.join JS.comma
      [Transaction.id t; escapeCSV (Transaction.description t);
       numToString (Transaction.amount t); Transaction.type t;
       Transaction.paymentMethod t; Transaction.date t].
Proof.
  intros (H1 & _ & _ & H3 & H4 & H5 & _). unfold csvRow.
  rewrite !(escapeCSV_plain (Transaction.id t)), !(escapeCSV_plain (Transaction.type t)),
          !(escapeCSV_plain (Transaction.paymentMethod t)),
          !(escapeCSV_plain (Transaction.date t)) by assumption.
  reflexivity.
Qed.

Lemma exportable_cells c t :
  exportable numToString parseFloat t ->
  c ∈ [JS.comma; JS.LF] ->
  Forall (fun f => c ∉ f)
    [Transaction.id t; escapeCSV (Transaction.description t);
     numToString (Transaction.amount t); Transaction.type t;
     Transaction.paymentMethod t; Transaction.date t].
Proof.
  intros (H1 & Hc & Hl & H3 & H4 & H5 & _ & _ & _ & H6 & _) Hin.
  assert (Hin' : c ∈ [JS.dquote; JS.comma; JS.LF; JS.CR]).
  { apply elem_of_cons in Hin as [->|Hin];
      [right; left|apply list_elem_of_singleton in Hin; subst; right; right; left]. }
  assert (Hd : c ∉ escapeCSV (Transaction.description t)).
  { apply elem_of_cons in Hin as [->|Hin].
    - apply escapeCSV_not_elem; [discriminate|exact Hc].
    - apply list_elem_of_singleton in Hin. subst.
      apply escapeCSV_not_elem; [discriminate|exact Hl]. }
  repeat constructor; try exact Hd; eapply plainField_not_elem; eassumption.
Qed.

Lemma importRow_csvRow_quoted t :
  exportable numToString parseFloat t ->
  importRow parseFloat (csvRow numToString t)
  = RowOk (withDescription (JS.removeQuotes (Transaction.description t)) t).
Proof.
  intros Ht. rewrite (csvRow_exportable _ Ht). unfold importRow.
  rewrite split_join;
    [|discriminate|apply exportable_cells; [exact Ht|left]].
  destruct Ht as (_ & _ & _ & _ & _ & _ & Hid & Hdate & Hty & _ & Hparse).
  cbn [lookup list_lookup parseFloatArg field]. rewrite Hparse.
  cbn [Transaction.id Transaction.date Transaction.type].
  rewrite removeQuotes_escapeCSV.
  destruct t as [i d a ty pm dt]. cbn in *.
  destruct i; [done|]. destruct dt; [done|].
  rewrite bool_decide_eq_true_2 by exact Hty. reflexivity.
Qed.

Lemma importRows_csvRows_quoted ts :
  Forall (exportable numToString parseFloat) ts ->
  importRows parseFloat (csvRow numToString <$> ts)
  = Some ((fun t => withDescription (JS.removeQuotes (Transaction.description t)) t)
            <$> ts).
Proof.
  induction 1 as [|t ts Ht _ IH]; [reflexivity|].
  rewrite !fmap_cons. cbn [importRows].
  rewrite (importRow_csvRow_quoted _ Ht), IH. reflexivity.
Qed.

Lemma csvRow_no_LF_quoted t :
  exportable numToString parseFloat t -> JS.LF ∉ csvRow numToString t.
Proof.
  intros Ht. rewrite (csvRow_exportable _ Ht).
  apply join_not_elem; [discriminate|].
  apply exportable_cells; [exact Ht|right; left].
Qed.

(** The import of an export into any store: the rows read are the
    transactions with the double quotes removed from their descriptions. *)
Lemma import_of_export (ts prev : list (Transaction.t num)) (blob : jsstring) :
  Forall (exportable numToString parseFloat) ts ->
  handleExport numToString ts = Some blob ->
  handleImport parseFloat (readAsText blob) prev
  = (mergeImported
       ((fun t => withDescription (JS.removeQuotes (Transaction.description t)) t)
          <$> ts) prev,
     AlertSuccess (length ts)).
Proof.
  intros Hts Hexp. unfold handleExport in Hexp.
  destruct ts as [|t0 ts0] eqn:Ets; [discriminate|]. rewrite <- Ets in *.
  injection Hexp as <-. unfold readAsText. rewrite decide_True by reflexivity.
  set (header := JS.join JS.comma csvHeaders).
  assert (Hsplit : JS.split JS.LF (csvString numToString ts)
                   = header :: (csvRow numToString <$> ts)).
  { unfold csvString. fold header. apply split_join; [discriminate|].
    constructor; [apply (bool_decide_unpack _); vm_compute; exact I|].
    apply Forall_fmap. eapply Forall_impl; [exact Hts|].
    intros t Ht. apply csvRow_no_LF_quoted, Ht. }
  assert (Htruthy : JS.truthy (csvString numToString ts) = true)
    by (destruct (csvString numToString ts); [discriminate Hsplit|reflexivity]).
  unfold handleImport. rewrite Htruthy. cbn [negb].
  rewrite Hsplit, filter_cons, decide_True by (vm_compute; discriminate).
  rewrite filter_Forall_id
    by (apply Forall_fmap, Forall_forall; intros t _; apply csvRow_not_blank).
  change (negb (JS.truthy header)) with false. cbv iota.
  change (negb (headerOk (JS.trim <$> JS.split JS.comma header))) with false.
  cbv iota.
  rewrite (importRows_csvRows_quoted _ Hts), length_fmap. reflexivity.
Qed.

(** X17.  A description may hold double quotes and carriage returns and
    still pass through export and import, as long as it holds no comma and
    no line feed: the import into an empty store gives the list back in its
    order with every double quote removed from the descriptions, all other
    fields unchanged, and reports as many imported rows. *)
Theorem export_import_strips_quotes (ts : list (Transaction.t num)) (blob : jsstring) :
  Forall (exportable numToString parseFloat) ts ->
  handleExport numToString ts = Some blob ->
  handleImport parseFloat (readAsText blob) []
  = ((fun t => withDescription (JS.removeQuotes (Transaction.description t)) t) <$> ts,
     AlertSuccess (length ts)).
Proof.
  intros Hts Hexp. rewrite (import_of_export ts [] blob Hts Hexp).
  rewrite mergeImported_empty_store. reflexivity.
Qed.

(** X18.  Importing the export of the store back into the same store
    changes nothing: every row carries an id that the store holds, so all
    are discarded as duplicates, while the alert reports all of them as
    imported. *)
Theorem reimport_of_own_export (ts : list (Transaction.t num)) (blob : jsstring) :
  Forall (exportable numToString parseFloat) ts ->
  handleExport numToString ts = Some blob ->
  handleImport parseFloat (readAsText blob) ts = (ts, AlertSuccess (length ts)).
Proof.
  intros Hts Hexp. rewrite (import_of_export ts ts blob Hts Hexp). f_equal.
  unfold mergeImported. rewrite filter_none; [reflexivity|].
  apply Forall_forall. intros t Ht Hnew. apply Hnew. clear Hnew.
  apply elem_of_list_to_set.
  apply list_elem_of_fmap in Ht as (t' & -> & Ht').
  apply list_elem_of_fmap. exists t'. split; [reflexivity|exact Ht'].
Qed.

End QuotedFacts.

(** ** The export of [ExportButton.tsx] and the import *)

Lemma truthy_app a b : JS.truthy a = true -> JS.truthy (a ++ b) = true.
Proof. destruct a; [discriminate|reflexivity]. Qed.

(** X19.  A file written by the export button of
    [components/ExportButton.tsx] is not accepted by the import: its header
    has four columns, so whatever its rows the import raises the error of
    the wrong format and leaves the store as it is. *)
Theorem legacy_export_is_rejected {num : Type}
    (numToString : num -> jsstring) (Date_parse : jsstring -> option Z)
    (toLocaleString_arEG : option Z -> jsstring)
    (parseFloat : jsstring -> option num)
    (ts prev : list (Transaction.t num)) (blob : jsstring) :
  ExportButton.handleExport numToString Date_parse toLocaleString_arEG ts = Some blob ->
  handleImport parseFloat (readAsText blob) prev = (prev, AlertError ErrBadFormat).
Proof.
  unfold ExportButton.handleExport.
  destruct ts as [|t0 ts0]; [discriminate|]. intros Hexp.
  set (header := JS.join JS.comma ExportButton.headers).
  set (rest := JS.join JS.LF
                 (ExportButton.csvRow numToString Date_parse toLocaleString_arEG
                    <$> t0 :: ts0)).
  assert (Hblob : blob = JS.BOM :: header ++ JS.LF :: rest)
    by (injection Hexp as <-; reflexivity).
  rewrite Hblob. clear Hexp Hblob.
  unfold readAsText. rewrite decide_True by reflexivity.
  unfold handleImport.
  rewrite truthy_app by reflexivity. cbn [negb].
  rewrite split_app_sep by (apply (bool_decide_unpack _); vm_compute; exact I).
  rewrite filter_cons, decide_True by (vm_compute; discriminate).
  change (negb (JS.truthy header)) with false. cbv iota.
  replace (negb (headerOk (JS.trim <$> JS.split JS.comma header))) with true
    by (vm_compute; reflexivity).
  reflexivity.
Qed.

(** ** Weeks on the time line *)

Lemma weekStartDay_closed t : weekStartDay t = 7 * ((JSDate.Day t + 3) / 7) - 3.
Proof.
  unfold weekStartDay, isoWeekday, JSDate.WeekDay.
  generalize (JSDate.Day t). intros D.
  destruct (Z.eqb_spec ((D + 4) mod 7) 0) as [E|E].
  - clear -E. change ((7 - 1) mod 7) with 6. Z.div_mod_to_equations. lia.
  - clear -E.
    assert (Hr : 0 <= (D + 4) mod 7 < 7) by (apply Z.mod_pos_bound; lia).
    rewrite (Z.mod_small ((D + 4) mod 7 - 1)) by lia.
    clear Hr. Z.div_mod_to_equations. lia.
Qed.

Lemma getStartOfWeek_value tza tv :
  JSDate.getStartOfWeek tza (Some tv)
  = Some ((7 * (((tv + tza) / 86400000 + 3) / 7) - 3) * 86400000 - tza).
Proof.
  rewrite getStartOfWeek_closed, weekStartDay_closed.
  unfold JSDate.UTC, JSDate.MakeDate, JSDate.Day, JSDate.LocalTime, JSDate.msPerDay.
  f_equal. lia.
Qed.

Lemma week_bounds (t : Z) :
  (7 * ((t / 86400000 + 3) / 7) - 3) * 86400000 <= t
  < (7 * ((t / 86400000 + 3) / 7) - 3) * 86400000 + 7 * 86400000.
Proof. Z.div_mod_to_equations. lia. Qed.

Lemma week_same (k t : Z) :
  (7 * k - 3) * 86400000 <= t < (7 * k - 3) * 86400000 + 7 * 86400000 ->
  (t / 86400000 + 3) / 7 = k.
Proof. intros Ht. Z.div_mod_to_equations. lia. Qed.

Lemma week_next (t : Z) :
  ((t + 7 * 86400000) / 86400000 + 3) / 7 = (t / 86400000 + 3) / 7 + 1.
Proof. Z.div_mod_to_equations. lia. Qed.

(** X20.  The week starts cut the time line into intervals of seven days:
    the start of the week of an instant is at most the instant and less
    than seven days before it, every instant from the week start up to
    seven days later has the same week start (the week start itself among
    them), and the instant seven days later has the week start seven days
    later. *)
Theorem week_starts_tile_time (LocalTZA tv : Z) :
  ∃ r,
    JSDate.getStartOfWeek LocalTZA (Some tv) = Some r
    ∧ r <= tv < r + 7 * JSDate.msPerDay
    ∧ (∀ tv', r <= tv' < r + 7 * JSDate.msPerDay ->
         JSDate.getStartOfWeek LocalTZA (Some tv') = Some r)
    ∧ JSDate.getStartOfWeek LocalTZA (JSDate.getStartOfWeek LocalTZA (Some tv))
      = JSDate.getStartOfWeek LocalTZA (Some tv)
    ∧ JSDate.getStartOfWeek LocalTZA (Some (tv + 7 * JSDate.msPerDay))
      = Some (r + 7 * JSDate.msPerDay).
Proof.
  unfold JSDate.msPerDay.
  set (k := ((tv + LocalTZA) / 86400000 + 3) / 7).
  exists ((7 * k - 3) * 86400000 - LocalTZA).
  assert (Hval : JSDate.getStartOfWeek LocalTZA (Some tv)
                 = Some ((7 * k - 3) * 86400000 - LocalTZA))
    by apply getStartOfWeek_value.
  assert (Hin : (7 * k - 3) * 86400000 - LocalTZA <= tv
                < (7 * k - 3) * 86400000 - LocalTZA + 7 * 86400000).
  { pose proof (week_bounds (tv + LocalTZA)) as Hb. fold k in Hb. lia. }
  assert (Hsame : ∀ tv',
            (7 * k - 3) * 86400000 - LocalTZA <= tv'
            < (7 * k - 3) * 86400000 - LocalTZA + 7 * 86400000 ->
            JSDate.getStartOfWeek LocalTZA (Some tv')
            = Some ((7 * k - 3) * 86400000 - LocalTZA)).
  { intros tv' Hr. rewrite getStartOfWeek_value.
    rewrite (week_same k (tv' + LocalTZA)) by lia. reflexivity. }
  split; [exact Hval|]. split; [exact Hin|]. split; [exact Hsame|]. split.
  - rewrite Hval. apply Hsame. lia.
  - rewrite getStartOfWeek_value.
    replace (tv + 7 * 86400000 + LocalTZA) with (tv + LocalTZA + 7 * 86400000) by lia.
    rewrite week_next. fold k. f_equal. lia.
Qed.

(** ** Numeral normalisation *)

Lemma replaceNumeral_single c :
  ∃ d, replaceNumeral c = [d]
       ∧ arabicPersianNumerals d = false
       ∧ (arabicPersianNumerals c = false -> d = c).
Proof.
  destruct (arabicPersianNumerals c) eqn:E.
  - assert (Hv : ∃ v, digitValue c = Some v ∧ (v <= 9)%N).
    { unfold arabicPersianNumerals in E. unfold digitValue.
      apply orb_true_iff in E as [E|E]; apply andb_true_iff in E as [H1 H2];
        apply N.leb_le in H1, H2.
      - assert ((48 <=? c) && (c <=? 57) = false)%N as ->
          by (apply andb_false_iff; right; apply N.leb_gt; lia).
        assert ((1632 <=? c) && (c <=? 1641) = true)%N as ->
          by (apply andb_true_iff; split; apply N.leb_le; lia).
        eexists. split; [reflexivity|lia].
      - assert ((48 <=? c) && (c <=? 57) = false)%N as ->
          by (apply andb_false_iff; right; apply N.leb_gt; lia).
        assert ((1632 <=? c) && (c <=? 1641) = false)%N as ->
          by (apply andb_false_iff; right; apply N.leb_gt; lia).
        assert ((1776 <=? c) && (c <=? 1785) = true)%N as ->
          by (apply andb_true_iff; split; apply N.leb_le; lia).
        eexists. split; [reflexivity|lia]. }
    destruct Hv as (v & Hv & Hle).
    exists (48 + v)%N. split; [apply replaceNumeral_digit, Hv|].
    split; [|discriminate].
    unfold arabicPersianNumerals.
    assert ((1632 <=? 48 + v) = false)%N as -> by (apply N.leb_gt; lia).
    assert ((1776 <=? 48 + v) = false)%N as -> by (apply N.leb_gt; lia).
    reflexivity.
  - exists c. unfold replaceNumeral. rewrite E. auto.
Qed.

(** X21.  The numeral normalisation replaces code unit by code unit: the
    result has the length of the text, holds no Arabic-Indic and no
    Extended Arabic-Indic digit (so the missing entry of the table is never
    read), is left as it is by a second normalisation, and a text without
    such digits is unchanged. *)
Theorem convertToEnglishNumerals_normalises (str : jsstring) :
  length (convertToEnglishNumerals str) = length str
  ∧ Forall (fun c => arabicPersianNumerals c = false) (convertToEnglishNumerals str)
  ∧ convertToEnglishNumerals (convertToEnglishNumerals str)
    = convertToEnglishNumerals str
  ∧ (Forall (fun c => arabicPersianNumerals c = false) str ->
     convertToEnglishNumerals str = str).
Proof.
  assert (Hid : ∀ s, Forall (fun c => arabicPersianNumerals c = false) s ->
                     convertToEnglishNumerals s = s).
  { unfold convertToEnglishNumerals.
    induction 1 as [|c s Hc _ IH]; [reflexivity|].
    cbn [mbind list_bind]. unfold replaceNumeral at 1. rewrite Hc, IH. reflexivity. }
  assert (Hclean : Forall (fun c => arabicPersianNumerals c = false)
                          (convertToEnglishNumerals str)).
  { unfold convertToEnglishNumerals. induction str as [|c s IH]; [constructor|].
    cbn [mbind list_bind]. destruct (replaceNumeral_single c) as (d & -> & Hd & _).
    constructor; assumption. }
  split; [|split; [exact Hclean|split; [apply Hid, Hclean|apply Hid]]].
  clear Hid Hclean.
  unfold convertToEnglishNumerals. induction str as [|c s IH]; [reflexivity|].
  cbn [mbind list_bind]. destruct (replaceNumeral_single c) as (d & -> & _ & _).
  cbn [app length]. rewrite IH. reflexivity.
Qed.

(** ** Date ranges *)

Lemma ltb_below e s d :
  JS.ltb e s = true -> JS.ltb d s = false -> JS.ltb e d = true.
Proof.
  revert s d. induction e as [|x e IH]; intros [|y s] [|z d]; cbn [JS.ltb];
    try discriminate; try reflexivity.
  intros He Hd.
  apply orb_true_iff in He. apply orb_false_iff in Hd as [Hd1 Hd2].
  apply N.ltb_ge in Hd1. apply orb_true_iff.
  destruct He as [He|He].
  - left. apply N.ltb_lt in He. apply N.ltb_lt. lia.
  - apply andb_true_iff in He as [Hxy He]. apply bool_decide_eq_true in Hxy. subst y.
    destruct (decide (x = z)) as [->|Hne].
    + right. rewrite bool_decide_eq_true_2 in Hd2 |- * by reflexivity.
      cbn [andb] in Hd2 |- *. eapply IH; eassumption.
    + left. apply N.ltb_lt. lia.
Qed.

(** X22.  The date filter of the reports accepts exactly what the filter
    of the transaction list accepts for the same range with the search and
    the type filter cleared; and an inverted range, an end date that is not
    empty and lies before the start date, accepts no transaction in either
    filter. *)
Theorem date_range_filters {num : Type} (toLowerCase : jsstring -> jsstring)
    (s : AppState num) (t : Transaction.t num) :
  (searchTerm s = [] -> filterType s = JS.lit "all" ->
   filterByDate (startDate s) (endDate s) t = filterPredicate toLowerCase s t)
  ∧ (endDate s ≠ [] -> JS.ltb (endDate s) (startDate s) = true ->
     filterByDate (startDate s) (endDate s) t = false
     ∧ filterPredicate toLowerCase s t = false).
Proof.
  split.
  - intros Hs Hf. unfold filterPredicate, filterByDate, matchesSearch.
    rewrite Hs, Hf. cbn [convertToEnglishNumerals mbind list_bind JS.truthy andb negb].
    rewrite bool_decide_eq_false_2 by (intros Hn; apply Hn; reflexivity).
    cbn [andb].
    destruct (JS.truthy (startDate s)), (JS.truthy (endDate s)); reflexivity.
  - intros He Hinv.
    assert (Hstart : JS.truthy (startDate s) = true).
    { destruct (startDate s); [|reflexivity].
      destruct (endDate s); discriminate. }
    assert (Hend : JS.truthy (endDate s) = true)
      by (destruct (endDate s); [contradiction|reflexivity]).
    assert (Hdate : ∀ d, (if JS.truthy (startDate s) && JS.ltb d (startDate s) then false
                          else if JS.truthy (endDate s) && JS.ltb (endDate s) d then false
                          else true) = false).
    { intros d. rewrite Hstart, Hend. cbn [andb].
      destruct (JS.ltb d (startDate s)) eqn:Hd; [reflexivity|].
      rewrite (ltb_below _ _ _ Hinv Hd). reflexivity. }
    split.
    + unfold filterByDate.
      destruct (negb (JS.truthy (startDate s)) && negb (JS.truthy (endDate s))) eqn:E;
        [rewrite Hstart in E; discriminate|].
      apply Hdate.
    + unfold filterPredicate.
      destruct (negb (matchesSearch _ _ _)); [reflexivity|].
      destruct (_ && _); [reflexivity|]. apply Hdate.
Qed.

(** ** The order of the report lists *)

Section ReportOrder.

Context {num : Type}.

Variable Date_parse : jsstring -> option Z.

Lemma oldestFirst_valid (l : list (Transaction.t num)) :
  Forall (fun t => is_Some (Date_parse (Transaction.date t))) l ->
  Array_sort (oldestFirst Date_parse) l
  = Array_sort (fun a b => transactionTime Date_parse a - transactionTime Date_parse b) l.
Proof.
  intros Hvalid. apply Array_sort_ext. intros x y Hx Hy.
  rewrite Forall_forall in Hvalid.
  destruct (Hvalid x Hx) as [tx Ex], (Hvalid y Hy) as [ty Ey].
  unfold oldestFirst, transactionTime, timeDifference. rewrite Ex, Ey. reflexivity.
Qed.

Lemma Array_sort_oldestFirstOf (l : list (Transaction.t num)) :
  Forall (fun t => is_Some (Date_parse (Transaction.date t))) l ->
  oldestFirstOf Date_parse (Array_sort (oldestFirst Date_parse) l) l.
Proof.
  intros Hvalid. rewrite (oldestFirst_valid l Hvalid).
  split; [apply Array_sort_perm|].
  split; [apply (Array_sort_sorted (transactionTime Date_parse))|].
  intros x. apply (Array_sort_stable (transactionTime Date_parse)).
Qed.

(** X23.  When every date parses, each of the three report lists holds
    exactly the transactions of its kind within the report range (the
    incomes, the expenses, those of the payment method BANK), ordered from
    the oldest to the newest, transactions of the same instant in the order
    of the store. *)
Theorem report_lists_oldest_first (reportStartDate reportEndDate : jsstring)
    (ts : list (Transaction.t num)) :
  Forall (fun t => is_Some (Date_parse (Transaction.date t))) ts ->
  oldestFirstOf Date_parse
    (incomeTransactions Date_parse reportStartDate reportEndDate ts)
    (filter (fun t => Transaction.type t = TransactionType.INCOME
                      ∧ filterByDate reportStartDate reportEndDate t = true) ts)
  ∧ oldestFirstOf Date_parse
      (expenseTransactions Date_parse reportStartDate reportEndDate ts)
      (filter (fun t => Transaction.type t = TransactionType.EXPENSE
                        ∧ filterByDate reportStartDate reportEndDate t = true) ts)
  ∧ oldestFirstOf Date_parse
      (bankTransactions Date_parse reportStartDate reportEndDate ts)
      (filter (fun t => Transaction.paymentMethod t = PaymentMethod.BANK
                        ∧ filterByDate reportStartDate reportEndDate t = true) ts).
Proof.
  intros Hvalid.
  repeat split; apply Array_sort_oldestFirstOf, Forall_filter_keeps, Hvalid.
Qed.

End ReportOrder.

(** ** Searching *)

(** The lowering of the ASCII capitals is a lowering of ASCII text. *)
Lemma lowersAscii_ascii : lowersAscii toLowerCase_ascii.
Proof. intros s _. reflexivity. Qed.

(** X24.  On ASCII text the search is the substring search that ignores
    the case of the ASCII letters and the script of digits.  For a lowering
    that lowers ASCII text as the built-in does, the capitals A to Z to
    their small letters and nothing else, and for a query and a description
    that are ASCII once their digits are normalised: the match is the one
    computed with the lowering of the ASCII capitals; it succeeds exactly
    when the normalised query is empty or, lowered, a substring of the
    lowered normalised description; and so the search finds every
    description that holds, anywhere, a part equal to the query up to the
    case of letters and the script of digits. *)
Theorem search_finds_any_part (toLowerCase : jsstring -> jsstring)
    (query description : jsstring) :
  lowersAscii toLowerCase ->
  asciiText (convertToEnglishNumerals query) ->
  asciiText (convertToEnglishNumerals description) ->
  matchesSearch toLowerCase query description
  = matchesSearch toLowerCase_ascii query description
  ∧ (matchesSearch toLowerCase query description = true
     ↔ convertToEnglishNumerals query = []
       ∨ ∃ before after,
           toLowerCase_ascii (convertToEnglishNumerals description)
           = before ++ toLowerCase_ascii (convertToEnglishNumerals query) ++ after)
  ∧ (∀ before part after,
       description = before ++ part ++ after ->
       toLowerCase_ascii (convertToEnglishNumerals query)
       = toLowerCase_ascii (convertToEnglishNumerals part) ->
       matchesSearch toLowerCase query description = true).
Proof.
  intros Hlow Hq Hd.
  assert (E : matchesSearch toLowerCase query description
              = matchesSearch toLowerCase_ascii query description).
  { unfold matchesSearch. cbv zeta. rewrite (Hlow _ Hq), (Hlow _ Hd). reflexivity. }
  split; [exact E|]. rewrite E. split; [apply matchesSearch_spec|].
  intros before part after -> Hpart. apply matchesSearch_spec. right.
  exists (toLowerCase_ascii (convertToEnglishNumerals before)),
         (toLowerCase_ascii (convertToEnglishNumerals after)).
  rewrite Hpart, !convert_app. unfold toLowerCase_ascii. rewrite !fmap_app.
  reflexivity.
Qed.

(** A query in capitals and Arabic-Indic digits finds the description that
    holds it in small letters and ASCII digits; a word that the description
    does not hold is no substring of it. *)
Lemma search_finds_any_part_witness :
  lowersAscii toLowerCase_ascii
  ∧ asciiText (convertToEnglishNumerals (JS.lit "ROSES " ++ exArabic123))
  ∧ asciiText (convertToEnglishNumerals (JS.lit "Red roses 123 tied"))
  ∧ matchesSearch toLowerCase_ascii (JS.lit "ROSES " ++ exArabic123)
      (JS.lit "Red roses 123 tied") = true
  ∧ ¬ (∃ before after,
         toLowerCase_ascii (convertToEnglishNumerals (JS.lit "Red roses 123 tied"))
         = before ++ toLowerCase_ascii (convertToEnglishNumerals (JS.lit "tulips")) ++ after).
Proof.
  assert (Hascii : ∀ s, forallb (fun c => (c <? 128)%N) s = true -> asciiText s).
  { intros s Hs. apply Forall_forall. intros c Hc.
    rewrite forallb_forall in Hs. apply N.ltb_lt, Hs, list_elem_of_In, Hc. }
  assert (Hq : asciiText (convertToEnglishNumerals (JS.lit "ROSES " ++ exArabic123)))
    by (apply Hascii; reflexivity).
  assert (Hq' : asciiText (convertToEnglishNumerals (JS.lit "tulips")))
    by (apply Hascii; reflexivity).
  assert (Hd : asciiText (convertToEnglishNumerals (JS.lit "Red roses 123 tied")))
    by (apply Hascii; reflexivity).
  split; [exact lowersAscii_ascii|]. split; [exact Hq|]. split; [exact Hd|].
  split.
  - destruct (search_finds_any_part toLowerCase_ascii _ _ lowersAscii_ascii Hq Hd)
      as (_ & _ & Hfind).
    apply (Hfind (JS.lit "Red ") (JS.lit "roses 123") (JS.lit " tied")); reflexivity.
  - destruct (search_finds_any_part toLowerCase_ascii _ _ lowersAscii_ascii Hq' Hd)
      as (_ & Hiff & _).
    intros Hex. assert (Hm := proj2 Hiff (or_intror Hex)). discriminate Hm.
Defined.

(** ** The stored transactions *)

(** X25.  Every transaction of the initial state has a payment method that
    is not empty: a stored record keeps the one it has, and a record
    without one, or with the empty one, gets CASH, its other fields
    unchanged.  A store written before payment methods existed is
    therefore loaded into the cash account entirely: in exact arithmetic
    its bank balance is zero and its cash balance is its total balance. *)
Theorem initial_transactions_have_method :
  (∀ (num : Type) (parsed : list (StoredTransaction.t num)),
     Forall (fun t => Transaction.paymentMethod t ≠ []) (initialTransactions parsed)
     ∧ ∀ i r, parsed !! i = Some r ->
         ∃ t, initialTransactions parsed !! i = Some t
              ∧ Transaction.id t = StoredTransaction.id r
              ∧ Transaction.description t = StoredTransaction.description r
              ∧ Transaction.amount t = StoredTransaction.amount r
              ∧ Transaction.type t = StoredTransaction.type r
              ∧ Transaction.date t = StoredTransaction.date r
              ∧ (∀ m, StoredTransaction.paymentMethod r = Some m -> m ≠ [] ->
                   Transaction.paymentMethod t = m)
              ∧ (StoredTransaction.paymentMethod r = None
                 ∨ StoredTransaction.paymentMethod r = Some [] ->
                 Transaction.paymentMethod t = PaymentMethod.CASH))
  ∧ (∀ parsed : list (StoredTransaction.t Z),
       Forall (fun r => StoredTransaction.paymentMethod r = None) parsed ->
       bankBalance (initialTransactions parsed) = 0
       ∧ cashBalance (initialTransactions parsed)
         = totalBalance (initialTransactions parsed)).
Proof.
  split.
  - intros num parsed. split.
    + unfold initialTransactions. apply Forall_fmap, Forall_forall.
      intros r _. unfold migrate. cbn [Transaction.paymentMethod compose].
      destruct (StoredTransaction.paymentMethod r) as [[|c m]|]; discriminate.
    + intros i r Hr. exists (migrate r). unfold initialTransactions.
      rewrite list_lookup_fmap, Hr. split; [reflexivity|].
      unfold migrate. cbn [Transaction.id Transaction.description Transaction.amount
                           Transaction.type Transaction.date Transaction.paymentMethod].
      repeat split.
      * intros m -> Hm. destruct m; [contradiction|reflexivity].
      * intros [->| ->]; reflexivity.
  - intros parsed Hnone.
    assert (Hcash : Forall (fun t => Transaction.paymentMethod t = PaymentMethod.CASH)
                           (initialTransactions parsed)).
    { unfold initialTransactions. apply Forall_fmap.
      eapply Forall_impl; [exact Hnone|].
      intros r Hr. unfold migrate. cbn. rewrite Hr. reflexivity. }
    generalize dependent (initialTransactions parsed). intros ts Hcash.
    assert (E : ∀ acc, let r := foldl balanceStep acc ts in
                       bankInc r = bankInc acc ∧ bankExp r = bankExp acc).
    { induction Hcash as [|t ts Ht _ IH]; intros acc; cbn [foldl]; [auto|].
      destruct (IH (balanceStep acc t)) as [-> ->].
      unfold balanceStep. rewrite decide_True by exact Ht.
      destruct (decide (Transaction.type t = TransactionType.INCOME)); auto. }
    unfold bankBalance, cashBalance, totalBalance, balanceAcc.
    destruct (E {| cashInc := 0; cashExp := 0; bankInc := 0; bankExp := 0 |})
      as [E1 E2].
    change (@num_zero Z integers) with 0. cbn zeta.
    cbn [bankInc bankExp] in E1, E2. rewrite E1, E2.
    change (@num_sub Z integers) with Z.sub. change (@num_add Z integers) with Z.add.
    split; lia.
Qed.

(** ** The group headers *)





Section HeaderFacts.

Variable LocalTZA : Z.
Variable Date_parse : jsstring -> option Z.
Variable format_arEG : bool -> bool -> option Z -> jsstring.



End HeaderFacts.

(** ** The properties on the examples *)

Lemma debt_lists_partition_and_order_witness :
  Forall (fun d => is_Some (parseISO (Debt.date d))) (debts exDebtState)
  ∧ unpaidDebts parseISO (debts exDebtState) = [exDebtB; exDebtA]
  ∧ paidDebts parseISO (debts exDebtState) = [exDebtC]
  ∧ StronglySorted (fun a b => debtTime parseISO b <= debtTime parseISO a)
      (unpaidDebts parseISO (debts exDebtState)).
Proof.
  assert (Hv : Forall (fun d => is_Some (parseISO (Debt.date d))) (debts exDebtState)).
  { repeat constructor; vm_compute; eexists; reflexivity. }
  split; [exact Hv|].
  split; [vm_compute; reflexivity|].
  split; [vm_compute; reflexivity|].
  destruct (debt_lists_partition_and_order parseISO (debts exDebtState))
    as (_ & _ & _ & Hsorted).
  exact (proj1 (Hsorted Hv)).
Defined.

Lemma transaction_form_validation_witness :
  handleTransactionSubmit parseFloat_int (JS.lit "1710417600000")
    (JS.lit "2024-03-14T12:00:00.000Z") exForm exDebtState
  = (TransactionForm.reset,
     setTransactions
       (fun prev =>
          Transaction.mk (JS.lit "1710417600000") (JS.lit "tulips") 25
            TransactionType.EXPENSE PaymentMethod.CASH
            (JS.lit "2024-03-14T12:00:00.000Z") :: prev) exDebtState,
     false)
  ∧ (false = true
     ↔ JS.trim (TransactionForm.description exForm) = []
       ∨ parseFloat_int (TransactionForm.amount exForm) = None
       ∨ ∃ a, parseFloat_int (TransactionForm.amount exForm) = Some a
              ∧ num_leb a num_zero = true).
Proof.
  assert (E : handleTransactionSubmit parseFloat_int (JS.lit "1710417600000")
                (JS.lit "2024-03-14T12:00:00.000Z") exForm exDebtState
              = (TransactionForm.reset,
                 setTransactions
                   (fun prev =>
                      Transaction.mk (JS.lit "1710417600000") (JS.lit "tulips") 25
                        TransactionType.EXPENSE PaymentMethod.CASH
                        (JS.lit "2024-03-14T12:00:00.000Z") :: prev) exDebtState,
                 false)) by reflexivity.
  split; [exact E|].
  exact (proj1 (transaction_form_validation parseFloat_int _ _ _ _ _ _ _ E)).
Defined.

Lemma transaction_submit_moves_balances_witness :
  ∃ s', handleTransactionSubmit parseFloat_int (JS.lit "1710417600000")
          (JS.lit "2024-03-14T12:00:00.000Z") exForm exDebtState
        = (TransactionForm.reset, s', false)
        ∧ totalBalance (transactions s') = 85
        ∧ cashBalance (transactions s') = 35
        ∧ bankBalance (transactions s') = 50.
Proof.
  eexists. split; [reflexivity|].
  destruct (transaction_submit_moves_balances parseFloat_int (JS.lit "1710417600000")
              (JS.lit "2024-03-14T12:00:00.000Z") exForm TransactionForm.reset
              exDebtState _ eq_refl) as (a & Ea & _ & E1 & E2 & E3).
  injection Ea as <-.
  rewrite E1, E2, E3. repeat split; reflexivity.
Defined.

Lemma submit_then_delete_witness :
  ∃ s', handleTransactionSubmit parseFloat_int (JS.lit "1710417600000")
          (JS.lit "2024-03-14T12:00:00.000Z") exForm exDebtState
        = (TransactionForm.reset, s', false)
        ∧ length (transactions s') = 4%nat
        ∧ transactions (handleConfirmTransactionDelete
                          (handleDeleteTransactionRequest (JS.lit "1710417600000") s'))
          = exLedger.
Proof.
  eexists. split; [reflexivity|]. split; [reflexivity|].
  apply (submit_then_delete parseFloat_int (JS.lit "1710417600000")
           (JS.lit "2024-03-14T12:00:00.000Z") exForm TransactionForm.reset
           exDebtState _ eq_refl); [discriminate|reflexivity|].
  apply (bool_decide_unpack _). vm_compute. exact I.
Defined.

Lemma debt_form_validation_witness :
  ∃ s', handleDebtSubmit parseFloat_int (JS.lit "1710417600000")
          (JS.lit "2024-03-14T12:00:00.000Z") exDebtForm exDebtState
        = (DebtForm.reset, s', false)
        ∧ ∃ d, debts s' = d :: debts exDebtState
               ∧ Debt.id d = JS.lit "debt-1710417600000"
               ∧ Debt.clientName d = JS.lit "Nora"
               ∧ Debt.notes d = None.
Proof.
  assert (E : ∃ s', handleDebtSubmit parseFloat_int (JS.lit "1710417600000")
                      (JS.lit "2024-03-14T12:00:00.000Z") exDebtForm exDebtState
                    = (DebtForm.reset, s', false)) by (eexists; reflexivity).
  destruct E as [s' E]. exists s'. split; [exact E|].
  destruct (debt_form_validation parseFloat_int (JS.lit "1710417600000")
              (JS.lit "2024-03-14T12:00:00.000Z") exDebtForm DebtForm.reset
              exDebtState s' false E) as (_ & _ & Hok).
  destruct (Hok eq_refl) as (_ & _ & d & Ed & Eid & Ecl & _ & _ & _ & _ & _ & _ & En).
  exists d. repeat split; try assumption.
  destruct (Debt.notes d) as [n|]; [|reflexivity].
  destruct En as [-> Hn]. exfalso. apply Hn. reflexivity.
Defined.

Lemma debt_delete_removes_exactly_id_witness :
  debts (handleConfirmDebtDelete
           (handleDeleteDebtRequest (JS.lit "debt-2") exDebtState exDialog)
           exDebtState).1
  = [exDebtA; exDebtC].
Proof.
  rewrite (proj1 (debt_delete_removes_exactly_id exDebtState exDialog (JS.lit "debt-2")
                    eq_refl ltac:(discriminate))).
  reflexivity.
Defined.

Lemma debt_entered_settled_deleted_witness :
  ∃ s1, handleDebtSubmit parseFloat_int (JS.lit "1710417600000")
          (JS.lit "2024-03-14T12:00:00.000Z") exDebtForm exDebtState
        = (DebtForm.reset, s1, false)
        ∧ debts ((handleConfirmDebtDelete
                    (handleDeleteDebtRequest (JS.lit "debt-1710417600000")
                       (settleDebt (JS.lit "1710504000000")
                          (JS.lit "2024-03-15T12:00:00.000Z")
                          (JS.lit "debt-1710417600000") PaymentMethod.BANK s1)
                       exDialog)
                    (settleDebt (JS.lit "1710504000000")
                       (JS.lit "2024-03-15T12:00:00.000Z")
                       (JS.lit "debt-1710417600000") PaymentMethod.BANK s1)).1)
          = debts exDebtState.
Proof.
  assert (E : ∃ s1, handleDebtSubmit parseFloat_int (JS.lit "1710417600000")
                      (JS.lit "2024-03-14T12:00:00.000Z") exDebtForm exDebtState
                    = (DebtForm.reset, s1, false)) by (eexists; reflexivity).
  destruct E as [s1 E]. exists s1. split; [exact E|].
  apply (debt_entered_settled_deleted parseFloat_int (JS.lit "1710417600000")
           (JS.lit "2024-03-14T12:00:00.000Z") (JS.lit "1710504000000")
           (JS.lit "2024-03-15T12:00:00.000Z") PaymentMethod.BANK
           exDebtForm DebtForm.reset exDebtState s1 exDialog eq_refl E).
  apply (bool_decide_unpack _). vm_compute. exact I.
Defined.

Lemma settlement_moves_amount_witness :
  totalBalance (transactions (settleDebt (JS.lit "1710331200000")
                                (JS.lit "2024-03-13T12:00:00.000Z")
                                (Debt.id exDebtA) PaymentMethod.BANK exDebtState))
  = 180
  ∧ totalUnpaidDebts (debts exDebtState) = 100.
Proof.
  split; [|reflexivity].
  assert (Hnd : NoDup (Debt.id <$> debts exDebtState))
    by (apply (bool_decide_unpack _); vm_compute; exact I).
  assert (Hin : exDebtA ∈ debts exDebtState) by (apply elem_of_cons; left; reflexivity).
  rewrite (proj1 (settlement_moves_amount (JS.lit "1710331200000")
                    (JS.lit "2024-03-13T12:00:00.000Z") PaymentMethod.BANK
                    exDebtState exDebtA eq_refl Hnd Hin eq_refl)).
  reflexivity.
Defined.

Lemma export_import_strips_quotes_witness :
  Forall (exportable decimal parseFloat_int) [exRoses; exQuoted]
  ∧ handleImport parseFloat_int
      (readAsText (JS.BOM :: csvString decimal [exRoses; exQuoted])) []
    = ([exRoses; withDescription (JS.lit "say hi") exQuoted], AlertSuccess 2).
Proof.
  assert (Hts : Forall (exportable decimal parseFloat_int) [exRoses; exQuoted]).
  { apply (bool_decide_unpack _). vm_compute. exact I. }
  split; [exact Hts|].
  apply (export_import_strips_quotes decimal parseFloat_int [exRoses; exQuoted]
           (JS.BOM :: csvString decimal [exRoses; exQuoted]) Hts eq_refl).
Defined.

Lemma legacy_export_is_rejected_witness :
  ∃ blob,
    ExportButton.handleExport decimal parseISO
      (fun _ => JS.lit "10/03/2024") exLedger = Some blob
    ∧ handleImport parseFloat_int (readAsText blob) [exRoses]
      = ([exRoses], AlertError ErrBadFormat).
Proof.
  eexists. split; [reflexivity|].
  apply (legacy_export_is_rejected decimal parseISO (fun _ => JS.lit "10/03/2024")
           parseFloat_int exLedger [exRoses] _ eq_refl).
Defined.

Lemma date_range_filters_witness :
  filterByDate (JS.lit "2024-03-31") (JS.lit "2024-03-01") exRoses = false.
Proof.
  apply (proj2 (date_range_filters toLowerCase_ascii
                  {| transactions := exLedger; debts := [];
                     searchTerm := []; filterType := JS.lit "all";
                     startDate := JS.lit "2024-03-31"; endDate := JS.lit "2024-03-01";
                     groupingMode := daily; activeView := ViewReports;
                     activeAccountView := PaymentMethod.CASH;
                     isTransactionModalOpen := false; transactionToDelete := None;
                     debtToSettle := None; isAccountantMode := false |}
                  exRoses));
    [discriminate|reflexivity].
Defined.

Lemma report_lists_oldest_first_witness :
  Forall (fun t => is_Some (parseISO (Transaction.date t))) (reverse exLedger)
  ∧ incomeTransactions parseISO [] [] (reverse exLedger) = [exRoses; exWedding]
  ∧ oldestFirstOf parseISO (incomeTransactions parseISO [] [] (reverse exLedger))
      (filter (fun t => Transaction.type t = TransactionType.INCOME
                        ∧ filterByDate [] [] t = true) (reverse exLedger)).
Proof.
  assert (Hv : Forall (fun t => is_Some (parseISO (Transaction.date t)))
                      (reverse exLedger)).
  { repeat constructor; vm_compute; eexists; reflexivity. }
  split; [exact Hv|]. split; [vm_compute; reflexivity|].
  exact (proj1 (report_lists_oldest_first parseISO [] [] (reverse exLedger) Hv)).
Defined.



Lemma accountant_mode_blocks_changes_witness :
  isAccountantMode exAccountantState = true
  ∧ transactions (handleConfirmTransactionDelete
                    (handleDeleteTransactionRequest (Transaction.id exVase)
                       exAccountantState))
    = exLedger
  ∧ settleDebt (JS.lit "1710331200000") (JS.lit "2024-03-13T12:00:00.000Z")
      (JS.lit "debt-1") PaymentMethod.BANK exAccountantState
    = exAccountantState.
Proof.
  split; [reflexivity|].
  destruct (accountant_mode_blocks_changes exAccountantState exDialog
              (Transaction.id exVase) (JS.lit "1710331200000")
              (JS.lit "2024-03-13T12:00:00.000Z") PaymentMethod.BANK eq_refl)
    as (_ & _ & _ & Hdel & _ & _).
  split; [exact (Hdel eq_refl)|].
  destruct (accountant_mode_blocks_changes exAccountantState exDialog
              (JS.lit "debt-1") (JS.lit "1710331200000")
              (JS.lit "2024-03-13T12:00:00.000Z") PaymentMethod.BANK eq_refl)
    as (_ & _ & _ & _ & Hsettle & _).
  exact (Hsettle eq_refl).
Defined.

Lemma reimport_of_own_export_witness :
  Forall (exportable decimal parseFloat_int) exLedger
  ∧ handleImport parseFloat_int
      (readAsText (JS.BOM :: csvString decimal exLedger)) exLedger
    = (exLedger, AlertSuccess 3).
Proof.
  assert (Hts : Forall (exportable decimal parseFloat_int) exLedger).
  { apply (bool_decide_unpack _). vm_compute. exact I. }
  split; [exact Hts|].
  apply (reimport_of_own_export decimal parseFloat_int exLedger
           (JS.BOM :: csvString decimal exLedger) Hts eq_refl).
Defined.
